(** * A shallow embedding of [src/mlp.py]

    The multilayer perceptron of [mlp.py] (class [MLP]) is translated method
    by method.  Scalars are kept abstract (class [Scalar]): no algebraic law
    is assumed of them, so every statement below holds for IEEE doubles as
    numpy computes them as well as for exact rationals.  numpy's 2-D arrays
    carry their shape explicitly, and every numpy primitive checks shapes the
    way numpy does and raises the Python exception numpy raises.

    The methods run in a state-and-exception monad over a [World]: the object
    store (the arrays that are mutated in place and may be shared with the
    caller), the attributes of [self], the console and the random source. *)

From Stdlib Require Import ZArith QArith Qcanon String.
From stdpp Require Import list.

Open Scope string_scope.
Open Scope nat_scope.

(** ** Scalars *)

(** The arithmetic of the array elements.  [flit] reads a numeric literal of
    the source ([1.0], [0.5], [0.001], [100002]); [fgtb] is Python's [>]. *)
Class Scalar (F : Type) := {
  flit : Q -> F;
  fadd : F -> F -> F;
  fsub : F -> F -> F;
  fmul : F -> F -> F;
  fdiv : F -> F -> F;
  fneg : F -> F;
  fexp : F -> F;
  fgtb : F -> F -> bool
}.

(** ** Python exceptions and results *)

Inductive exn : Type :=
| ValueError
| TypeError
| IndexError
| NameError (name : string)
| AttributeError (name : string).

Inductive result (A : Type) : Type :=
| Ok (a : A)
| Raise (e : exn).
Arguments Ok {A} a.
Arguments Raise {A} e.

Definition is_raise {A} (r : result A) : bool :=
  match r with Ok _ => false | Raise _ => true end.

Module Ny.
Section Arrays.
Context {F : Type} `{Scalar F}.

Definition fzero : F := flit 0.
Definition fone : F := flit 1.

(** A Python int used where numpy expects a float ([deltao /= data_amount]). *)
Definition of_nat (n : nat) : F := flit (inject_Z (Z.of_nat n)).

(** Summation of a list of terms, first term first.  (numpy does not fix the
    order in which [dot] and [sum] add; the statements below name the sum
    and use no property of it.) *)
Definition fsum (l : list F) : F := fold_left fadd l fzero.

(** A 2-D array: its shape and its rows. *)
Record matrix : Type := Mat {
  nrows : nat;
  ncols : nat;
  cells : list (list F)
}.

(** What [ny.array] returns for a list of lists: a 2-D array when the rows
    have one width, and otherwise (numpy of the Python 2 era) a 1-D array of
    dtype object whose elements are the row lists themselves. *)
Inductive ndarray : Type :=
| Arr2 (m : matrix)
| ArrObj (rows : list (list F)).

Definition mget (A : matrix) (i j : nat) : F :=
  nth j (nth i (cells A) []) fzero.

Definition mbuild (r c : nat) (f : nat -> nat -> F) : matrix :=
  Mat r c (map (fun i => map (fun j => f i j) (seq 0 c)) (seq 0 r)).

(** [ny.array(rows)] *)
Definition rectangular (rows : list (list F)) : bool :=
  match rows with
  | [] => false
  | r0 :: _ => forallb (fun r => length r =? length r0) rows
  end.

Definition array (rows : list (list F)) : ndarray :=
  match rows with
  | [] => ArrObj []
  | r0 :: _ =>
      if rectangular rows then Arr2 (Mat (length rows) (length r0) rows)
      else ArrObj rows
  end.

(** [len(a)] *)
Definition len (a : ndarray) : nat :=
  match a with
  | Arr2 m => nrows m
  | ArrObj rows => length rows
  end.

(** [ny.zeros((r, c))], [-ny.ones((r, c))], [ny.ones((r, c))] *)
Definition zeros (r c : nat) : matrix := mbuild r c (fun _ _ => fzero).
Definition ones (r c : nat) : matrix := mbuild r c (fun _ _ => fone).
Definition neg_ones (r c : nat) : matrix := mbuild r c (fun _ _ => fneg fone).

(** An operation between a scalar and an array, element by element. *)
Definition map_elems (f : F -> F) (A : matrix) : matrix :=
  mbuild (nrows A) (ncols A) (fun i j => f (mget A i j)).

(** Broadcasting of two dimensions: they agree, or one of them is 1. *)
Definition bcompat (a b : nat) : bool := (a =? b) || (a =? 1) || (b =? 1).
Definition bdim (a b : nat) : nat := if a =? 1 then b else a.
Definition bget (A : matrix) (i j : nat) : F :=
  mget A (if nrows A =? 1 then 0 else i) (if ncols A =? 1 then 0 else j).

(** [A op B] on two 2-D arrays. *)
Definition binop (op : F -> F -> F) (A B : matrix) : result matrix :=
  if bcompat (nrows A) (nrows B) && bcompat (ncols A) (ncols B) then
    Ok (mbuild (bdim (nrows A) (nrows B)) (bdim (ncols A) (ncols B))
          (fun i j => op (bget A i j) (bget B i j)))
  else Raise ValueError.

(** [A op= B]: the broadcast result has to fit the left operand. *)
Definition iop (op : F -> F -> F) (A B : matrix) : result matrix :=
  if bcompat (nrows A) (nrows B) && bcompat (ncols A) (ncols B)
     && (bdim (nrows A) (nrows B) =? nrows A)
     && (bdim (ncols A) (ncols B) =? ncols A) then
    Ok (mbuild (nrows A) (ncols A) (fun i j => op (mget A i j) (bget B i j)))
  else Raise ValueError.

(** [ny.dot(A, B)] *)
Definition dot (A B : matrix) : result matrix :=
  if ncols A =? nrows B then
    Ok (mbuild (nrows A) (ncols B)
          (fun i j => fsum (map (fun k => fmul (mget A i k) (mget B k j))
                              (seq 0 (ncols A)))))
  else Raise ValueError.

(** [ny.transpose(A)] *)
Definition transpose (A : matrix) : matrix :=
  mbuild (ncols A) (nrows A) (fun i j => mget A j i).

(** [ny.concatenate((A, B), axis = 1)] *)
Definition concatenate1 (A B : matrix) : result matrix :=
  if nrows A =? nrows B then
    Ok (mbuild (nrows A) (ncols A + ncols B)
          (fun i j => if j <? ncols A then mget A i j
                      else mget B i (j - ncols A)))
  else Raise ValueError.

(** [A[:, :-1]] *)
Definition drop_last_col (A : matrix) : matrix :=
  mbuild (nrows A) (ncols A - 1) (fun i j => mget A i j).

(** [A[idx, :]] for a list of non-negative indices. *)
Definition take_rows (A : matrix) (idx : list nat) : result matrix :=
  if forallb (fun i => i <? nrows A) idx then
    Ok (mbuild (length idx) (ncols A) (fun i j => mget A (nth i idx 0) j))
  else Raise IndexError.

(** [ny.sum(A)] and [ny.sum(A, axis = 1)] (a 1-D array). *)
Definition sum_all (A : matrix) : F :=
  fsum (flat_map (fun i => map (fun j => mget A i j) (seq 0 (ncols A)))
          (seq 0 (nrows A))).

Definition sum_axis1 (A : matrix) : list F :=
  map (fun i => fsum (map (fun j => mget A i j) (seq 0 (ncols A))))
    (seq 0 (nrows A)).

(** A 1-D array of length n broadcasts against 2-D arrays as shape (1, n). *)
Definition as_row (v : list F) : matrix := Mat 1 (length v) [v].

End Arrays.
End Ny.

(** ** The world the methods run in *)

(** Objects of the store are named by their position in it. *)
Abbreviation loc := nat.

(** What the program writes on the console. *)
Inductive line (F : Type) : Type :=
| ProgressLine (count : nat) (error : F)
| EndLine (count : nat) (error : F)
| UnknownOuttypeLine (outtype : string).
Arguments ProgressLine {F} count error.
Arguments EndLine {F} count error.
Arguments UnknownOuttypeLine {F} outtype.

(** The values a method call evaluates to, as far as the callers of this
    class can tell them apart. *)
Inductive pyval (F : Type) : Type :=
| PyNone
| PyInt (n : Z)
| PyFloat (x : F)
| PyPair (a b : pyval F).
Arguments PyNone {F}.
Arguments PyInt {F} n.
Arguments PyFloat {F} x.
Arguments PyPair {F} a b.

(** The injected random source: [uniform k] is the k-th draw of
    [ny.random.rand], [shuffled k l] what the k-th call of
    [ny.random.shuffle] makes of the list [l]. *)
Record RandomSource (F : Type) : Type := {
  uniform : nat -> F;
  shuffled : nat -> list nat -> list nat;
  shuffled_perm : forall k l, shuffled k l ≡ₚ l
}.
Arguments uniform {F} _ _.
Arguments shuffled {F} _ _ _.
Arguments shuffled_perm {F} _ _ _.

(** The attributes of an [MLP] object.  The two weight matrices are mutated
    in place ([+=]) and therefore live in the object store, where the caller
    may hold them too.  Every other array attribute is rebound to a new
    array whenever it changes (the accumulators receive their [+=] right
    after being rebound to a fresh product, when nothing else refers to
    them), so it is held by value.  The attributes that [__init__] does not
    assign are optional. *)
Record MLP (F : Type) : Type := {
  inputs : Ny.matrix (F:=F);
  targets : Ny.ndarray (F:=F);
  nodes_in : nat;
  nodes_out : nat;
  data_amount : nat;
  nodes_hidden : nat;
  beta : F;
  momentum : F;
  weights_layer1 : loc;
  weights_layer2 : loc;
  eta : option F;
  outtype : option string;
  update_w1 : option (Ny.matrix (F:=F));
  update_w2 : option (Ny.matrix (F:=F));
  outputs : option (Ny.matrix (F:=F));
  hidden : option (Ny.matrix (F:=F))
}.
Arguments inputs {F} _.
Arguments targets {F} _.
Arguments nodes_in {F} _.
Arguments nodes_out {F} _.
Arguments data_amount {F} _.
Arguments nodes_hidden {F} _.
Arguments beta {F} _.
Arguments momentum {F} _.
Arguments weights_layer1 {F} _.
Arguments weights_layer2 {F} _.
Arguments eta {F} _.
Arguments outtype {F} _.
Arguments update_w1 {F} _.
Arguments update_w2 {F} _.
Arguments outputs {F} _.
Arguments hidden {F} _.

Record World (F : Type) : Type := {
  heap : list (Ny.ndarray (F:=F));
  stdout : list (line F);
  rng : nat;
  self : MLP F
}.
Arguments heap {F} _.
Arguments stdout {F} _.
Arguments rng {F} _.
Arguments self {F} _.

Section Methods.
Context {F : Type} `{Scalar F}.
Variable RS : RandomSource F.

Abbreviation matrix := (Ny.matrix (F:=F)).
Abbreviation ndarray := (Ny.ndarray (F:=F)).

(** Mutated state survives an exception, so a computation returns the world
    it leaves behind together with its value or its exception. *)
Definition M (A : Type) : Type := World F -> World F * result A.

Definition ret {A} (a : A) : M A := fun w => (w, Ok a).
Definition raise {A} (e : exn) : M A := fun w => (w, Raise e).
Definition bind {A B} (c : M A) (k : A -> M B) : M B :=
  fun w => match c w with
           | (w', Ok a) => k a w'
           | (w', Raise e) => (w', Raise e)
           end.
Definition lift {A} (r : result A) : M A := fun w => (w, r).

Notation "x <- c ;; k" := (bind c (fun x => k))
  (at level 100, c at next level, right associativity).
Notation "c ;; k" := (bind c (fun _ => k))
  (at level 100, right associativity).

(** Attribute access on [self]. *)
Definition attr {A} (f : MLP F -> A) : M A := fun w => (w, Ok (f (self w))).

Definition getattr {A} (name : string) (f : MLP F -> option A) : M A :=
  fun w => match f (self w) with
           | Some a => (w, Ok a)
           | None => (w, Raise (AttributeError name))
           end.

Definition upd_self (g : MLP F -> MLP F) (w : World F) : World F :=
  {| heap := heap w; stdout := stdout w; rng := rng w; self := g (self w) |}.

Definition set_self (g : MLP F -> MLP F) : M unit :=
  fun w => (upd_self g w, Ok tt).

Definition with_inputs (v : matrix) (s : MLP F) : MLP F :=
  {| inputs := v; targets := targets s; nodes_in := nodes_in s;
     nodes_out := nodes_out s; data_amount := data_amount s;
     nodes_hidden := nodes_hidden s; beta := beta s; momentum := momentum s;
     weights_layer1 := weights_layer1 s; weights_layer2 := weights_layer2 s;
     eta := eta s; outtype := outtype s; update_w1 := update_w1 s;
     update_w2 := update_w2 s; outputs := outputs s; hidden := hidden s |}.

Definition with_targets (v : ndarray) (s : MLP F) : MLP F :=
  {| inputs := inputs s; targets := v; nodes_in := nodes_in s;
     nodes_out := nodes_out s; data_amount := data_amount s;
     nodes_hidden := nodes_hidden s; beta := beta s; momentum := momentum s;
     weights_layer1 := weights_layer1 s; weights_layer2 := weights_layer2 s;
     eta := eta s; outtype := outtype s; update_w1 := update_w1 s;
     update_w2 := update_w2 s; outputs := outputs s; hidden := hidden s |}.

Definition with_eta (v : F) (s : MLP F) : MLP F :=
  {| inputs := inputs s; targets := targets s; nodes_in := nodes_in s;
     nodes_out := nodes_out s; data_amount := data_amount s;
     nodes_hidden := nodes_hidden s; beta := beta s; momentum := momentum s;
     weights_layer1 := weights_layer1 s; weights_layer2 := weights_layer2 s;
     eta := Some v; outtype := outtype s; update_w1 := update_w1 s;
     update_w2 := update_w2 s; outputs := outputs s; hidden := hidden s |}.

Definition with_outtype (v : string) (s : MLP F) : MLP F :=
  {| inputs := inputs s; targets := targets s; nodes_in := nodes_in s;
     nodes_out := nodes_out s; data_amount := data_amount s;
     nodes_hidden := nodes_hidden s; beta := beta s; momentum := momentum s;
     weights_layer1 := weights_layer1 s; weights_layer2 := weights_layer2 s;
     eta := eta s; outtype := Some v; update_w1 := update_w1 s;
     update_w2 := update_w2 s; outputs := outputs s; hidden := hidden s |}.

Definition with_update_w1 (v : matrix) (s : MLP F) : MLP F :=
  {| inputs := inputs s; targets := targets s; nodes_in := nodes_in s;
     nodes_out := nodes_out s; data_amount := data_amount s;
     nodes_hidden := nodes_hidden s; beta := beta s; momentum := momentum s;
     weights_layer1 := weights_layer1 s; weights_layer2 := weights_layer2 s;
     eta := eta s; outtype := outtype s; update_w1 := Some v;
     update_w2 := update_w2 s; outputs := outputs s; hidden := hidden s |}.

Definition with_update_w2 (v : matrix) (s : MLP F) : MLP F :=
  {| inputs := inputs s; targets := targets s; nodes_in := nodes_in s;
     nodes_out := nodes_out s; data_amount := data_amount s;
     nodes_hidden := nodes_hidden s; beta := beta s; momentum := momentum s;
     weights_layer1 := weights_layer1 s; weights_layer2 := weights_layer2 s;
     eta := eta s; outtype := outtype s; update_w1 := update_w1 s;
     update_w2 := Some v; outputs := outputs s; hidden := hidden s |}.

Definition with_outputs (v : matrix) (s : MLP F) : MLP F :=
  {| inputs := inputs s; targets := targets s; nodes_in := nodes_in s;
     nodes_out := nodes_out s; data_amount := data_amount s;
     nodes_hidden := nodes_hidden s; beta := beta s; momentum := momentum s;
     weights_layer1 := weights_layer1 s; weights_layer2 := weights_layer2 s;
     eta := eta s; outtype := outtype s; update_w1 := update_w1 s;
     update_w2 := update_w2 s; outputs := Some v; hidden := hidden s |}.

Definition with_hidden (v : matrix) (s : MLP F) : MLP F :=
  {| inputs := inputs s; targets := targets s; nodes_in := nodes_in s;
     nodes_out := nodes_out s; data_amount := data_amount s;
     nodes_hidden := nodes_hidden s; beta := beta s; momentum := momentum s;
     weights_layer1 := weights_layer1 s; weights_layer2 := weights_layer2 s;
     eta := eta s; outtype := outtype s; update_w1 := update_w1 s;
     update_w2 := update_w2 s; outputs := outputs s; hidden := Some v |}.

(** The object store.  A reference held by a running Python program always
    names a live object, so the default of [load] is never taken in a world
    whose references are in range. *)
Definition load (l : loc) : M ndarray :=
  fun w => (w, Ok (default (Ny.ArrObj []) (heap w !! l))).

Definition store (l : loc) (a : ndarray) : M unit :=
  fun w => ({| heap := <[l := a]> (heap w); stdout := stdout w;
               rng := rng w; self := self w |}, Ok tt).

(** A weight attribute read as the 2-D array [__init__] made it. *)
Definition load_weights (f : MLP F -> loc) : M matrix :=
  l <- attr f ;;
  a <- load l ;;
  match a with
  | Ny.Arr2 m => ret m
  | Ny.ArrObj _ => raise TypeError
  end.

(** The in-place update of a weight attribute ([+=]): the array object the
    attribute refers to receives the new contents, and whoever else holds
    that object sees them. *)
Definition store_weights (f : MLP F -> loc) (m : matrix) : M unit :=
  fun w => store (f (self w)) (Ny.Arr2 m) w.

(** The [print] statement. *)
Definition print (ln : line F) : M unit :=
  fun w => ({| heap := heap w; stdout := stdout w ++ [ln]; rng := rng w;
               self := self w |}, Ok tt).

(** [ny.random.shuffle(l)]: the list is permuted in place. *)
Definition random_shuffle (l : list nat) : M (list nat) :=
  fun w => ({| heap := heap w; stdout := stdout w; rng := S (rng w);
               self := self w |}, Ok (shuffled RS (rng w) l)).

(** Evaluation of a bare name inside a method: the locals of the method,
    then the globals of the module ([ny], [MLP] and the names that the
    demonstration at the end of the file binds). *)
Definition module_globals : list string :=
  ["ny"; "MLP"; "inputs"; "targets"; "my_mlp"; "out"; "target"; "correct"; "i"].

Definition load_name (locals : list string) (name : string) : M unit :=
  if existsb (String.eqb name) (locals ++ module_globals) then ret tt
  else raise (NameError name).

(** [1.0 / ( 1.0 + ny.exp( -beta * X ) )] *)
Definition logistic (b : F) (X : matrix) : matrix :=
  Ny.map_elems (fdiv Ny.fone)
    (Ny.map_elems (fadd Ny.fone)
       (Ny.map_elems fexp (Ny.map_elems (fmul (fneg b)) X))).

(** [a - B] where [a] is any array and [B] a 2-D float array.  A 1-D object
    array broadcasts as one row; subtracting a float from a list is a
    TypeError. *)
Definition sub_nd (a : ndarray) (B : matrix) : result matrix :=
  match a with
  | Ny.Arr2 A => Ny.binop fsub A B
  | Ny.ArrObj rows =>
      if Ny.bcompat (length rows) (Ny.ncols B) then
        match rows with
        | [] => Ok (Ny.mbuild (Ny.nrows B) 0 (fun _ _ => Ny.fzero))
        | _ :: _ => Raise TypeError
        end
      else Raise ValueError
  end.

(** [a[idx, :]] *)
Definition take_rows_nd (a : ndarray) (idx : list nat) : result ndarray :=
  match a with
  | Ny.Arr2 A =>
      match Ny.take_rows A idx with
      | Ok A' => Ok (Ny.Arr2 A')
      | Raise e => Raise e
      end
  | Ny.ArrObj _ => Raise IndexError
  end.

(** ** The methods of [MLP] *)

(** [_init_weights]: two fresh arrays of uniform draws, [weights_layer1] of
    shape (nodes_in + 1, nodes_hidden) and [weights_layer2] of shape
    (nodes_hidden + 1, nodes_out). *)
Definition rand (seed r c : nat) : matrix :=
  Ny.mbuild r c (fun i j => uniform RS (seed + i * c + j)).

(** [MLP.__init__]: the constructor, run on the store, console and random
    state of the caller.  When it raises no object exists. *)
Definition __init__ (inputs0 targets0 : list (list F)) (hidden_nodes : nat)
    (beta0 momentum0 : F)
    (heap0 : list ndarray) (stdout0 : list (line F)) (rng0 : nat)
  : result (World F) :=
  let self_inputs := Ny.array inputs0 in
  let self_targets := Ny.array targets0 in
  match inputs0 with
  | [] => Raise IndexError
  | in0 :: _ =>
  match targets0 with
  | [] => Raise IndexError
  | tg0 :: _ =>
  let n_in := length in0 in
  let n_out := length tg0 in
  let amount := length inputs0 in
  let ones := Ny.neg_ones amount 1 in
  match
    match self_inputs with
    | Ny.Arr2 m => Ny.concatenate1 m ones
    | Ny.ArrObj _ => Raise ValueError
    end
  with
  | Raise e => Raise e
  | Ok self_inputs' =>
      let w1 := rand rng0 (n_in + 1) hidden_nodes in
      let rng1 := rng0 + (n_in + 1) * hidden_nodes in
      let w2 := rand rng1 (hidden_nodes + 1) n_out in
      let rng2 := rng1 + (hidden_nodes + 1) * n_out in
      Ok {| heap := heap0 ++ [Ny.Arr2 w1; Ny.Arr2 w2];
            stdout := stdout0;
            rng := rng2;
            self := {| inputs := self_inputs'; targets := self_targets;
                       nodes_in := n_in; nodes_out := n_out;
                       data_amount := amount; nodes_hidden := hidden_nodes;
                       beta := beta0; momentum := momentum0;
                       weights_layer1 := length heap0;
                       weights_layer2 := S (length heap0);
                       eta := None; outtype := None;
                       update_w1 := None; update_w2 := None;
                       outputs := None; hidden := None |} |}
  end end end.

(** The local names of [_forward]. *)
Definition forward_locals : list string :=
  ["self"; "inputs"; "ones"; "outputs"; "normalisers"].

(** The selection of the output activation at the end of [_forward] (the
    [if]/[elif]/[else] on [self.outtype]), applied to the pre-activation of the
    output layer.  The [else] branch formats its message with the bare name
    [outtype]: [_forward] has no such local (the attribute is [self.outtype],
    the parameter of that name belongs to [train]) and the module no such
    global, so evaluating the operand of [%] raises NameError before
    anything is printed or returned. *)
Definition output_activation (ot : string) (outputs0 : matrix) : M matrix :=
  if String.eqb ot "linear" then
    ret outputs0
  else if String.eqb ot "logistic" then
    b <- attr beta ;;
    ret (logistic b outputs0)
  else if String.eqb ot "softmax" then
    normalisers <- lift (Ny.binop fmul
                           (Ny.as_row (Ny.sum_axis1 (Ny.map_elems fexp outputs0)))
                           (Ny.ones 1 (Ny.nrows outputs0))) ;;
    q <- lift (Ny.binop fdiv (Ny.transpose (Ny.map_elems fexp outputs0))
                 normalisers) ;;
    ret (Ny.transpose q)
  else
    (* print "ERROR: Unknown outtype = %s" % outtype *)
    load_name forward_locals "outtype" ;;
    print (UnknownOuttypeLine ot) ;;
    ret outputs0.

(** [MLP._forward] *)
Definition _forward (inputs0 : matrix) : M matrix :=
  let ones := Ny.neg_ones (Ny.nrows inputs0) 1 in
  (* Activation in hidden layer *)
  w1 <- load_weights weights_layer1 ;;
  h <- lift (Ny.dot inputs0 w1) ;;
  set_self (with_hidden h) ;;
  b <- attr beta ;;
  h <- getattr "hidden" hidden ;;
  set_self (with_hidden (logistic b h)) ;;
  h <- getattr "hidden" hidden ;;
  h <- lift (Ny.concatenate1 h ones) ;;
  set_self (with_hidden h) ;;
  (* Activation in output layer *)
  h <- getattr "hidden" hidden ;;
  w2 <- load_weights weights_layer2 ;;
  outputs0 <- lift (Ny.dot h w2) ;;
  ot <- getattr "outtype" outtype ;;
  output_activation ot outputs0.

(** [MLP._compute_errors] *)
Definition _compute_errors : M (matrix * matrix) :=
  (* Error in output layer *)
  tg <- attr targets ;;
  out <- getattr "outputs" outputs ;;
  deltao <- lift (sub_nd tg out) ;;
  ot <- getattr "outtype" outtype ;;
  deltao <-
    (if String.eqb ot "linear" then
       n <- attr data_amount ;;
       ret (Ny.map_elems (fun x => fdiv x (Ny.of_nat n)) deltao)
     else if String.eqb ot "logistic" then
       out <- getattr "outputs" outputs ;;
       out' <- getattr "outputs" outputs ;;
       d <- lift (Ny.binop fmul out (Ny.map_elems (fsub Ny.fone) out')) ;;
       lift (Ny.iop fmul deltao d)
     else if String.eqb ot "softmax" then
       n <- attr data_amount ;;
       ret (Ny.map_elems (fun x => fdiv x (Ny.of_nat n)) deltao)
     else ret deltao) ;;
  (* Error in hidden layer *)
  h <- getattr "hidden" hidden ;;
  h' <- getattr "hidden" hidden ;;
  deltah <- lift (Ny.binop fmul h (Ny.map_elems (fsub Ny.fone) h')) ;;
  w2 <- load_weights weights_layer2 ;;
  p <- lift (Ny.dot deltao (Ny.transpose w2)) ;;
  deltah <- lift (Ny.iop fmul deltah p) ;;
  ret (deltao, deltah).

(** [MLP._update_weights] *)
Definition _update_weights (deltao deltah : matrix) : M unit :=
  inp <- attr inputs ;;
  let inputs_tr := Ny.transpose inp in
  h <- getattr "hidden" hidden ;;
  let hidden_tr := Ny.transpose h in
  m <- attr momentum ;;
  u1 <- getattr "update_w1" update_w1 ;;
  set_self (with_update_w1 (Ny.map_elems (fmul m) u1)) ;;
  u1 <- getattr "update_w1" update_w1 ;;
  e <- getattr "eta" eta ;;
  g1 <- lift (Ny.dot inputs_tr (Ny.drop_last_col deltah)) ;;
  u1 <- lift (Ny.iop fadd u1 (Ny.map_elems (fmul e) g1)) ;;
  set_self (with_update_w1 u1) ;;
  m <- attr momentum ;;
  u2 <- getattr "update_w2" update_w2 ;;
  set_self (with_update_w2 (Ny.map_elems (fmul m) u2)) ;;
  u2 <- getattr "update_w2" update_w2 ;;
  e <- getattr "eta" eta ;;
  g2 <- lift (Ny.dot hidden_tr deltao) ;;
  u2 <- lift (Ny.iop fadd u2 (Ny.map_elems (fmul e) g2)) ;;
  set_self (with_update_w2 u2) ;;
  w1 <- load_weights weights_layer1 ;;
  u1 <- getattr "update_w1" update_w1 ;;
  w1 <- lift (Ny.iop fadd w1 u1) ;;
  store_weights weights_layer1 w1 ;;
  w2 <- load_weights weights_layer2 ;;
  u2 <- getattr "update_w2" update_w2 ;;
  w2 <- lift (Ny.iop fadd w2 u2) ;;
  store_weights weights_layer2 w2.

(** One forward/backward/update pass over the stored dataset: the first
    three statements of the body of the loop of [train]. *)
Definition train_pass : M unit :=
  inp <- attr inputs ;;
  out <- _forward inp ;;
  set_self (with_outputs out) ;;
  (* Compute error and update weights *)
  d <- _compute_errors ;;
  _update_weights (fst d) (snd d).

(** The rest of the body: randomise the order of the training data.  The
    list [shuffle] is a local of [train] that every iteration permutes
    again. *)
Definition reshuffle (shuffle : list nat) : M (list nat) :=
  shuffle <- random_shuffle shuffle ;;
  inp <- attr inputs ;;
  inp <- lift (Ny.take_rows inp shuffle) ;;
  set_self (with_inputs inp) ;;
  tg <- attr targets ;;
  tg <- lift (take_rows_nd tg shuffle) ;;
  set_self (with_targets tg) ;;
  ret shuffle.

Definition train_iteration (shuffle : list nat) : M (list nat) :=
  train_pass ;; reshuffle shuffle.

Fixpoint train_loop (n : nat) (shuffle : list nat) : M unit :=
  match n with
  | O => ret tt
  | S n' => shuffle <- train_iteration shuffle ;; train_loop n' shuffle
  end.

(** The statements of [train] before its loop. *)
Definition train_entry (eta0 : F) (outtype0 : string) : M (list nat) :=
  set_self (with_eta eta0) ;;
  set_self (with_outtype outtype0) ;;
  n <- attr data_amount ;;
  let shuffle := seq 0 n in
  (* Init arrays for weight updates *)
  w1 <- load_weights weights_layer1 ;;
  set_self (with_update_w1 (Ny.zeros (Ny.nrows w1) (Ny.ncols w1))) ;;
  w2 <- load_weights weights_layer2 ;;
  set_self (with_update_w2 (Ny.zeros (Ny.nrows w2) (Ny.ncols w2))) ;;
  ret shuffle.

(** [MLP.train]; [range(iterations)] is empty for a negative count.  The
    method has no [return] statement. *)
Definition train (eta0 : F) (iterations : Z) (outtype0 : string)
  : M (pyval F) :=
  shuffle <- train_entry eta0 outtype0 ;;
  (* Start training *)
  train_loop (Z.to_nat iterations) shuffle ;;
  ret PyNone.

(** The local variables of the loop of [early_stopping]. *)
Record es_vars : Type := {
  old_val_err1 : F;
  old_val_err2 : F;
  new_val_err : F;
  count : nat
}.

Definition es_init : es_vars :=
  {| old_val_err1 := flit 100002; old_val_err2 := flit 100001;
     new_val_err := flit 100000; count := 0 |}.

(** The condition of the [while]. *)
Definition es_continue (v : es_vars) : bool :=
  fgtb (fsub (old_val_err1 v) (new_val_err v)) (flit (1 # 1000))
  || fgtb (fsub (old_val_err2 v) (old_val_err1 v)) (flit (1 # 1000)).

(** The body of the [while]: one round. *)
Definition es_round (valid : matrix) (validtargets : loc)
    (eta0 : F) (iterations : Z) (outtype0 : string) (v : es_vars)
  : M es_vars :=
  let count' := S (count v) in
  (if count' mod 10 =? 0 then print (ProgressLine count' (new_val_err v))
   else ret tt) ;;
  train eta0 iterations outtype0 ;;
  let old2 := old_val_err1 v in
  let old1 := new_val_err v in
  validout <- _forward valid ;;
  vt <- load validtargets ;;
  d <- lift (sub_nd vt validout) ;;
  ret {| old_val_err1 := old1; old_val_err2 := old2;
         new_val_err :=
           fmul (flit (1 # 2))
             (Ny.sum_all (Ny.map_elems (fun x => fmul x x) d));
         count := count' |}.

(** The [while] loop, run for at most [fuel] rounds; [None] when the loop is
    still running after that many. *)
Fixpoint es_loop (fuel : nat) (valid : matrix) (validtargets : loc)
    (eta0 : F) (iterations : Z) (outtype0 : string) (v : es_vars)
  : M (option es_vars) :=
  match fuel with
  | O => ret None
  | S fuel' =>
      if es_continue v then
        v' <- es_round valid validtargets eta0 iterations outtype0 v ;;
        es_loop fuel' valid validtargets eta0 iterations outtype0 v'
      else ret (Some v)
  end.

(** [MLP.early_stopping].  The caller passes its two arrays by reference.
    The method has no [return] statement: it prints the final count and
    error. *)
Definition early_stopping (fuel : nat) (valid validtargets : loc)
    (eta0 : F) (iterations : Z) (outtype0 : string)
  : M (option (pyval F)) :=
  (* Add bias node *)
  a <- load valid ;;
  valid <- lift (match a with
                 | Ny.Arr2 v => Ny.concatenate1 v (Ny.neg_ones (Ny.len a) 1)
                 | Ny.ArrObj _ => Raise ValueError
                 end) ;;
  r <- es_loop fuel valid validtargets eta0 iterations outtype0 es_init ;;
  match r with
  | None => ret None
  | Some v =>
      print (EndLine (count v) (new_val_err v)) ;;
      ret (Some PyNone)
  end.

(** [MLP.use] *)
Definition use (inputs0 : list F) : M matrix :=
  match Ny.array [inputs0] with
  | Ny.ArrObj _ => raise ValueError
  | Ny.Arr2 inp =>
      (* Add bias node *)
      let ones := Ny.neg_ones 1 1 in
      inp <- lift (Ny.concatenate1 inp ones) ;;
      (* Activation in hidden layer *)
      w1 <- load_weights weights_layer1 ;;
      h <- lift (Ny.dot inp w1) ;;
      b <- attr beta ;;
      let h := logistic b h in
      h <- lift (Ny.concatenate1 h ones) ;;
      (* Activation in output layer *)
      w2 <- load_weights weights_layer2 ;;
      out <- lift (Ny.dot h w2) ;;
      b <- attr beta ;;
      ret (logistic b out)
  end.

End Methods.

(** ** Invariants of a network and devices of the statements *)

Section Invariants.
Context {F : Type} `{Scalar F}.
Variable RS : RandomSource F.

Abbreviation matrix := (Ny.matrix (F:=F)).

Definition shape (A : matrix) : nat * nat := (Ny.nrows A, Ny.ncols A).

(** The row [i] of an array as numpy reads it. *)
Definition row (A : matrix) (i : nat) : list F :=
  map (fun j => Ny.mget A i j) (seq 0 (Ny.ncols A)).

(** A raw input vector with the bias feature appended, as a one-row array. *)
Definition augmented (x : list F) : matrix :=
  Ny.Mat 1 (length x + 1) [(x ++ [fneg Ny.fone])%list].

(** The weight attributes refer to two distinct 2-D arrays of the store. *)
Definition weights_at (w : World F) (W1 W2 : matrix) : Prop :=
  heap w !! weights_layer1 (self w) = Some (Ny.Arr2 W1) /\
  heap w !! weights_layer2 (self w) = Some (Ny.Arr2 W2) /\
  weights_layer1 (self w) <> weights_layer2 (self w).

(** What [__init__] establishes: layer 1 takes the bias-augmented inputs,
    layer 2 the bias-augmented hidden activations. *)
Definition network_ok (w : World F) : Prop :=
  exists W1 W2,
    weights_at w W1 W2 /\
    Ny.nrows W1 = Ny.ncols (inputs (self w)) /\
    Ny.nrows W2 = S (Ny.ncols W1).

(** What [train] establishes on entry and every pass keeps: the momentum
    accumulators have the shapes of the weight matrices. *)
Definition accumulators_mirror (w : World F) : Prop :=
  exists W1 W2 U1 U2,
    weights_at w W1 W2 /\
    update_w1 (self w) = Some U1 /\
    update_w2 (self w) = Some U2 /\
    shape U1 = shape W1 /\
    shape U2 = shape W2.

(** The three values of [outtype] that [_forward] knows. *)
Definition recognized (ot : string) : Prop :=
  ot = "linear" \/ ot = "logistic" \/ ot = "softmax".

(** The gradient term of a layer: transpose(layer inputs) . delta, entry by
    entry. *)
Definition gradient (X D : matrix) (i j : nat) : F :=
  Ny.fsum (map (fun k => fmul (Ny.mget X k i) (Ny.mget D k j))
             (seq 0 (Ny.nrows X))).

(** Exactly [n] rounds of the loop of [early_stopping], whatever the loop
    condition says. *)
Fixpoint es_rounds (n : nat) (valid : matrix) (validtargets : loc)
    (eta0 : F) (iterations : Z) (outtype0 : string) (v : es_vars)
  : M (es_vars) :=
  match n with
  | O => ret v
  | S n' =>
      bind (es_round RS valid validtargets eta0 iterations outtype0 v)
        (fun v' => es_rounds n' valid validtargets eta0 iterations outtype0 v')
  end.

(** A computation keeps a relation between the world before and after. *)
Definition preserves {A} (R : World F -> World F -> Prop) (c : M A) : Prop :=
  forall w, R w (fst (c w)).

(** Nothing of the object store changes. *)
Definition same_heap (w w' : World F) : Prop := heap w' = heap w.

(** The object store, the accumulators and the weight attributes are as
    they were. *)
Definition same_core (w w' : World F) : Prop :=
  heap w' = heap w /\
  update_w1 (self w') = update_w1 (self w) /\
  update_w2 (self w') = update_w2 (self w) /\
  weights_layer1 (self w') = weights_layer1 (self w) /\
  weights_layer2 (self w') = weights_layer2 (self w).

(** The stored dataset is not touched. *)
Definition same_data (w w' : World F) : Prop :=
  inputs (self w') = inputs (self w) /\ targets (self w') = targets (self w).

(** The weight attributes keep naming the same two objects, and no other
    object of the store changes. *)
Definition frame (w w' : World F) : Prop :=
  weights_layer1 (self w') = weights_layer1 (self w) /\
  weights_layer2 (self w') = weights_layer2 (self w) /\
  forall l, l <> weights_layer1 (self w) -> l <> weights_layer2 (self w) ->
            heap w' !! l = heap w !! l.

End Invariants.

(** ** Further invariants and devices *)

Section Devices.
Context {F : Type} `{Scalar F}.

Abbreviation matrix := (Ny.matrix (F:=F)).

(** The logistic function as the code writes it. *)
Definition sigmoid (b x : F) : F :=
  fdiv Ny.fone (fadd Ny.fone (fexp (fmul (fneg b) x))).

(** The product of row [i] of [A] with column [j] of [B]. *)
Definition inner (A B : matrix) (i j : nat) : F :=
  Ny.fsum (map (fun k => fmul (Ny.mget A i k) (Ny.mget B k j))
             (seq 0 (Ny.ncols A))).

(** The rows [idx] of an array, in that order. *)
Definition rows_of (A : matrix) (idx : list nat) : matrix :=
  Ny.mbuild (length idx) (Ny.ncols A) (fun i j => Ny.mget A (nth i idx 0) j).

(** A network together with a dataset it can be trained on: the weights fit
    the bias-augmented inputs and each other, the targets are a 2-D array
    with a row for every input row and a column for every output, and
    [data_amount] is the number of rows. *)
Definition trainable (w : World F) : Prop :=
  exists W1 W2 T,
    weights_at w W1 W2 /\
    Ny.nrows W1 = Ny.ncols (inputs (self w)) /\
    Ny.nrows W2 = S (Ny.ncols W1) /\
    targets (self w) = Ny.Arr2 T /\
    shape T = (Ny.nrows (inputs (self w)), Ny.ncols W2) /\
    data_amount (self w) = Ny.nrows (inputs (self w)).

(** The state of a trainable network inside the loop of [train]. *)
Definition in_training (ot : string) (w : World F) : Prop :=
  exists W1 W2 T U1 U2 e,
    weights_at w W1 W2 /\
    Ny.nrows W1 = Ny.ncols (inputs (self w)) /\
    Ny.nrows W2 = S (Ny.ncols W1) /\
    targets (self w) = Ny.Arr2 T /\
    shape T = (Ny.nrows (inputs (self w)), Ny.ncols W2) /\
    outtype (self w) = Some ot /\
    eta (self w) = Some e /\
    update_w1 (self w) = Some U1 /\
    update_w2 (self w) = Some U2 /\
    shape U1 = shape W1 /\
    shape U2 = shape W2 /\
    data_amount (self w) = Ny.nrows (inputs (self w)).

(** The shapes of the two weight arrays. *)
Definition weight_shapes (w : World F) : option ((nat * nat) * (nat * nat)) :=
  match heap w !! weights_layer1 (self w), heap w !! weights_layer2 (self w) with
  | Some (Ny.Arr2 W1), Some (Ny.Arr2 W2) => Some (shape W1, shape W2)
  | _, _ => None
  end.

(** The dataset of [w'] is the dataset of [w] with its rows reordered, inputs
    and targets alike. *)
Definition reordered (w w' : World F) : Prop :=
  exists T T' idx,
    targets (self w) = Ny.Arr2 T /\
    targets (self w') = Ny.Arr2 T' /\
    idx ≡ₚ seq 0 (Ny.nrows (inputs (self w))) /\
    Ny.nrows (inputs (self w')) = Ny.nrows (inputs (self w)) /\
    Ny.nrows T' = Ny.nrows (inputs (self w)) /\
    forall j, j < Ny.nrows (inputs (self w)) ->
      row (inputs (self w')) j = row (inputs (self w)) (nth j idx 0) /\
      row T' j = row T (nth j idx 0).

(** Everything but the attribute [hidden] is as it was. *)
Definition hidden_only (w w' : World F) : Prop :=
  heap w' = heap w /\ stdout w' = stdout w /\ rng w' = rng w /\
  inputs (self w') = inputs (self w) /\
  targets (self w') = targets (self w) /\
  nodes_in (self w') = nodes_in (self w) /\
  nodes_out (self w') = nodes_out (self w) /\
  data_amount (self w') = data_amount (self w) /\
  nodes_hidden (self w') = nodes_hidden (self w) /\
  beta (self w') = beta (self w) /\
  momentum (self w') = momentum (self w) /\
  weights_layer1 (self w') = weights_layer1 (self w) /\
  weights_layer2 (self w') = weights_layer2 (self w) /\
  eta (self w') = eta (self w) /\
  outtype (self w') = outtype (self w) /\
  update_w1 (self w') = update_w1 (self w) /\
  update_w2 (self w') = update_w2 (self w) /\
  outputs (self w') = outputs (self w).

(** Nothing was printed. *)
Definition same_stdout (w w' : World F) : Prop := stdout w' = stdout w.

(** What a console line is about. *)
Definition line_count (ln : line F) : nat :=
  match ln with
  | ProgressLine c _ => c
  | EndLine c _ => c
  | UnknownOuttypeLine _ => 0
  end.

Definition is_progress (ln : line F) : bool :=
  match ln with
  | ProgressLine _ _ => true
  | _ => false
  end.

End Devices.

(** ** An executable instance

    Exact rational arithmetic in canonical form, with a rational stand-in for
    the exponential, and a deterministic random source.  It is used to run
    the methods on concrete networks; no theorem below depends on it. *)
Module Exact.

Definition qexp (x : Qc) : Qc :=
  if Qle_bool 0 x then (1 + x + x * x / Q2Qc 2)%Qc
  else (1 / (1 - x + x * x / Q2Qc 2))%Qc.

#[export] Instance scalar : Scalar Qc := {
  flit := Q2Qc;
  fadd := Qcplus;
  fsub := Qcminus;
  fmul := Qcmult;
  fdiv := Qcdiv;
  fneg := Qcopp;
  fexp := qexp;
  fgtb := fun x y => negb (Qle_bool x y)
}.

(** Draws 1/10, 2/10, ..., 9/10 in turn; every shuffle reverses the list. *)
Definition source : RandomSource Qc :=
  {| uniform := fun k => Q2Qc (Z.of_nat (S (k mod 9)) # 10);
     shuffled := fun _ l => rev l;
     shuffled_perm := fun _ l => Permutation_sym (Permutation_rev l) |}.

(** Integer literals of the examples. *)
Definition q (z : Z) : Qc := Q2Qc (inject_Z z).

(** The dataset of the demonstration: logical XOR. *)
Definition xor_inputs : list (list Qc) :=
  [[q 0; q 0]; [q 0; q 1]; [q 1; q 0]; [q 1; q 1]].
Definition xor_targets : list (list Qc) := [[q 0]; [q 1]; [q 1]; [q 0]].



(** The world a successful construction leaves. *)
Definition blank : World Qc :=
  {| heap := []; stdout := []; rng := 0;
     self := {| inputs := Ny.Mat 0 0 []; targets := Ny.ArrObj [];
                nodes_in := 0; nodes_out := 0; data_amount := 0;
                nodes_hidden := 0; beta := q 1; momentum := q 0;
                weights_layer1 := 0; weights_layer2 := 0;
                eta := None; outtype := None; update_w1 := None;
                update_w2 := None; outputs := None; hidden := None |} |}.

Definition built (r : result (World Qc)) : World Qc :=
  match r with
  | Ok w => w
  | Raise _ => blank
  end.

(** The network of the demonstration: two hidden nodes, beta 1, momentum
    0.9, built in an empty store. *)
Definition xor_net : World Qc :=
  built (__init__ source xor_inputs xor_targets 2 (q 1) (Q2Qc (9 # 10)) [] [] 0).

(** A network with one input, no hidden node and one output, trained on the
    single pair 1 -> 2.  The caller holds two arrays of its own, at
    locations 0 and 1 of the store: validation inputs and targets. *)
Definition caller_heap : list (Ny.ndarray (F:=Qc)) :=
  [Ny.array [[q 1]]; Ny.array [[q 2]]].

Definition tiny_net : World Qc :=
  built (__init__ source [[q 1]] [[q 2]] 0 (q 1) (Q2Qc (9 # 10)) caller_heap [] 0).

(** The XOR network inside [train], before its first pass, and after the
    forward and backward computations of that pass. *)
Definition xor_entered (ot : string) : World Qc :=
  fst (train_entry (Q2Qc (1 # 5)) ot xor_net).

Definition xor_forwarded (ot : string) : World Qc :=
  fst (bind (attr inputs)
         (fun inp => bind (_forward inp)
            (fun out => set_self (with_outputs out))) (xor_entered ot)).

Definition xor_deltas (ot : string)
  : Ny.matrix (F:=Qc) * Ny.matrix (F:=Qc) :=
  match snd (_compute_errors (xor_forwarded ot)) with
  | Ok d => d
  | Raise _ => (Ny.zeros 0 0, Ny.zeros 0 0)
  end.

(** An optional array attribute that is known to be set, and the array a
    location holds. *)
Definition the (o : option (Ny.matrix (F:=Qc))) : Ny.matrix (F:=Qc) :=
  match o with
  | Some m => m
  | None => Ny.zeros 0 0
  end.

Definition at_loc (w : World Qc) (l : loc) : Ny.matrix (F:=Qc) :=
  match heap w !! l with
  | Some (Ny.Arr2 m) => m
  | _ => Ny.zeros 0 0
  end.

End Exact.
(** ** Further concrete networks *)
Module Cases.
Import Exact.

(** The array an array object holds, when it is two-dimensional. *)
Definition arr (a : Ny.ndarray (F:=Qc)) : Ny.matrix (F:=Qc) :=
  match a with
  | Ny.Arr2 m => m
  | Ny.ArrObj _ => Ny.zeros 0 0
  end.

(** The XOR inputs against a single target row. *)
Definition lone_target_net : World Qc :=
  built (__init__ source xor_inputs [[q 1]] 2 (q 1) (Q2Qc (9 # 10)) [] [] 0).

(** The one-weight network of [tiny_net], whose caller holds validation
    inputs of two features at location 0. *)
Definition wide_heap : list (Ny.ndarray (F:=Qc)) :=
  [Ny.array [[q 1; q 2]]; Ny.array [[q 2]]].

Definition wide_net : World Qc :=
  built (__init__ source [[q 1]] [[q 2]] 0 (q 1) (Q2Qc (9 # 10)) wide_heap [] 0).

(** A run of [early_stopping] on [tiny_net] with learning rate 1/10. *)
Definition slow_run : World Qc * result (option (pyval Qc)) :=
  early_stopping source 40 0 1 (Q2Qc (1 # 10)) 1 "linear" tiny_net.

(** The XOR network after the Forward Pass of a "linear" training run, its
    activation name then set to "foo" by hand. *)
Definition xor_renamed : World Qc :=
  upd_self (with_outtype "foo") (xor_forwarded "linear").

(** The XOR inputs against two target rows. *)
Definition short_target_net : World Qc :=
  built (__init__ source xor_inputs [[q 0]; [q 1]] 2 (q 1) (Q2Qc (9 # 10))
           [] [] 0).

(** The XOR network after a first "logistic" training call of one
    iteration. *)
Definition trained_once : World Qc :=
  fst (train source (Q2Qc (1 # 5)) 1 "logistic" xor_net).

End Cases.

(** * Facts about the arrays *)

Section NyFacts.
Context {F : Type} `{Scalar F}.

Abbreviation matrix := (Ny.matrix (F:=F)).

Lemma mget_mbuild (r c : nat) (f : nat -> nat -> F) (i j : nat) :
  i < r -> j < c -> Ny.mget (Ny.mbuild r c f) i j = f i j.
Proof.
  intros Hi Hj. unfold Ny.mget, Ny.mbuild. cbn [Ny.cells].
  rewrite (nth_indep _ [] (map (fun j0 => f 0 j0) (seq 0 c)))
    by (rewrite length_map, length_seq; exact Hi).
  rewrite (map_nth (fun i0 => map (fun j0 => f i0 j0) (seq 0 c)) (seq 0 r) 0 i).
  rewrite seq_nth by exact Hi. cbn [Nat.add].
  rewrite (nth_indep _ Ny.fzero (f i 0))
    by (rewrite length_map, length_seq; exact Hj).
  rewrite (map_nth (fun j0 => f i j0) (seq 0 c) 0 j).
  rewrite seq_nth by exact Hj. reflexivity.
Qed.

Lemma mbuild_ext (r c : nat) (f g : nat -> nat -> F) :
  (forall i j, i < r -> j < c -> f i j = g i j) ->
  Ny.mbuild r c f = Ny.mbuild r c g.
Proof.
  intros Hfg. unfold Ny.mbuild. f_equal.
  apply map_ext_in. intros i Hi. apply in_seq in Hi.
  apply map_ext_in. intros j Hj. apply in_seq in Hj.
  apply Hfg; lia.
Qed.

Lemma bget_inrange (A : matrix) (i j : nat) :
  i < Ny.nrows A -> j < Ny.ncols A -> Ny.bget A i j = Ny.mget A i j.
Proof.
  intros Hi Hj. unfold Ny.bget.
  destruct (Ny.nrows A =? 1) eqn:Er; destruct (Ny.ncols A =? 1) eqn:Ec;
    try apply Nat.eqb_eq in Er; try apply Nat.eqb_eq in Ec;
    f_equal; lia.
Qed.

Lemma bcompat_refl (a : nat) : Ny.bcompat a a = true.
Proof. unfold Ny.bcompat. now rewrite Nat.eqb_refl. Qed.

Lemma bdim_refl (a : nat) : Ny.bdim a a = a.
Proof. unfold Ny.bdim. now destruct (a =? 1). Qed.

(** An in-place operation between arrays of one shape. *)
Lemma iop_same_shape (op : F -> F -> F) (A B : matrix) :
  shape B = shape A ->
  Ny.iop op A B =
    Ok (Ny.mbuild (Ny.nrows A) (Ny.ncols A)
          (fun i j => op (Ny.mget A i j) (Ny.mget B i j))).
Proof.
  unfold shape. intros [= Hr Hc]. unfold Ny.iop. rewrite Hr, Hc.
  rewrite !bcompat_refl, !bdim_refl, !Nat.eqb_refl. cbn [andb].
  f_equal. apply mbuild_ext. intros i j Hi Hj.
  rewrite bget_inrange by lia. reflexivity.
Qed.

(** An in-place operation keeps the shape of its left operand. *)
Lemma iop_shape (op : F -> F -> F) (A B C : matrix) :
  Ny.iop op A B = Ok C -> shape C = shape A.
Proof.
  unfold Ny.iop. destruct (_ && _); [| discriminate].
  intros [= <-]. reflexivity.
Qed.

Lemma binop_same_shape (op : F -> F -> F) (A B : matrix) :
  shape B = shape A ->
  Ny.binop op A B =
    Ok (Ny.mbuild (Ny.nrows A) (Ny.ncols A)
          (fun i j => op (Ny.mget A i j) (Ny.mget B i j))).
Proof.
  unfold shape. intros [= Hr Hc]. unfold Ny.binop. rewrite Hr, Hc.
  rewrite !bcompat_refl, !bdim_refl. cbn [andb].
  f_equal. apply mbuild_ext. intros i j Hi Hj.
  rewrite !bget_inrange by lia. reflexivity.
Qed.

Lemma dot_inner (A B : matrix) :
  Ny.ncols A = Ny.nrows B ->
  Ny.dot A B =
    Ok (Ny.mbuild (Ny.nrows A) (Ny.ncols B)
          (fun i j => Ny.fsum (map (fun k => fmul (Ny.mget A i k) (Ny.mget B k j))
                                 (seq 0 (Ny.ncols A))))).
Proof. intros E. unfold Ny.dot. rewrite E, Nat.eqb_refl. reflexivity. Qed.

Lemma dot_shape (A B C : matrix) :
  Ny.dot A B = Ok C -> shape C = (Ny.nrows A, Ny.ncols B).
Proof.
  unfold Ny.dot. destruct (_ =? _); [| discriminate]. intros [= <-]. reflexivity.
Qed.

Lemma concatenate1_rows (A B : matrix) :
  Ny.nrows A = Ny.nrows B ->
  Ny.concatenate1 A B =
    Ok (Ny.mbuild (Ny.nrows A) (Ny.ncols A + Ny.ncols B)
          (fun i j => if j <? Ny.ncols A then Ny.mget A i j
                      else Ny.mget B i (j - Ny.ncols A))).
Proof. intros E. unfold Ny.concatenate1. rewrite E, Nat.eqb_refl. reflexivity. Qed.

(** [ny.array] of rows of one width is the 2-D array of these rows. *)
Lemma array_rectangular (r0 : list F) (rows : list (list F)) :
  Ny.rectangular (r0 :: rows) = true ->
  Ny.array (r0 :: rows) =
    Ny.Arr2 (Ny.Mat (length (r0 :: rows)) (length r0) (r0 :: rows)).
Proof. intros E. unfold Ny.array. rewrite E. reflexivity. Qed.

Lemma array_ragged (r0 : list F) (rows : list (list F)) :
  Ny.rectangular (r0 :: rows) = false ->
  Ny.array (r0 :: rows) = Ny.ArrObj (r0 :: rows).
Proof. intros E. unfold Ny.array. rewrite E. reflexivity. Qed.

(** A row of another width makes the list of rows ragged. *)
Lemma rectangular_false (rows : list (list F)) (r : list F) :
  r ∈ rows -> length r <> length (hd [] rows) -> Ny.rectangular rows = false.
Proof.
  intros Hin Hlen. destruct rows as [| r0 rest].
  - reflexivity.
  - cbn [hd] in Hlen. unfold Ny.rectangular.
    apply not_true_is_false. intros Hall.
    rewrite forallb_forall in Hall.
    apply list_elem_of_In in Hin. apply Hall in Hin.
    apply Nat.eqb_eq in Hin. contradiction.
Qed.

Lemma map_nth_seq (x : list F) (d : F) :
  map (fun j => nth j x d) (seq 0 (length x)) = x.
Proof.
  induction x as [| a x IH]; [reflexivity |].
  cbn [length seq map nth]. f_equal.
  rewrite <- seq_shift, map_map. exact IH.
Qed.

(** Appending the bias column to a single raw row. *)
Lemma concatenate1_bias (x : list F) :
  Ny.concatenate1 (Ny.Mat 1 (length x) [x]) (Ny.neg_ones 1 1)
  = Ok (Ny.Mat 1 (length x + 1) [(x ++ [fneg Ny.fone])%list]).
Proof.
  rewrite concatenate1_rows by reflexivity.
  unfold Ny.mbuild. cbn [Ny.nrows Ny.ncols Ny.neg_ones Ny.mbuild seq map].
  do 3 f_equal. rewrite seq_app, map_app. cbn [seq map Nat.add].
  f_equal.
  - etransitivity; [| apply (map_nth_seq x Ny.fzero)].
    apply map_ext_in. intros j Hj. apply in_seq in Hj.
    destruct (j <? length x) eqn:E; [reflexivity |].
    apply Nat.ltb_ge in E. lia.
  - rewrite Nat.ltb_irrefl, Nat.sub_diag. reflexivity.
Qed.

End NyFacts.

(** * Facts about the methods *)

Section MethodFacts.
Context {F : Type} `{Scalar F}.
Variable RS : RandomSource F.

Abbreviation matrix := (Ny.matrix (F:=F)).

Arguments Ny.mbuild : simpl never.
Arguments Ny.dot : simpl never.
Arguments Ny.iop : simpl never.
Arguments Ny.binop : simpl never.
Arguments Ny.concatenate1 : simpl never.
Arguments Ny.map_elems : simpl never.
Arguments Ny.transpose : simpl never.
Arguments Ny.neg_ones : simpl never.
Arguments Ny.zeros : simpl never.
Arguments Ny.ones : simpl never.
Arguments Ny.drop_last_col : simpl never.
Arguments Ny.take_rows : simpl never.
Arguments Ny.sum_all : simpl never.
Arguments Ny.sum_axis1 : simpl never.
Arguments Ny.as_row : simpl never.
Arguments logistic : simpl never.
Arguments output_activation : simpl never.
Arguments String.eqb : simpl never.

Ltac munfold :=
  unfold bind, ret, raise, lift, attr, getattr, set_self, load_weights, load,
    store_weights, store, print, random_shuffle.

(** Shapes of arrays built by the primitives. *)
Ltac shapes :=
  unfold shape, logistic, Ny.map_elems, Ny.neg_ones, Ny.zeros, Ny.ones,
    Ny.transpose, Ny.drop_last_col, Ny.as_row, Ny.mbuild;
  cbn [Ny.ncols Ny.nrows fst snd].

(** The hidden layer of [_forward] on a well-shaped network: the recorded
    hidden activations and the pre-activation of the output layer. *)
Lemma forward_run (X : matrix) (w : World F) (W1 W2 : matrix) :
  weights_at w W1 W2 ->
  Ny.ncols X = Ny.nrows W1 ->
  Ny.nrows W2 = S (Ny.ncols W1) ->
  exists Hd out0,
    shape Hd = (Ny.nrows X, S (Ny.ncols W1)) /\
    shape out0 = (Ny.nrows X, Ny.ncols W2) /\
    _forward X w =
      bind (getattr "outtype" outtype) (fun ot => output_activation ot out0)
        (upd_self (with_hidden Hd) w).
Proof.
  intros (H1 & H2 & Hne) HX HW.
  unfold _forward. munfold. cbn.
  rewrite H1. cbn. rewrite (dot_inner X W1 HX).
  rewrite concatenate1_rows by reflexivity. cbn.
  rewrite H2. cbn. rewrite dot_inner by (shapes; lia).
  eexists _, _. split; [| split; [| reflexivity]].
  - shapes. f_equal. lia.
  - reflexivity.
Qed.

(** Comparison of string literals. *)
Ltac eqb_lits :=
  repeat match goal with
         | |- context [String.eqb ?a ?b] =>
             let v := eval vm_compute in (String.eqb a b) in
             match v with
             | true => change (String.eqb a b) with true
             | false => change (String.eqb a b) with false
             end
         end.

(** An unknown [outtype] reaches the [else] branch, where the name
    [outtype] cannot be resolved. *)
Lemma output_activation_unknown (ot : string) (out0 : matrix) (w : World F) :
  ~ recognized ot ->
  output_activation ot out0 w = (w, Raise (NameError "outtype")).
Proof.
  intros Hrec. unfold recognized in Hrec. unfold output_activation.
  rewrite (proj2 (String.eqb_neq ot "linear")) by tauto.
  rewrite (proj2 (String.eqb_neq ot "logistic")) by tauto.
  rewrite (proj2 (String.eqb_neq ot "softmax")) by tauto.
  reflexivity.
Qed.

(** A recognized [outtype] yields outputs of the shape of the
    pre-activation, and leaves the world alone. *)
Lemma output_activation_recognized (ot : string) (out0 : matrix) (w : World F) :
  recognized ot ->
  exists out,
    output_activation ot out0 w = (w, Ok out) /\ shape out = shape out0.
Proof.
  intros [-> | [-> | ->]]; unfold output_activation; eqb_lits.
  - eexists. split; reflexivity.
  - eexists. split; reflexivity.
  - munfold.
    rewrite binop_same_shape
      by (shapes; unfold Ny.sum_axis1; now rewrite length_map, length_seq).
    unfold Ny.binop at 1.
    replace (Ny.bcompat _ _ && Ny.bcompat _ _) with true.
    + eexists. split; [reflexivity |]. shapes.
      unfold Ny.sum_axis1. rewrite length_map, length_seq. cbn [Ny.nrows].
      rewrite bdim_refl. unfold Ny.bdim.
      destruct (Ny.ncols out0 =? 1) eqn:E; [| reflexivity].
      apply Nat.eqb_eq in E. now rewrite E.
    + symmetry. apply andb_true_iff. split.
      * unfold Ny.bcompat. shapes. cbn. now rewrite orb_true_r.
      * shapes. unfold Ny.sum_axis1. rewrite length_map, length_seq.
        shapes. apply bcompat_refl.
Qed.

Lemma forward_unknown (X : matrix) (w : World F) (W1 W2 : matrix) (ot : string) :
  weights_at w W1 W2 ->
  Ny.ncols X = Ny.nrows W1 ->
  Ny.nrows W2 = S (Ny.ncols W1) ->
  outtype (self w) = Some ot ->
  ~ recognized ot ->
  exists Hd,
    _forward X w = (upd_self (with_hidden Hd) w, Raise (NameError "outtype")).
Proof.
  intros Hw HX HW Hot Hrec.
  destruct (forward_run X w W1 W2 Hw HX HW) as (Hd & out0 & _ & _ & ->).
  exists Hd. unfold bind, getattr. cbn. rewrite Hot.
  now apply output_activation_unknown.
Qed.

(** [_forward] on a well-shaped network with a recognized [outtype]. *)
Lemma forward_total (X : matrix) (w : World F) (W1 W2 : matrix) (ot : string) :
  weights_at w W1 W2 ->
  Ny.ncols X = Ny.nrows W1 ->
  Ny.nrows W2 = S (Ny.ncols W1) ->
  outtype (self w) = Some ot ->
  recognized ot ->
  exists Hd out,
    _forward X w = (upd_self (with_hidden Hd) w, Ok out) /\
    shape Hd = (Ny.nrows X, S (Ny.ncols W1)) /\
    shape out = (Ny.nrows X, Ny.ncols W2).
Proof.
  intros Hw HX HW Hot Hrec.
  destruct (forward_run X w W1 W2 Hw HX HW) as (Hd & out0 & HHd & Hout & ->).
  destruct (output_activation_recognized ot out0 (upd_self (with_hidden Hd) w) Hrec)
    as (out & Hact & Hsh).
  exists Hd, out. split; [| split; [exact HHd | congruence]].
  unfold bind, getattr. cbn. rewrite Hot. exact Hact.
Qed.

(** [_compute_errors] on a well-shaped network: it returns, changes nothing,
    and the output error is the difference scaled as [outtype] says. *)
Lemma compute_errors_run (w : World F) (T O Hd W2 : matrix) (ot : string) :
  targets (self w) = Ny.Arr2 T ->
  outputs (self w) = Some O ->
  shape T = shape O ->
  hidden (self w) = Some Hd ->
  Ny.nrows Hd = Ny.nrows O ->
  heap w !! weights_layer2 (self w) = Some (Ny.Arr2 W2) ->
  shape W2 = (Ny.ncols Hd, Ny.ncols O) ->
  outtype (self w) = Some ot ->
  recognized ot ->
  exists deltao deltah,
    _compute_errors w = (w, Ok (deltao, deltah)) /\
    shape deltao = shape O /\
    shape deltah = shape Hd /\
    forall i j, i < Ny.nrows O -> j < Ny.ncols O ->
      Ny.mget deltao i j =
        if String.eqb ot "logistic" then
          fmul (fsub (Ny.mget T i j) (Ny.mget O i j))
            (fmul (Ny.mget O i j) (fsub Ny.fone (Ny.mget O i j)))
        else
          fdiv (fsub (Ny.mget T i j) (Ny.mget O i j))
            (Ny.of_nat (data_amount (self w))).
Proof.
  intros Htg Hout HT Hhid HHd H2 HW2 Hot Hrec.
  unfold shape in HT, HW2. injection HT as HTr HTc. injection HW2 as HWr HWc.
  unfold _compute_errors. munfold. cbn.
  rewrite Htg, Hout. cbn.
  rewrite binop_same_shape by (shapes; congruence).
  rewrite Hot.
  destruct Hrec as [-> | [-> | ->]]; eqb_lits; cbn.
  - repeat (rewrite ?Hhid; cbn).
    rewrite binop_same_shape by reflexivity. rewrite H2. cbn.
    rewrite dot_inner by (shapes; congruence).
    rewrite iop_same_shape by (shapes; congruence).
    eexists _, _. split; [reflexivity |]. split; [shapes; congruence |].
    split; [reflexivity |]. intros i j Hi Hj.
    unfold Ny.map_elems. rewrite !mget_mbuild by (shapes; lia). reflexivity.
  - repeat (rewrite ?Hout; cbn).
    rewrite binop_same_shape by reflexivity.
    rewrite iop_same_shape by (shapes; congruence).
    repeat (rewrite ?Hhid; cbn).
    rewrite binop_same_shape by reflexivity. rewrite H2. cbn.
    rewrite dot_inner by (shapes; congruence).
    rewrite iop_same_shape by (shapes; congruence).
    eexists _, _. split; [reflexivity |]. split; [shapes; congruence |].
    split; [reflexivity |]. intros i j Hi Hj.
    unfold Ny.map_elems. rewrite !mget_mbuild by (shapes; lia). reflexivity.
  - repeat (rewrite ?Hhid; cbn).
    rewrite binop_same_shape by reflexivity. rewrite H2. cbn.
    rewrite dot_inner by (shapes; congruence).
    rewrite iop_same_shape by (shapes; congruence).
    eexists _, _. split; [reflexivity |]. split; [shapes; congruence |].
    split; [reflexivity |]. intros i j Hi Hj.
    unfold Ny.map_elems. rewrite !mget_mbuild by (shapes; lia). reflexivity.
Qed.

Lemma gradient_dot (X D : matrix) (i j : nat) :
  i < Ny.ncols X -> j < Ny.ncols D ->
  Ny.fsum (map (fun k => fmul (Ny.mget (Ny.transpose X) i k) (Ny.mget D k j))
             (seq 0 (Ny.ncols (Ny.transpose X))))
  = gradient X D i j.
Proof.
  intros Hi Hj. unfold gradient. f_equal.
  change (Ny.ncols (Ny.transpose X)) with (Ny.nrows X).
  apply map_ext_in. intros k Hk. apply in_seq in Hk.
  unfold Ny.transpose. rewrite mget_mbuild by lia. reflexivity.
Qed.

Lemma gradient_drop_last_col (X D : matrix) (i j : nat) :
  Ny.nrows D = Ny.nrows X -> j < Ny.ncols D - 1 ->
  gradient X (Ny.drop_last_col D) i j = gradient X D i j.
Proof.
  intros Hr Hj. unfold gradient. f_equal.
  apply map_ext_in. intros k Hk. apply in_seq in Hk.
  unfold Ny.drop_last_col. rewrite mget_mbuild by lia. reflexivity.
Qed.

(** [_update_weights] on well-shaped arguments: it returns, and the new
    accumulators and weights are, entry by entry, those of the update rule. *)
Lemma update_weights_run (w : World F) (deltao deltah Hd U1 U2 W1 W2 : matrix)
    (e : F) :
  hidden (self w) = Some Hd ->
  update_w1 (self w) = Some U1 ->
  update_w2 (self w) = Some U2 ->
  eta (self w) = Some e ->
  weights_at w W1 W2 ->
  Ny.nrows deltah = Ny.nrows (inputs (self w)) ->
  shape U1 = (Ny.ncols (inputs (self w)), Ny.ncols deltah - 1) ->
  shape W1 = shape U1 ->
  Ny.nrows deltao = Ny.nrows Hd ->
  shape U2 = (Ny.ncols Hd, Ny.ncols deltao) ->
  shape W2 = shape U2 ->
  exists U1' U2' W1' W2',
    _update_weights deltao deltah w =
      ({| heap := <[weights_layer2 (self w) := Ny.Arr2 W2']>
                    (<[weights_layer1 (self w) := Ny.Arr2 W1']> (heap w));
          stdout := stdout w; rng := rng w;
          self := with_update_w2 U2' (with_update_w1 U1' (self w)) |}, Ok tt) /\
    shape U1' = shape U1 /\ shape W1' = shape W1 /\
    shape U2' = shape U2 /\ shape W2' = shape W2 /\
    (forall i j, i < Ny.nrows U1 -> j < Ny.ncols U1 ->
       Ny.mget U1' i j =
         fadd (fmul (momentum (self w)) (Ny.mget U1 i j))
              (fmul e (gradient (inputs (self w)) deltah i j)) /\
       Ny.mget W1' i j = fadd (Ny.mget W1 i j) (Ny.mget U1' i j)) /\
    (forall i j, i < Ny.nrows U2 -> j < Ny.ncols U2 ->
       Ny.mget U2' i j =
         fadd (fmul (momentum (self w)) (Ny.mget U2 i j))
              (fmul e (gradient Hd deltao i j)) /\
       Ny.mget W2' i j = fadd (Ny.mget W2 i j) (Ny.mget U2' i j)).
Proof.
  intros Hhid Hu1 Hu2 He (H1 & H2 & Hne) Hdh HU1 HW1 Hdo HU2 HW2.
  unfold shape in HU1, HW1, HU2, HW2.
  injection HU1 as HU1r HU1c. injection HW1 as HW1r HW1c.
  injection HU2 as HU2r HU2c. injection HW2 as HW2r HW2c.
  unfold _update_weights. munfold. cbn.
  repeat (rewrite ?Hhid, ?Hu1, ?He; cbn).
  rewrite dot_inner by (shapes; congruence).
  rewrite iop_same_shape by (shapes; congruence).
  repeat (rewrite ?Hu2, ?He; cbn).
  rewrite dot_inner by (shapes; congruence).
  rewrite iop_same_shape by (shapes; congruence).
  rewrite H1. cbn.
  rewrite iop_same_shape by (shapes; congruence).
  rewrite list_lookup_insert_ne by exact Hne.
  rewrite H2. cbn.
  rewrite iop_same_shape by (shapes; congruence).
  eexists _, _, _, _. split; [reflexivity |].
  split; [reflexivity |]. split; [reflexivity |].
  split; [reflexivity |]. split; [reflexivity |].
  split; intros i j Hi Hj.
  - split.
    + unfold Ny.map_elems. rewrite !mget_mbuild by (shapes; lia).
      rewrite gradient_dot by (shapes; lia).
      rewrite gradient_drop_last_col by lia. reflexivity.
    + rewrite mget_mbuild by lia. reflexivity.
  - split.
    + unfold Ny.map_elems. rewrite !mget_mbuild by (shapes; lia).
      rewrite gradient_dot by (shapes; lia). reflexivity.
    + rewrite mget_mbuild by lia. reflexivity.
Qed.

(** ** Relations kept by the methods *)

Section Preservation.
Context (R : World F -> World F -> Prop) `{!Reflexive R} `{!Transitive R}.

Lemma preserves_pure {A} (c : M A) :
  (forall w, fst (c w) = w) -> preserves R c.
Proof. intros Hc w. rewrite Hc. reflexivity. Qed.

Lemma preserves_ret {A} (a : A) : preserves R (ret a).
Proof. now apply preserves_pure. Qed.

Lemma preserves_raise {A} (e : exn) : preserves R (raise (A:=A) e).
Proof. now apply preserves_pure. Qed.

Lemma preserves_lift {A} (r : result A) : preserves R (lift r).
Proof. now apply preserves_pure. Qed.

Lemma preserves_attr {A} (f : MLP F -> A) : preserves R (attr f).
Proof. now apply preserves_pure. Qed.

Lemma preserves_getattr {A} (name : string) (f : MLP F -> option A) :
  preserves R (getattr name f).
Proof.
  apply preserves_pure. intros w. unfold getattr. now destruct (f (self w)).
Qed.

Lemma preserves_load (l : loc) : preserves R (load l).
Proof. now apply preserves_pure. Qed.

Lemma preserves_load_weights (f : MLP F -> loc) : preserves R (load_weights f).
Proof.
  apply preserves_pure. intros w. unfold load_weights. munfold. cbn.
  now destruct (default _ _).
Qed.

Lemma preserves_load_name (locals : list string) (name : string) :
  preserves R (load_name locals name).
Proof.
  apply preserves_pure. intros w. unfold load_name. now destruct (existsb _ _).
Qed.

Lemma preserves_bind {A B} (c : M A) (k : A -> M B) :
  preserves R c -> (forall a, preserves R (k a)) -> preserves R (bind c k).
Proof.
  intros Hc Hk w. unfold bind. specialize (Hc w).
  destruct (c w) as [w' [a | e]]; cbn in Hc.
  - transitivity w'; [exact Hc | apply Hk].
  - exact Hc.
Qed.

End Preservation.

#[local] Instance same_heap_refl : Reflexive (same_heap (F:=F)).
Proof. intros w. reflexivity. Qed.
#[local] Instance same_heap_trans : Transitive (same_heap (F:=F)).
Proof. unfold same_heap. intros a b c Hab Hbc. congruence. Qed.

#[local] Instance same_data_refl : Reflexive (same_data (F:=F)).
Proof. intros w. split; reflexivity. Qed.
#[local] Instance same_data_trans : Transitive (same_data (F:=F)).
Proof. unfold same_data. intros a b c [? ?] [? ?]. split; congruence. Qed.

#[local] Instance same_core_refl : Reflexive (same_core (F:=F)).
Proof. intros w. repeat split. Qed.
#[local] Instance same_core_trans : Transitive (same_core (F:=F)).
Proof.
  unfold same_core.
  intros a b c (? & ? & ? & ? & ?) (? & ? & ? & ? & ?). repeat split; congruence.
Qed.

#[local] Instance frame_refl : Reflexive (frame (F:=F)).
Proof. intros w. repeat split. Qed.
#[local] Instance frame_trans : Transitive (frame (F:=F)).
Proof.
  unfold frame. intros a b c (Hab1 & Hab2 & Hab) (Hbc1 & Hbc2 & Hbc).
  split; [congruence |]. split; [congruence |].
  intros l Hl1 Hl2. rewrite Hbc by congruence. now apply Hab.
Qed.

(** One step of the structural argument: split a sequence, dispose of the
    read-only primitives, branch on conditionals. *)
Ltac keep_step :=
  match goal with
  | |- preserves _ (bind _ _) => apply preserves_bind; [typeclasses eauto | | intros ?]
  | |- preserves _ (ret _) => apply preserves_ret; typeclasses eauto
  | |- preserves _ (raise _) => apply preserves_raise; typeclasses eauto
  | |- preserves _ (lift _) => apply preserves_lift; typeclasses eauto
  | |- preserves _ (attr _) => apply preserves_attr; typeclasses eauto
  | |- preserves _ (getattr _ _) => apply preserves_getattr; typeclasses eauto
  | |- preserves _ (load _) => apply preserves_load; typeclasses eauto
  | |- preserves _ (load_weights _) => apply preserves_load_weights; typeclasses eauto
  | |- preserves _ (load_name _ _) => apply preserves_load_name; typeclasses eauto
  | |- preserves _ (if ?b then _ else _) => destruct b
  | |- preserves _ (match ?x with _ => _ end) => destruct x
  end.

(** The primitives that write: what they change is read off by computation. *)
Ltac keep_write :=
  match goal with
  | |- preserves _ (set_self _) => intros ?w
  | |- preserves _ (print _) => intros ?w
  | |- preserves _ (random_shuffle _ _) => intros ?w
  | |- preserves _ (store_weights _ _) => intros ?w
  end;
  unfold same_heap, same_data, same_core, frame; cbn;
  repeat split; try reflexivity;
  try (intros; apply list_lookup_insert_ne; congruence).

Ltac keep := repeat first [keep_step | keep_write].

Lemma forward_same_heap (X : matrix) : preserves same_heap (_forward X).
Proof. unfold _forward, output_activation. keep. Qed.

Lemma forward_same_data (X : matrix) : preserves same_data (_forward X).
Proof. unfold _forward, output_activation. keep. Qed.

Lemma forward_same_core (X : matrix) : preserves same_core (_forward X).
Proof. unfold _forward, output_activation. keep. Qed.


Lemma compute_errors_pure (w : World F) : fst (_compute_errors w) = w.
Proof.
  assert (Hk : preserves (fun a b => b = a) _compute_errors).
  { unfold _compute_errors.
    repeat first
      [ apply preserves_bind; [congruence | | intros ?]
      | apply preserves_pure;
        intros ?w; unfold getattr, load_weights; munfold; cbn;
        repeat match goal with
               | |- context [match ?x with _ => _ end] => destruct x
               end; reflexivity
      | match goal with
        | |- preserves _ (if ?b then _ else _) => destruct b
        end ]. }
  apply Hk.
Qed.

Lemma update_weights_same_data (deltao deltah : matrix) :
  preserves same_data (_update_weights deltao deltah).
Proof. unfold _update_weights. keep. Qed.

Lemma update_weights_frame (deltao deltah : matrix) :
  preserves frame (_update_weights deltao deltah).
Proof. unfold _update_weights. keep. Qed.

Lemma train_pass_same_data : preserves same_data train_pass.
Proof.
  unfold train_pass. keep.
  - apply forward_same_data.
  - intros w. rewrite compute_errors_pure. reflexivity.
  - apply update_weights_same_data.
Qed.








(** A branch that raises: the world it leaves is the one at hand. *)
Ltac raised :=
  let Heq := fresh "Heq" in
  intros Heq; apply (f_equal fst) in Heq; cbn in Heq; subst; reflexivity.

(** [_update_weights] writes the two weight matrices last, and once the first
    is written the second write cannot fail. *)
Lemma update_weights_atomic (deltao deltah : matrix) (w w' : World F) (e : exn) :
  accumulators_mirror w ->
  _update_weights deltao deltah w = (w', Raise e) ->
  heap w' = heap w.
Proof.
  intros (W1 & W2 & U1 & U2 & (H1 & H2 & Hne) & Hu1 & Hu2 & HU1 & HU2).
  unfold _update_weights. munfold. cbn.
  destruct (hidden (self w)) as [Hd |] eqn:Hhid; [| raised]. cbn.
  repeat (rewrite ?Hu1; cbn).
  destruct (eta (self w)) as [e0 |] eqn:He; [| raised]. cbn.
  destruct (Ny.dot _ _) as [G1 |]; [| raised].
  destruct (Ny.iop fadd _ (Ny.map_elems (fmul e0) G1)) as [U1' |] eqn:EU1;
    [| raised]. cbn.
  repeat (rewrite ?Hu2, ?He; cbn).
  destruct (Ny.dot _ _) as [G2 |]; [| raised].
  destruct (Ny.iop fadd _ (Ny.map_elems (fmul e0) G2)) as [U2' |] eqn:EU2;
    [| raised]. cbn.
  rewrite H1. cbn.
  destruct (Ny.iop fadd W1 U1') as [W1' |]; [| raised]. cbn.
  rewrite list_lookup_insert_ne by exact Hne. rewrite H2. cbn.
  apply iop_shape in EU2.
  rewrite iop_same_shape by (rewrite EU2; shapes; exact HU2).
  discriminate.
Qed.

(** ** Construction and the entry of [train] *)

(** What a successfully built network looks like. *)
Lemma init_network_ok (inputs0 targets0 : list (list F)) (hidden_nodes : nat)
    (beta0 momentum0 : F) (heap0 : list (Ny.ndarray (F:=F)))
    (stdout0 : list (line F)) (rng0 : nat) (w : World F) :
  __init__ RS inputs0 targets0 hidden_nodes beta0 momentum0 heap0 stdout0 rng0
    = Ok w ->
  network_ok w /\
  Ny.rectangular inputs0 = true /\
  Ny.nrows (inputs (self w)) = length inputs0 /\
  data_amount (self w) = length inputs0 /\
  targets (self w) = Ny.array targets0.
Proof.
  unfold __init__.
  destruct inputs0 as [| in0 ins]; [discriminate |].
  destruct targets0 as [| tg0 tgs]; [discriminate |].
  unfold Ny.array at 1.
  destruct (Ny.rectangular (in0 :: ins)) eqn:Erect; [| discriminate].
  rewrite concatenate1_rows by (shapes; reflexivity).
  intros [= <-]. cbn [self inputs data_amount targets].
  split; [| repeat split].
  exists (rand RS rng0 (length in0 + 1) hidden_nodes),
    (rand RS (rng0 + (length in0 + 1) * hidden_nodes) (hidden_nodes + 1)
       (length tg0)).
  split; [split; [| split] |]; cbn.
  - rewrite lookup_app_r by lia. now rewrite Nat.sub_diag.
  - rewrite lookup_app_r by lia.
    now replace (S (length heap0) - length heap0) with 1 by lia.
  - lia.
  - split; [reflexivity |]. unfold rand. shapes. lia.
Qed.

(** The entry of [train] on a network: the learning rate and the activation
    are recorded and both accumulators are fresh zero matrices of the shapes
    of the weights. *)
Lemma train_entry_run (eta0 : F) (outtype0 : string) (w : World F)
    (W1 W2 : matrix) :
  weights_at w W1 W2 ->
  train_entry eta0 outtype0 w =
    (upd_self (fun s =>
       with_update_w2 (Ny.zeros (Ny.nrows W2) (Ny.ncols W2))
         (with_update_w1 (Ny.zeros (Ny.nrows W1) (Ny.ncols W1))
            (with_outtype outtype0 (with_eta eta0 s)))) w,
     Ok (seq 0 (data_amount (self w)))).
Proof.
  intros (H1 & H2 & Hne). unfold train_entry. munfold. cbn.
  rewrite H1. cbn. rewrite H2. cbn. reflexivity.
Qed.

(** ** One pass on a well-shaped network and dataset *)

Lemma train_pass_run (w : World F) (W1 W2 T U1 U2 : matrix) (ot : string)
    (e : F) :
  weights_at w W1 W2 ->
  Ny.nrows W1 = Ny.ncols (inputs (self w)) ->
  Ny.nrows W2 = S (Ny.ncols W1) ->
  targets (self w) = Ny.Arr2 T ->
  shape T = (Ny.nrows (inputs (self w)), Ny.ncols W2) ->
  outtype (self w) = Some ot ->
  recognized ot ->
  eta (self w) = Some e ->
  update_w1 (self w) = Some U1 ->
  update_w2 (self w) = Some U2 ->
  shape U1 = shape W1 ->
  shape U2 = shape W2 ->
  exists Hd out deltao deltah U1' U2' W1' W2',
    _forward (inputs (self w)) w = (upd_self (with_hidden Hd) w, Ok out) /\
    _compute_errors (upd_self (with_outputs out) (upd_self (with_hidden Hd) w))
      = (upd_self (with_outputs out) (upd_self (with_hidden Hd) w),
         Ok (deltao, deltah)) /\
    train_pass w =
      ({| heap := <[weights_layer2 (self w) := Ny.Arr2 W2']>
                    (<[weights_layer1 (self w) := Ny.Arr2 W1']> (heap w));
          stdout := stdout w; rng := rng w;
          self := with_update_w2 U2'
                    (with_update_w1 U1'
                       (with_outputs out (with_hidden Hd (self w)))) |},
       Ok tt) /\
    shape U1' = shape U1 /\ shape W1' = shape W1 /\
    shape U2' = shape U2 /\ shape W2' = shape W2 /\
    (forall i j, i < Ny.nrows U1 -> j < Ny.ncols U1 ->
       Ny.mget U1' i j =
         fadd (fmul (momentum (self w)) (Ny.mget U1 i j))
              (fmul e (gradient (inputs (self w)) deltah i j)) /\
       Ny.mget W1' i j = fadd (Ny.mget W1 i j) (Ny.mget U1' i j)) /\
    (forall i j, i < Ny.nrows U2 -> j < Ny.ncols U2 ->
       Ny.mget U2' i j =
         fadd (fmul (momentum (self w)) (Ny.mget U2 i j))
              (fmul e (gradient Hd deltao i j)) /\
       Ny.mget W2' i j = fadd (Ny.mget W2 i j) (Ny.mget U2' i j)).
Proof.
  intros Hw HW1 HW2 Htg HT Hot Hrec He Hu1 Hu2 HU1 HU2.
  destruct (forward_total (inputs (self w)) w W1 W2 ot Hw (eq_sym HW1) HW2 Hot Hrec)
    as (Hd & out & Hfw & HHd & Hout).
  pose proof Hw as (H1 & H2 & Hne).
  unfold shape in HT, HHd, Hout, HU1, HU2.
  injection HT as HTr HTc. injection HHd as HHdr HHdc.
  injection Hout as Houtr Houtc. injection HU1 as HU1r HU1c.
  injection HU2 as HU2r HU2c.
  set (w2 := upd_self (with_outputs out) (upd_self (with_hidden Hd) w)).
  destruct (compute_errors_run w2 T out Hd W2 ot)
    as (deltao & deltah & Hce & Hdo & Hdh & _); try assumption;
    try reflexivity; try (unfold shape; f_equal; congruence); try congruence.
  unfold shape in Hdo, Hdh. injection Hdo as Hdor Hdoc. injection Hdh as Hdhr Hdhc.
  destruct (update_weights_run w2 deltao deltah Hd U1 U2 W1 W2 e)
    as (U1' & U2' & W1' & W2' & Hup & S1 & S2 & S3 & S4 & F1 & F2);
    try assumption; try reflexivity;
    try (unfold shape; cbn; f_equal; lia);
    try (subst w2; cbn; congruence).
  exists Hd, out, deltao, deltah, U1', U2', W1', W2'.
  split; [exact Hfw |]. split; [exact Hce |].
  split; [| repeat split; try assumption; first [apply F1 | apply F2]; assumption].
  unfold train_pass. unfold bind at 1. unfold attr at 1.
  unfold bind at 1. rewrite Hfw.
  unfold bind at 1. unfold set_self at 1.
  unfold bind at 1. fold w2. rewrite Hce. cbn [fst snd].
  exact Hup.
Qed.

(** ** The accumulators mirror the weights in every pass of [train] *)

Lemma train_entry_mirror (eta0 : F) (outtype0 : string) (w : World F)
    (W1 W2 : matrix) :
  weights_at w W1 W2 ->
  accumulators_mirror (fst (train_entry eta0 outtype0 w)).
Proof.
  intros Hw. rewrite (train_entry_run eta0 outtype0 w W1 W2 Hw).
  exists W1, W2, (Ny.zeros (Ny.nrows W1) (Ny.ncols W1)),
    (Ny.zeros (Ny.nrows W2) (Ny.ncols W2)).
  repeat split; try apply Hw.
Qed.

Lemma update_weights_mirror (deltao deltah : matrix) (w w' : World F) :
  accumulators_mirror w ->
  _update_weights deltao deltah w = (w', Ok tt) ->
  accumulators_mirror w'.
Proof.
  intros (W1 & W2 & U1 & U2 & (H1 & H2 & Hne) & Hu1 & Hu2 & HU1 & HU2).
  unfold _update_weights. munfold. cbn.
  destruct (hidden (self w)) as [Hd |] eqn:Hhid; [| discriminate]. cbn.
  repeat (rewrite ?Hu1; cbn).
  destruct (eta (self w)) as [e0 |] eqn:He; [| discriminate]. cbn.
  destruct (Ny.dot _ _) as [G1 |]; [| discriminate].
  destruct (Ny.iop fadd _ (Ny.map_elems (fmul e0) G1)) as [U1' |] eqn:EU1;
    [| discriminate]. cbn.
  repeat (rewrite ?Hu2, ?He; cbn).
  destruct (Ny.dot _ _) as [G2 |]; [| discriminate].
  destruct (Ny.iop fadd _ (Ny.map_elems (fmul e0) G2)) as [U2' |] eqn:EU2;
    [| discriminate]. cbn.
  rewrite H1. cbn.
  destruct (Ny.iop fadd W1 U1') as [W1' |] eqn:EW1; [| discriminate]. cbn.
  rewrite list_lookup_insert_ne by exact Hne. rewrite H2. cbn.
  destruct (Ny.iop fadd W2 U2') as [W2' |] eqn:EW2; [| discriminate]. cbn.
  intros [= <-].
  apply iop_shape in EU1, EU2, EW1, EW2.
  exists W1', W2', U1', U2'. unfold weights_at. cbn.
  pose proof (lookup_lt_Some _ _ _ H1) as L1.
  pose proof (lookup_lt_Some _ _ _ H2) as L2.
  repeat split; try congruence.
  - rewrite list_lookup_insert_ne by congruence.
    now apply list_lookup_insert_eq.
  - apply list_lookup_insert_eq. now rewrite length_insert.
  - rewrite EU1, EW1. exact HU1.
  - rewrite EU2, EW2. exact HU2.
Qed.

Lemma mirror_same_core (w w' : World F) :
  same_core w w' -> accumulators_mirror w -> accumulators_mirror w'.
Proof.
  intros (Hh & Ha1 & Ha2 & Hl1 & Hl2)
    (W1 & W2 & U1 & U2 & (H1 & H2 & Hne) & Hu1 & Hu2 & S1 & S2).
  exists W1, W2, U1, U2. unfold weights_at.
  rewrite Hh, Hl1, Hl2, Ha1, Ha2. repeat split; assumption.
Qed.

Lemma reshuffle_same_core (shuffle : list nat) :
  preserves same_core (reshuffle RS shuffle).
Proof. unfold reshuffle. keep. Qed.

Lemma train_iteration_mirror (shuffle shuffle' : list nat) (w w' : World F) :
  accumulators_mirror w ->
  train_iteration RS shuffle w = (w', Ok shuffle') ->
  accumulators_mirror w'.
Proof.
  intros Hmir. unfold train_iteration, train_pass.
  unfold bind at 1. unfold bind at 1. unfold attr at 1. unfold bind at 1.
  pose proof (forward_same_core (inputs (self w)) w) as Hfw.
  destruct (_forward (inputs (self w)) w) as [w1 [out | e1]]; cbn in Hfw;
    [| discriminate].
  unfold bind at 1. unfold set_self at 1. unfold bind at 1.
  set (w2 := upd_self (with_outputs out) w1).
  assert (Hmir2 : accumulators_mirror w2).
  { apply (mirror_same_core w); [| exact Hmir].
    destruct Hfw as (? & ? & ? & ? & ?). repeat split; assumption. }
  pose proof (compute_errors_pure w2) as Hce.
  destruct (_compute_errors w2) as [w3 [d | e2]]; cbn in Hce; subst w3;
    [| discriminate].
  destruct (_update_weights (fst d) (snd d) w2) as [w4 [[] | e3]] eqn:Hup;
    [| discriminate].
  apply update_weights_mirror in Hup; [| exact Hmir2].
  intros Hsh. pose proof (reshuffle_same_core shuffle w4) as Hrs.
  rewrite Hsh in Hrs. cbn in Hrs.
  now apply (mirror_same_core w4).
Qed.

(** * The properties of the specification *)

(** C1.  What the code does with an [outtype] that is none of "linear",
    "logistic", "softmax".  There is no error of its own for an unknown
    activation: the [else] branch of [_forward] is written to print
    "ERROR: Unknown outtype" and go on to return the outputs as they are,
    but its message reads the bare name [outtype], which [_forward] does not
    bind.  So every Forward Pass, and every call of [train] with at least
    one iteration, ends in that NameError, before anything is printed or
    written to the object store. *)
Theorem unknown_outtype_raises (w : World F) (ot : string) :
  network_ok w ->
  ~ recognized ot ->
  (forall X : matrix,
      Ny.ncols X = Ny.ncols (inputs (self w)) ->
      outtype (self w) = Some ot ->
      exists w', _forward X w = (w', Raise (NameError "outtype")) /\
                 heap w' = heap w /\ stdout w' = stdout w) /\
  (forall (eta0 : F) (iterations : Z),
      (0 < iterations)%Z ->
      exists w', train RS eta0 iterations ot w = (w', Raise (NameError "outtype")) /\
                 heap w' = heap w /\ stdout w' = stdout w).
Proof.
  intros (W1 & W2 & Hw & HW1 & HW2) Hrec. split.
  - intros X HX Hot.
    destruct (forward_unknown X w W1 W2 ot Hw) as (Hd & ->);
      try assumption; try congruence.
    eexists. split; [reflexivity |]. split; reflexivity.
  - intros eta0 iterations Hpos.
    unfold train. unfold bind at 1. rewrite (train_entry_run eta0 ot w W1 W2 Hw).
    destruct (Z.to_nat iterations) as [| n] eqn:En; [lia |].
    cbn [train_loop]. unfold train_iteration, train_pass.
    set (w1 := upd_self _ w).
    destruct (forward_unknown (inputs (self w1)) w1 W1 W2 ot) as (Hd & Hfw);
      try assumption; try reflexivity; try (subst w1; cbn; congruence).
    unfold bind, attr. rewrite Hfw.
    eexists. split; [reflexivity |]. split; reflexivity.
Qed.

(** C2, as the code has it.  When some row of the raw inputs differs in
    width from row 0, Network Construction fails with an error instead of
    building a Network.  (The targets are not compared with the inputs.) *)
Theorem ragged_inputs_rejected (inputs0 targets0 : list (list F))
    (hidden_nodes : nat) (beta0 momentum0 : F)
    (heap0 : list (Ny.ndarray (F:=F))) (stdout0 : list (line F)) (rng0 : nat)
    (r : list F) :
  r ∈ inputs0 ->
  length r <> length (hd [] inputs0) ->
  exists e,
    __init__ RS inputs0 targets0 hidden_nodes beta0 momentum0 heap0 stdout0 rng0
      = Raise e /\
    (e = ValueError \/ e = IndexError).
Proof.
  intros Hin Hlen.
  pose proof (rectangular_false inputs0 r Hin Hlen) as Hrag.
  unfold __init__.
  destruct inputs0 as [| in0 ins]; [eexists; split; [reflexivity | now right] |].
  destruct targets0 as [| tg0 tgs]; [eexists; split; [reflexivity | now right] |].
  rewrite (array_ragged in0 ins Hrag).
  eexists; split; [reflexivity | now left].
Qed.

(** Construction succeeds whenever the input rows have one width and both
    lists are non-empty, whatever the targets look like. *)
Lemma init_ignores_targets (in0 : list F) (ins : list (list F))
    (tg0 : list F) (tgs : list (list F)) (hidden_nodes : nat)
    (beta0 momentum0 : F) (heap0 : list (Ny.ndarray (F:=F)))
    (stdout0 : list (line F)) (rng0 : nat) :
  Ny.rectangular (in0 :: ins) = true ->
  exists w,
    __init__ RS (in0 :: ins) (tg0 :: tgs) hidden_nodes beta0 momentum0
      heap0 stdout0 rng0 = Ok w /\
    targets (self w) = Ny.array (tg0 :: tgs).
Proof.
  intros Hrect. unfold __init__.
  rewrite (array_rectangular in0 ins Hrect).
  rewrite concatenate1_rows by (shapes; reflexivity).
  eexists. split; reflexivity.
Qed.

(** C3.  A pass (Forward Pass, Error/Backward Pass, Weight Update) that
    raises leaves the object store, hence both weight matrices, exactly as
    it found it; the weight attributes keep naming the same two arrays. *)
Theorem failed_pass_keeps_weights (w w' : World F) (e : exn) :
  accumulators_mirror w ->
  train_pass w = (w', Raise e) ->
  heap w' = heap w /\
  weights_layer1 (self w') = weights_layer1 (self w) /\
  weights_layer2 (self w') = weights_layer2 (self w).
Proof.
  intros Hmir. unfold train_pass. unfold bind at 1. unfold attr at 1.
  unfold bind at 1.
  pose proof (forward_same_core (inputs (self w)) w) as Hfw.
  destruct (_forward (inputs (self w)) w) as [w1 [out | e1]]; cbn in Hfw.
  2:{ intros [= <- _]. destruct Hfw as (? & _ & _ & ? & ?). auto. }
  unfold bind at 1. unfold set_self at 1. unfold bind at 1.
  set (w2 := upd_self (with_outputs out) w1).
  assert (Hcore : same_core w w2).
  { destruct Hfw as (? & ? & ? & ? & ?). repeat split; assumption. }
  pose proof (compute_errors_pure w2) as Hce.
  destruct (_compute_errors w2) as [w3 [d | e2]]; cbn in Hce; subst w3.
  2:{ intros [= <- _]. destruct Hcore as (? & _ & _ & ? & ?). auto. }
  intros Hup.
  assert (Hmir2 : accumulators_mirror w2).
  { destruct Hmir as (W1 & W2 & U1 & U2 & (H1 & H2 & Hne) & Hu1 & Hu2 & S1 & S2).
    destruct Hcore as (Hh & Ha1 & Ha2 & Hl1 & Hl2).
    exists W1, W2, U1, U2. unfold weights_at.
    rewrite Hh, Hl1, Hl2, Ha1, Ha2. repeat split; assumption. }
  pose proof (update_weights_atomic _ _ _ _ _ Hmir2 Hup) as Hheap.
  pose proof (update_weights_frame (fst d) (snd d) w2) as Hfr.
  rewrite Hup in Hfr. cbn in Hfr. destruct Hfr as (Hf1 & Hf2 & _).
  destruct Hcore as (Hh & _ & _ & Hl1 & Hl2).
  repeat split; congruence.
Qed.

(** A sequence that returns: both parts returned. *)
Lemma bind_ok {A B} (c : M A) (k : A -> M B) (w w' : World F) (b : B) :
  bind c k w = (w', Ok b) ->
  exists a w1, c w = (w1, Ok a) /\ k a w1 = (w', Ok b).
Proof.
  unfold bind. destruct (c w) as [w1 [a | e]]; [| discriminate].
  intros Hk. now exists a, w1.
Qed.

(** Every round of [early_stopping] counts once. *)
Lemma es_round_count (valid : matrix) (validtargets : loc) (eta0 : F)
    (iterations : Z) (outtype0 : string) (v v' : es_vars) (w w' : World F) :
  es_round RS valid validtargets eta0 iterations outtype0 v w = (w', Ok v') ->
  count v' = S (count v).
Proof.
  unfold es_round. intros Hr.
  apply bind_ok in Hr as (? & ? & _ & Hr).
  apply bind_ok in Hr as (? & ? & _ & Hr).
  apply bind_ok in Hr as (? & ? & _ & Hr).
  apply bind_ok in Hr as (? & ? & _ & Hr).
  apply bind_ok in Hr as (? & ? & _ & Hr).
  injection Hr as _ <-. reflexivity.
Qed.

(** When the loop of [early_stopping] stops, it has run some number of
    rounds, its counter has advanced by that number, and its condition is
    false. *)
Lemma es_loop_rounds (fuel : nat) (valid : matrix) (validtargets : loc)
    (eta0 : F) (iterations : Z) (outtype0 : string) (v v' : es_vars)
    (w w' : World F) :
  es_loop RS fuel valid validtargets eta0 iterations outtype0 v w
    = (w', Ok (Some v')) ->
  exists n,
    es_rounds RS n valid validtargets eta0 iterations outtype0 v w = (w', Ok v') /\
    count v' = count v + n /\
    es_continue v' = false.
Proof.
  revert v w. induction fuel as [| fuel IH]; intros v w; cbn [es_loop].
  - discriminate.
  - destruct (es_continue v) eqn:Hc.
    + intros Hr. apply bind_ok in Hr as (v1 & w1 & Hround & Hrest).
      destruct (IH _ _ Hrest) as (n & Hn & Hcount & Hstop).
      exists (S n). cbn [es_rounds]. unfold bind at 1. rewrite Hround.
      split; [exact Hn |]. split; [| exact Hstop].
      apply es_round_count in Hround. lia.
    + intros [= <- <-]. exists 0. cbn. repeat split; [lia | exact Hc].
Qed.

(** C4, as the code has it.  An invocation of [early_stopping] that
    terminates returns None.  The number of rounds its loop executed and the
    last computed validation error are what its final [print] writes: after
    [n] rounds on the bias-augmented validation inputs the loop condition is
    false, the counter is [n], and the last line of the console is the final
    count and error. *)
Theorem early_stopping_reports (fuel : nat) (valid validtargets : loc)
    (eta0 : F) (iterations : Z) (outtype0 : string) (w w' : World F)
    (r : pyval F) :
  early_stopping RS fuel valid validtargets eta0 iterations outtype0 w
    = (w', Ok (Some r)) ->
  r = PyNone /\
  exists (V valid' : matrix) (n : nat) (v : es_vars) (w1 : World F),
    heap w !! valid = Some (Ny.Arr2 V) /\
    Ny.concatenate1 V (Ny.neg_ones (Ny.nrows V) 1) = Ok valid' /\
    es_rounds RS n valid' validtargets eta0 iterations outtype0 es_init w
      = (w1, Ok v) /\
    count v = n /\
    es_continue v = false /\
    heap w' = heap w1 /\ self w' = self w1 /\
    stdout w' = (stdout w1 ++ [EndLine n (new_val_err v)])%list.
Proof.
  unfold early_stopping. intros Hr.
  apply bind_ok in Hr as (a & w0 & Hload & Hr).
  unfold load in Hload. injection Hload as <- <-.
  apply bind_ok in Hr as (valid' & w0 & Hcat & Hr).
  unfold lift in Hcat. injection Hcat as <- Hcat.
  apply bind_ok in Hr as (res & w1 & Hloop & Hr).
  destruct res as [v |]; [| discriminate].
  apply bind_ok in Hr as ([] & w2 & Hprint & Hr).
  unfold print in Hprint. injection Hprint as <-.
  unfold ret in Hr. injection Hr as <- <-.
  split; [reflexivity |].
  destruct (heap w !! valid) as [[V | rows] |] eqn:Hv; cbn in Hcat;
    try discriminate.
  apply es_loop_rounds in Hloop as (n & Hn & Hcount & Hstop).
  exists V, valid', n, v, w1. cbn in Hcount. subst n.
  repeat split; try assumption; reflexivity.
Qed.

(** C5.  A weight update on well-shaped arguments returns; for each layer
    the new accumulator is momentum . old accumulator + eta . (transpose of
    the layer inputs . delta), where layer 1 uses the columns of [deltah]
    but the trailing (bias) one; and the new accumulator is added to the
    weight matrix the attribute refers to, in the object store. *)
Theorem weight_update_rule (w : World F)
    (deltao deltah Hd U1 U2 W1 W2 : matrix) (e : F) :
  hidden (self w) = Some Hd ->
  update_w1 (self w) = Some U1 ->
  update_w2 (self w) = Some U2 ->
  eta (self w) = Some e ->
  weights_at w W1 W2 ->
  Ny.nrows deltah = Ny.nrows (inputs (self w)) ->
  shape U1 = (Ny.ncols (inputs (self w)), Ny.ncols deltah - 1) ->
  shape W1 = shape U1 ->
  Ny.nrows deltao = Ny.nrows Hd ->
  shape U2 = (Ny.ncols Hd, Ny.ncols deltao) ->
  shape W2 = shape U2 ->
  exists w' U1' U2' W1' W2',
    _update_weights deltao deltah w = (w', Ok tt) /\
    update_w1 (self w') = Some U1' /\
    update_w2 (self w') = Some U2' /\
    heap w' !! weights_layer1 (self w) = Some (Ny.Arr2 W1') /\
    heap w' !! weights_layer2 (self w) = Some (Ny.Arr2 W2') /\
    shape U1' = shape U1 /\ shape W1' = shape W1 /\
    shape U2' = shape U2 /\ shape W2' = shape W2 /\
    (forall i j, i < Ny.ncols (inputs (self w)) -> j < Ny.ncols deltah - 1 ->
       Ny.mget U1' i j =
         fadd (fmul (momentum (self w)) (Ny.mget U1 i j))
              (fmul e (gradient (inputs (self w)) deltah i j)) /\
       Ny.mget W1' i j = fadd (Ny.mget W1 i j) (Ny.mget U1' i j)) /\
    (forall i j, i < Ny.ncols Hd -> j < Ny.ncols deltao ->
       Ny.mget U2' i j =
         fadd (fmul (momentum (self w)) (Ny.mget U2 i j))
              (fmul e (gradient Hd deltao i j)) /\
       Ny.mget W2' i j = fadd (Ny.mget W2 i j) (Ny.mget U2' i j)).
Proof.
  intros Hhid Hu1 Hu2 He Hw Hdh HU1 HW1 Hdo HU2 HW2.
  destruct (update_weights_run w deltao deltah Hd U1 U2 W1 W2 e)
    as (U1' & U2' & W1' & W2' & Hrun & S1 & S2 & S3 & S4 & F1 & F2);
    try assumption.
  destruct Hw as (H1 & H2 & Hne).
  pose proof (lookup_lt_Some _ _ _ H1) as L1.
  pose proof (lookup_lt_Some _ _ _ H2) as L2.
  unfold shape in HU1, HU2. injection HU1 as HU1r HU1c. injection HU2 as HU2r HU2c.
  eexists _, U1', U2', W1', W2'. split; [exact Hrun |]. cbn.
  split; [reflexivity |]. split; [reflexivity |].
  split; [rewrite list_lookup_insert_ne by congruence;
          now apply list_lookup_insert_eq |].
  split; [apply list_lookup_insert_eq; now rewrite length_insert |].
  repeat (split; [assumption |]).
  split; intros i j Hi Hj; [apply F1 | apply F2]; lia.
Qed.

(** C6.  A backward pass on a well-shaped network returns, and its output
    error is targets - outputs divided by data_amount for "linear",
    multiplied by outputs . (1 - outputs) for "logistic", and divided by
    data_amount for "softmax", entry by entry. *)
Theorem output_error_scaling (w : World F) (T O Hd W2 : matrix) (ot : string) :
  targets (self w) = Ny.Arr2 T ->
  outputs (self w) = Some O ->
  shape T = shape O ->
  hidden (self w) = Some Hd ->
  Ny.nrows Hd = Ny.nrows O ->
  heap w !! weights_layer2 (self w) = Some (Ny.Arr2 W2) ->
  shape W2 = (Ny.ncols Hd, Ny.ncols O) ->
  outtype (self w) = Some ot ->
  recognized ot ->
  exists deltao deltah,
    _compute_errors w = (w, Ok (deltao, deltah)) /\
    shape deltao = shape O /\
    forall i j, i < Ny.nrows O -> j < Ny.ncols O ->
      (ot = "linear" ->
       Ny.mget deltao i j =
         fdiv (fsub (Ny.mget T i j) (Ny.mget O i j))
           (Ny.of_nat (data_amount (self w)))) /\
      (ot = "logistic" ->
       Ny.mget deltao i j =
         fmul (fsub (Ny.mget T i j) (Ny.mget O i j))
           (fmul (Ny.mget O i j) (fsub Ny.fone (Ny.mget O i j)))) /\
      (ot = "softmax" ->
       Ny.mget deltao i j =
         fdiv (fsub (Ny.mget T i j) (Ny.mget O i j))
           (Ny.of_nat (data_amount (self w)))).
Proof.
  intros Htg Hout HT Hhid HHd H2 HW2 Hot Hrec.
  destruct (compute_errors_run w T O Hd W2 ot)
    as (deltao & deltah & Hrun & Hsh & _ & Hform); try assumption.
  exists deltao, deltah. split; [exact Hrun |]. split; [exact Hsh |].
  intros i j Hi Hj. specialize (Hform i j Hi Hj).
  repeat split; intros ->; revert Hform; eqb_lits; auto.
Qed.

Lemma mget_zeros (r c i j : nat) :
  i < r -> j < c -> Ny.mget (Ny.zeros r c) i j = Ny.fzero (F:=F).
Proof. intros Hi Hj. unfold Ny.zeros. now rewrite mget_mbuild. Qed.

(** C7.  On every call, whatever the accumulators were before it and
    however it ends, [train] starts by making both of them zero matrices of
    the shapes of the weights, and runs its loop from there.  On a
    well-shaped network and dataset the first iteration of a call with at
    least one iteration then succeeds, the call goes on from the state that
    iteration leaves, and in that state every entry of a new accumulator is
    momentum . 0 + eta . gradient, which the weight has received: the
    accumulators of earlier calls contribute nothing.  At the entries where
    momentum . 0 = 0 and 0 + x = x hold for the product x = eta . gradient,
    the weight delta is eta . gradient. *)
Theorem train_resets_momentum (w : World F) (eta0 : F) (iterations : Z)
    (ot : string) (W1 W2 : matrix) :
  weights_at w W1 W2 ->
  exists w0,
    (* on entry *)
    train RS eta0 iterations ot w =
      bind (train_loop RS (Z.to_nat iterations)
              (seq 0 (data_amount (self w))))
           (fun _ => ret PyNone) w0 /\
    update_w1 (self w0) = Some (Ny.zeros (Ny.nrows W1) (Ny.ncols W1)) /\
    update_w2 (self w0) = Some (Ny.zeros (Ny.nrows W2) (Ny.ncols W2)) /\
    heap w0 = heap w /\
    inputs (self w0) = inputs (self w) /\
    targets (self w0) = targets (self w) /\
    (* iteration 1 *)
    forall T : matrix,
      Ny.nrows W1 = Ny.ncols (inputs (self w)) ->
      Ny.nrows W2 = S (Ny.ncols W1) ->
      targets (self w) = Ny.Arr2 T ->
      shape T = (Ny.nrows (inputs (self w)), Ny.ncols W2) ->
      recognized ot ->
      (0 < iterations)%Z ->
      exists Hd out deltao deltah U1' U2' W1' W2' w1,
        _forward (inputs (self w)) w0 = (upd_self (with_hidden Hd) w0, Ok out) /\
        _compute_errors (upd_self (with_outputs out) (upd_self (with_hidden Hd) w0))
          = (upd_self (with_outputs out) (upd_self (with_hidden Hd) w0),
             Ok (deltao, deltah)) /\
        train_pass w0 = (w1, Ok tt) /\
        train RS eta0 iterations ot w =
          bind (reshuffle RS (seq 0 (data_amount (self w))))
               (fun shuffle =>
                  bind (train_loop RS (Z.to_nat iterations - 1) shuffle)
                       (fun _ => ret PyNone)) w1 /\
        update_w1 (self w1) = Some U1' /\
        update_w2 (self w1) = Some U2' /\
        heap w1 !! weights_layer1 (self w) = Some (Ny.Arr2 W1') /\
        heap w1 !! weights_layer2 (self w) = Some (Ny.Arr2 W2') /\
        (forall i j, i < Ny.nrows W1 -> j < Ny.ncols W1 ->
           let g := gradient (inputs (self w)) deltah i j in
           Ny.mget U1' i j =
             fadd (fmul (momentum (self w)) Ny.fzero) (fmul eta0 g) /\
           Ny.mget W1' i j = fadd (Ny.mget W1 i j) (Ny.mget U1' i j) /\
           (fmul (momentum (self w)) Ny.fzero = Ny.fzero ->
            fadd Ny.fzero (fmul eta0 g) = fmul eta0 g ->
            Ny.mget U1' i j = fmul eta0 g /\
            Ny.mget W1' i j = fadd (Ny.mget W1 i j) (fmul eta0 g))) /\
        (forall i j, i < Ny.nrows W2 -> j < Ny.ncols W2 ->
           let g := gradient Hd deltao i j in
           Ny.mget U2' i j =
             fadd (fmul (momentum (self w)) Ny.fzero) (fmul eta0 g) /\
           Ny.mget W2' i j = fadd (Ny.mget W2 i j) (Ny.mget U2' i j) /\
           (fmul (momentum (self w)) Ny.fzero = Ny.fzero ->
            fadd Ny.fzero (fmul eta0 g) = fmul eta0 g ->
            Ny.mget U2' i j = fmul eta0 g /\
            Ny.mget W2' i j = fadd (Ny.mget W2 i j) (fmul eta0 g))).
Proof.
  intros Hw.
  pose proof (train_entry_run eta0 ot w W1 W2 Hw) as Hentry.
  set (w0 := upd_self _ w) in Hentry.
  exists w0. split.
  { unfold train. unfold bind at 1. rewrite Hentry. reflexivity. }
  split; [reflexivity |]. split; [reflexivity |]. split; [reflexivity |].
  split; [reflexivity |]. split; [reflexivity |].
  intros T HW1 HW2 Htg HT Hrec Hpos.
  destruct (train_pass_run w0 W1 W2 T
              (Ny.zeros (Ny.nrows W1) (Ny.ncols W1))
              (Ny.zeros (Ny.nrows W2) (Ny.ncols W2)) ot eta0)
    as (Hd & out & deltao & deltah & U1' & U2' & W1' & W2'
        & Hfw & Hce & Hpass & _ & _ & _ & _ & F1 & F2);
    try assumption; try reflexivity.
  destruct Hw as (H1 & H2 & Hne).
  pose proof (lookup_lt_Some _ _ _ H1) as L1.
  pose proof (lookup_lt_Some _ _ _ H2) as L2.
  exists Hd, out, deltao, deltah, U1', U2', W1', W2'. eexists.
  split; [exact Hfw |]. split; [exact Hce |]. split; [exact Hpass |].
  split.
  { unfold train. unfold bind at 1. rewrite Hentry.
    destruct (Z.to_nat iterations) as [| n] eqn:En; [lia |].
    replace (S n - 1) with n by lia.
    cbn [train_loop]. unfold train_iteration.
    unfold bind at 1. unfold bind at 1. unfold bind at 1.
    rewrite Hpass. unfold bind.
    destruct (reshuffle RS _ _) as [w2 [s' | e]]; reflexivity. }
  subst w0. cbn.
  split; [reflexivity |]. split; [reflexivity |].
  split; [rewrite list_lookup_insert_ne by congruence;
          now apply list_lookup_insert_eq |].
  split; [apply list_lookup_insert_eq; now rewrite length_insert |].
  split; intros i j Hi Hj; cbv zeta.
  - destruct (F1 i j) as [E1 E2]; [exact Hi | exact Hj |].
    rewrite mget_zeros in E1 by assumption.
    assert (E : Ny.mget U1' i j =
                fadd (fmul (momentum (self w)) Ny.fzero)
                     (fmul eta0 (gradient (inputs (self w)) deltah i j)))
      by exact E1.
    split; [exact E |]. split; [exact E2 |].
    intros Hm Ha. rewrite Hm, Ha in E.
    split; [exact E | now rewrite E2, E].
  - destruct (F2 i j) as [E1 E2]; [exact Hi | exact Hj |].
    rewrite mget_zeros in E1 by assumption.
    assert (E : Ny.mget U2' i j =
                fadd (fmul (momentum (self w)) Ny.fzero)
                     (fmul eta0 (gradient Hd deltao i j)))
      by exact E1.
    split; [exact E |]. split; [exact E2 |].
    intros Hm Ha. rewrite Hm, Ha in E.
    split; [exact E | now rewrite E2, E].
Qed.

(** The rows of a selection of rows. *)
Lemma take_rows_row (A A' : matrix) (idx : list nat) (j : nat) :
  Ny.take_rows A idx = Ok A' ->
  j < length idx ->
  Ny.nrows A' = length idx /\ row A' j = row A (nth j idx 0).
Proof.
  unfold Ny.take_rows. destruct (forallb _ idx); [| discriminate].
  intros [= <-] Hj. split; [reflexivity |].
  unfold row. cbn [Ny.ncols Ny.mbuild].
  apply map_ext_in. intros c Hc. apply in_seq in Hc.
  now rewrite mget_mbuild by lia.
Qed.

(** The reshuffle at the end of an iteration applies one permutation to the
    stored inputs and targets. *)
Lemma reshuffle_rows (shuffle shuffle' : list nat) (w w' : World F) (T : matrix) :
  targets (self w) = Ny.Arr2 T ->
  reshuffle RS shuffle w = (w', Ok shuffle') ->
  shuffle' ≡ₚ shuffle /\
  exists T',
    targets (self w') = Ny.Arr2 T' /\
    Ny.nrows (inputs (self w')) = length shuffle' /\
    Ny.nrows T' = length shuffle' /\
    forall j, j < length shuffle' ->
      row (inputs (self w')) j = row (inputs (self w)) (nth j shuffle' 0) /\
      row T' j = row T (nth j shuffle' 0).
Proof.
  intros Htg. unfold reshuffle. munfold. cbn.
  destruct (Ny.take_rows (inputs (self w)) _) as [X' |] eqn:EX; [| discriminate].
  cbn. rewrite Htg. cbn.
  destruct (Ny.take_rows T _) as [T' |] eqn:ET; [| discriminate].
  cbn. intros [= <- <-]. split; [apply shuffled_perm |].
  exists T'. cbn. split; [reflexivity |].
  assert (HX : forall j, j < length (shuffled RS (rng w) shuffle) ->
                 Ny.nrows X' = length (shuffled RS (rng w) shuffle) /\
                 row X' j = row (inputs (self w)) (nth j (shuffled RS (rng w) shuffle) 0))
    by (intros j Hj; now apply take_rows_row).
  assert (HT : forall j, j < length (shuffled RS (rng w) shuffle) ->
                 Ny.nrows T' = length (shuffled RS (rng w) shuffle) /\
                 row T' j = row T (nth j (shuffled RS (rng w) shuffle) 0))
    by (intros j Hj; now apply take_rows_row).
  split; [| split].
  - unfold Ny.take_rows in EX. destruct (forallb _ _); [| discriminate].
    now injection EX as <-.
  - unfold Ny.take_rows in ET. destruct (forallb _ _); [| discriminate].
    now injection ET as <-.
  - intros j Hj. split; [apply HX | apply HT]; exact Hj.
Qed.

(** On a dataset whose inputs and targets have as many rows as [shuffle]
    permutes, the reshuffle does not fail. *)
Lemma reshuffle_total (shuffle : list nat) (w : World F) (T : matrix) :
  shuffle ≡ₚ seq 0 (Ny.nrows (inputs (self w))) ->
  targets (self w) = Ny.Arr2 T ->
  Ny.nrows T = Ny.nrows (inputs (self w)) ->
  exists w', reshuffle RS shuffle w = (w', Ok (shuffled RS (rng w) shuffle)).
Proof.
  intros Hperm Htg HT.
  assert (Hall : forall n, n = Ny.nrows (inputs (self w)) ->
            forallb (fun i => i <? n) (shuffled RS (rng w) shuffle) = true).
  { intros n ->. apply forallb_forall. intros i Hi.
    apply list_elem_of_In in Hi. rewrite shuffled_perm, Hperm in Hi.
    apply list_elem_of_In, in_seq in Hi. apply Nat.ltb_lt. lia. }
  unfold reshuffle. munfold. cbn. unfold Ny.take_rows at 1.
  rewrite (Hall _ eq_refl). cbn. rewrite Htg. cbn.
  unfold Ny.take_rows at 1. rewrite (Hall (Ny.nrows T) HT). cbn.
  eexists. reflexivity.
Qed.

(** C8.  In an iteration of [train] that runs to its end, the stored inputs
    and targets are permuted by one and the same permutation: every pair
    (input row, target row) of the dataset before the iteration is found
    together, at one index, after it; and the list [shuffle] is again a
    permutation of the row indices. *)
Theorem shuffle_keeps_pairs (shuffle shuffle' : list nat) (w w' : World F)
    (T : matrix) :
  shuffle ≡ₚ seq 0 (Ny.nrows (inputs (self w))) ->
  targets (self w) = Ny.Arr2 T ->
  train_iteration RS shuffle w = (w', Ok shuffle') ->
  shuffle' ≡ₚ seq 0 (Ny.nrows (inputs (self w))) /\
  exists T',
    targets (self w') = Ny.Arr2 T' /\
    Ny.nrows (inputs (self w')) = Ny.nrows (inputs (self w)) /\
    Ny.nrows T' = Ny.nrows (inputs (self w)) /\
    forall i, i < Ny.nrows (inputs (self w)) ->
      exists j, j < Ny.nrows (inputs (self w')) /\
                row (inputs (self w')) j = row (inputs (self w)) i /\
                row T' j = row T i.
Proof.
  intros Hperm Htg Hit. unfold train_iteration in Hit.
  apply bind_ok in Hit as ([] & w1 & Hpass & Hsh).
  pose proof (train_pass_same_data w) as Hsame. rewrite Hpass in Hsame.
  destruct Hsame as [Hin Htg1]. cbn in Hin, Htg1.
  rewrite Htg in Htg1.
  destruct (reshuffle_rows shuffle shuffle' w1 w' T Htg1 Hsh)
    as (Hp & T' & HT' & Hn & HnT & Hrows).
  rewrite Hin in Hrows.
  assert (Hperm' : shuffle' ≡ₚ seq 0 (Ny.nrows (inputs (self w))))
    by (now rewrite Hp).
  assert (Hlen : length shuffle' = Ny.nrows (inputs (self w)))
    by (rewrite Hperm'; apply length_seq).
  split; [exact Hperm' |]. exists T'.
  split; [exact HT' |]. split; [congruence |]. split; [congruence |].
  intros i Hi.
  assert (Hmem : i ∈ shuffle').
  { rewrite Hperm'. apply list_elem_of_In, in_seq. lia. }
  apply list_elem_of_lookup in Hmem as (j & Hj).
  pose proof (lookup_lt_Some _ _ _ Hj) as Hjlt.
  assert (Hnth : nth j shuffle' 0 = i) by (now apply nth_lookup_Some with (d := 0) in Hj).
  exists j. split; [lia |].
  destruct (Hrows j Hjlt) as [R1 R2]. rewrite Hnth in R1, R2. now split.
Qed.

(** [use] runs the computation of the Forward Pass under "logistic" on the
    bias-augmented row, whatever [outtype] the network holds, and changes
    nothing. *)
Lemma use_as_forward (x : list F) (w : World F) :
  use x w =
    (w, snd (_forward (augmented x) (upd_self (with_outtype "logistic") w))) /\
  forall ot : string,
    snd (use x (upd_self (with_outtype ot) w)) = snd (use x w).
Proof.
  assert (Huse : forall w0 : World F,
    use x w0 =
      (w0, snd (_forward (augmented x) (upd_self (with_outtype "logistic") w0)))).
  { intros w0. unfold use, Ny.array, Ny.rectangular. cbn [forallb length].
    rewrite Nat.eqb_refl. cbn [andb].
    unfold bind at 1. unfold lift at 1. rewrite concatenate1_bias.
    fold (augmented x).
    unfold _forward, output_activation. eqb_lits. munfold. cbn.
    destruct (default _ (heap w0 !! weights_layer1 (self w0))) as [W1 | ?];
      [| reflexivity]. cbn.
    destruct (Ny.dot (augmented x) W1) as [h |]; [| reflexivity]. cbn.
    destruct (Ny.concatenate1 _ _) as [h' |]; [| reflexivity]. cbn.
    destruct (default _ (heap w0 !! weights_layer2 (self w0))) as [W2 | ?];
      [| reflexivity]. cbn.
    destruct (Ny.dot h' W2) as [o |]; reflexivity. }
  split; [apply Huse |].
  intros ot. rewrite !Huse. reflexivity.
Qed.


(** * Further properties of the code *)

#[local] Arguments Nat.ltb : simpl never.

(** ** Construction *)

(** [__init__] builds a network exactly when the input rows have one width
    (which includes that there is a row) and there is a target row. *)
Theorem init_succeeds_iff (inputs0 targets0 : list (list F))
    (hidden_nodes : nat) (beta0 momentum0 : F)
    (heap0 : list (Ny.ndarray (F:=F))) (stdout0 : list (line F)) (rng0 : nat) :
  (exists w,
      __init__ RS inputs0 targets0 hidden_nodes beta0 momentum0 heap0 stdout0
        rng0 = Ok w)
  <-> Ny.rectangular inputs0 = true /\ targets0 <> [].
Proof.
  split.
  - intros [w Hw]. split.
    + now apply init_network_ok in Hw.
    + intros ->. unfold __init__ in Hw. destruct inputs0; discriminate.
  - intros [Hrect Htg].
    destruct inputs0 as [| in0 ins]; [discriminate |].
    destruct targets0 as [| tg0 tgs]; [contradiction |].
    destruct (init_ignores_targets in0 ins tg0 tgs hidden_nodes beta0 momentum0
                heap0 stdout0 rng0 Hrect) as (w & Hw & _).
    now exists w.
Qed.

(** The dataset a built network stores: the raw input rows, each followed by
    the bias feature -1; the sizes read off row 0; the targets as given; and
    no training attribute yet. *)
Theorem init_stores_dataset (inputs0 targets0 : list (list F))
    (hidden_nodes : nat) (beta0 momentum0 : F)
    (heap0 : list (Ny.ndarray (F:=F))) (stdout0 : list (line F)) (rng0 : nat)
    (w : World F) :
  __init__ RS inputs0 targets0 hidden_nodes beta0 momentum0 heap0 stdout0 rng0
    = Ok w ->
  nodes_in (self w) = length (hd [] inputs0) /\
  nodes_out (self w) = length (hd [] targets0) /\
  data_amount (self w) = length inputs0 /\
  nodes_hidden (self w) = hidden_nodes /\
  beta (self w) = beta0 /\ momentum (self w) = momentum0 /\
  shape (inputs (self w)) = (length inputs0, S (length (hd [] inputs0))) /\
  (forall i, i < length inputs0 ->
     (forall j, j < length (hd [] inputs0) ->
        Ny.mget (inputs (self w)) i j = nth j (nth i inputs0 []) Ny.fzero) /\
     Ny.mget (inputs (self w)) i (length (hd [] inputs0)) = fneg Ny.fone) /\
  targets (self w) = Ny.array targets0 /\
  eta (self w) = None /\ outtype (self w) = None /\
  update_w1 (self w) = None /\ update_w2 (self w) = None /\
  outputs (self w) = None /\ hidden (self w) = None.
Proof.
  unfold __init__.
  destruct inputs0 as [| in0 ins]; [discriminate |].
  destruct targets0 as [| tg0 tgs]; [discriminate |].
  unfold Ny.array at 1.
  destruct (Ny.rectangular (in0 :: ins)) eqn:Erect; [| discriminate].
  rewrite concatenate1_rows by (shapes; reflexivity).
  intros [= <-]. cbn [self inputs targets nodes_in nodes_out data_amount
                      nodes_hidden beta momentum eta outtype update_w1
                      update_w2 outputs hidden hd].
  repeat (split; [reflexivity |]).
  split; [shapes; f_equal; lia |].
  split; [| repeat split; reflexivity].
  intros i Hi. cbn [Ny.nrows Ny.ncols]. cbn [length] in Hi. split.
  - intros j Hj. rewrite mget_mbuild by (shapes; lia).
    apply Nat.ltb_lt in Hj. rewrite Hj. reflexivity.
  - rewrite mget_mbuild by (shapes; lia).
    rewrite Nat.ltb_irrefl, Nat.sub_diag.
    unfold Ny.neg_ones. now rewrite mget_mbuild by lia.
Qed.

(** The weights of a built network: two new arrays at the end of the object
    store, of shapes (nodes_in + 1, nodes_hidden) and (nodes_hidden + 1,
    nodes_out), filled row by row with consecutive uniform draws, layer 1
    first.  The objects the store held before are untouched and nothing is
    printed. *)
Theorem init_allocates_weights (inputs0 targets0 : list (list F))
    (hidden_nodes : nat) (beta0 momentum0 : F)
    (heap0 : list (Ny.ndarray (F:=F))) (stdout0 : list (line F)) (rng0 : nat)
    (w : World F) :
  __init__ RS inputs0 targets0 hidden_nodes beta0 momentum0 heap0 stdout0 rng0
    = Ok w ->
  let n_in := length (hd [] inputs0) in
  let n_out := length (hd [] targets0) in
  exists W1 W2,
    heap w = (heap0 ++ [Ny.Arr2 W1; Ny.Arr2 W2])%list /\
    weights_layer1 (self w) = length heap0 /\
    weights_layer2 (self w) = S (length heap0) /\
    weights_at w W1 W2 /\
    shape W1 = (n_in + 1, hidden_nodes) /\
    shape W2 = (hidden_nodes + 1, n_out) /\
    (forall i j, i < n_in + 1 -> j < hidden_nodes ->
       Ny.mget W1 i j = uniform RS (rng0 + i * hidden_nodes + j)) /\
    (forall i j, i < hidden_nodes + 1 -> j < n_out ->
       Ny.mget W2 i j =
         uniform RS (rng0 + (n_in + 1) * hidden_nodes + i * n_out + j)) /\
    rng w = rng0 + (n_in + 1) * hidden_nodes + (hidden_nodes + 1) * n_out /\
    stdout w = stdout0 /\
    forall l, l < length heap0 -> heap w !! l = heap0 !! l.
Proof.
  unfold __init__.
  destruct inputs0 as [| in0 ins]; [discriminate |].
  destruct targets0 as [| tg0 tgs]; [discriminate |].
  unfold Ny.array at 1.
  destruct (Ny.rectangular (in0 :: ins)) eqn:Erect; [| discriminate].
  rewrite concatenate1_rows by (shapes; reflexivity).
  intros [= <-]. cbv zeta. cbn [hd].
  eexists _, _. cbn [heap self weights_layer1 weights_layer2 rng stdout].
  split; [reflexivity |]. split; [reflexivity |]. split; [reflexivity |].
  split.
  { unfold weights_at. cbn. split; [| split; [| lia]].
    - rewrite lookup_app_r by lia. now rewrite Nat.sub_diag.
    - rewrite lookup_app_r by lia.
      now replace (S (length heap0) - length heap0) with 1 by lia. }
  split; [reflexivity |]. split; [reflexivity |].
  split; [intros i j Hi Hj; unfold rand; now rewrite mget_mbuild |].
  split; [intros i j Hi Hj; unfold rand; now rewrite mget_mbuild |].
  split; [reflexivity |]. split; [reflexivity |].
  intros l Hl. now apply lookup_app_l.
Qed.

(** ** The forward pass *)

Lemma forward_mismatch (X : matrix) (w : World F) (W1 W2 : matrix) :
  weights_at w W1 W2 ->
  Ny.ncols X <> Ny.nrows W1 ->
  _forward X w = (w, Raise ValueError).
Proof.
  intros (H1 & _ & _) Hne. unfold _forward. munfold. cbn.
  rewrite H1. cbn. unfold Ny.dot.
  apply Nat.eqb_neq in Hne. rewrite Hne. reflexivity.
Qed.

(** An input array whose width is not the number of rows of the layer-1
    weights makes [_forward] raise ValueError at once: nothing is recorded,
    not even the hidden activations. *)
Theorem forward_width_mismatch (X : matrix) (w : World F) (W1 W2 : matrix) :
  weights_at w W1 W2 ->
  Ny.ncols X <> Ny.nrows W1 ->
  _forward X w = (w, Raise ValueError).
Proof. apply forward_mismatch. Qed.

Lemma mget_map_elems (f : F -> F) (A : matrix) (i j : nat) :
  i < Ny.nrows A -> j < Ny.ncols A ->
  Ny.mget (Ny.map_elems f A) i j = f (Ny.mget A i j).
Proof. intros Hi Hj. unfold Ny.map_elems. now rewrite mget_mbuild. Qed.

Lemma mget_logistic (b : F) (A : matrix) (i j : nat) :
  i < Ny.nrows A -> j < Ny.ncols A ->
  Ny.mget (logistic b A) i j = sigmoid b (Ny.mget A i j).
Proof.
  intros Hi Hj. unfold logistic, sigmoid.
  now rewrite !mget_map_elems by (shapes; assumption).
Qed.

Lemma nth_map_seq (f : nat -> F) (n i : nat) :
  i < n -> nth i (map f (seq 0 n)) Ny.fzero = f i.
Proof.
  intros Hi.
  rewrite (nth_indep _ Ny.fzero (f 0)) by (now rewrite length_map, length_seq).
  rewrite (map_nth f (seq 0 n) 0 i). now rewrite seq_nth.
Qed.

(** The activation selection never changes the world: its [print] is never
    reached. *)
Lemma output_activation_world (ot : string) (out0 : matrix) (w : World F) :
  fst (output_activation ot out0 w) = w.
Proof.
  unfold output_activation.
  destruct (String.eqb ot "linear"); [reflexivity |].
  destruct (String.eqb ot "logistic"); [reflexivity |].
  destruct (String.eqb ot "softmax").
  - munfold. destruct (Ny.binop fmul _ _); [| reflexivity].
    destruct (Ny.binop fdiv _ _); reflexivity.
  - reflexivity.
Qed.

(** The two layers of [_forward] on a well-shaped network, entry by entry. *)
Lemma forward_layers (X : matrix) (w : World F) (W1 W2 : matrix) :
  weights_at w W1 W2 ->
  Ny.ncols X = Ny.nrows W1 ->
  Ny.nrows W2 = S (Ny.ncols W1) ->
  exists Hd out0,
    shape Hd = (Ny.nrows X, S (Ny.ncols W1)) /\
    shape out0 = (Ny.nrows X, Ny.ncols W2) /\
    (forall i, i < Ny.nrows X ->
       (forall j, j < Ny.ncols W1 ->
          Ny.mget Hd i j = sigmoid (beta (self w)) (inner X W1 i j)) /\
       Ny.mget Hd i (Ny.ncols W1) = fneg Ny.fone) /\
    (forall i j, i < Ny.nrows X -> j < Ny.ncols W2 ->
       Ny.mget out0 i j = inner Hd W2 i j) /\
    _forward X w =
      bind (getattr "outtype" outtype) (fun ot => output_activation ot out0)
        (upd_self (with_hidden Hd) w).
Proof.
  intros (H1 & H2 & Hne) HX HW.
  unfold _forward. munfold. cbn.
  rewrite H1. cbn. rewrite (dot_inner X W1 HX).
  rewrite concatenate1_rows by reflexivity. cbn.
  rewrite H2. cbn. rewrite dot_inner by (shapes; lia).
  eexists _, _. split; [| split; [| split; [| split; [| reflexivity]]]].
  - shapes. f_equal. lia.
  - reflexivity.
  - intros i Hi. split.
    + intros j Hj. rewrite mget_mbuild by (shapes; lia).
      match goal with
      | |- context [?a <? ?b] =>
          replace (a <? b) with true by (symmetry; apply Nat.ltb_lt; shapes; lia)
      end.
      rewrite mget_logistic by (shapes; lia).
      rewrite mget_mbuild by lia. reflexivity.
    + rewrite mget_mbuild by (shapes; lia).
      match goal with
      | |- context [?a <? ?b] =>
          replace (a <? b) with false by (symmetry; apply Nat.ltb_ge; shapes; lia)
      end.
      unfold Ny.neg_ones. rewrite mget_mbuild by (shapes; lia). reflexivity.
  - intros i j Hi Hj. rewrite mget_mbuild by (shapes; lia). reflexivity.
Qed.

(** The outputs under each of the three activations, entry by entry. *)
Lemma output_activation_entries (ot : string) (out0 : matrix) (w : World F) :
  recognized ot ->
  exists out,
    output_activation ot out0 w = (w, Ok out) /\
    shape out = shape out0 /\
    forall i j, i < Ny.nrows out0 -> j < Ny.ncols out0 ->
      (ot = "linear" -> Ny.mget out i j = Ny.mget out0 i j) /\
      (ot = "logistic" ->
       Ny.mget out i j = sigmoid (beta (self w)) (Ny.mget out0 i j)) /\
      (ot = "softmax" ->
       Ny.mget out i j =
         fdiv (fexp (Ny.mget out0 i j))
           (fmul (Ny.fsum (map (fun k => fexp (Ny.mget out0 i k))
                             (seq 0 (Ny.ncols out0))))
                 Ny.fone)).
Proof.
  intros [-> | [-> | ->]]; unfold output_activation; eqb_lits.
  - eexists. split; [reflexivity |]. split; [reflexivity |].
    intros i j Hi Hj.
    split; [reflexivity |]. split; intros E; discriminate E.
  - eexists. split; [reflexivity |]. split; [reflexivity |].
    intros i j Hi Hj.
    split; [intros E; discriminate E |].
    split; [intros _; now apply mget_logistic | intros E; discriminate E].
  - munfold.
    rewrite binop_same_shape
      by (shapes; unfold Ny.sum_axis1; now rewrite length_map, length_seq).
    unfold Ny.binop at 1.
    replace (Ny.bcompat _ _ && Ny.bcompat _ _) with true.
    2:{ symmetry. apply andb_true_iff. split.
        - unfold Ny.bcompat. shapes. cbn. now rewrite orb_true_r.
        - shapes. unfold Ny.sum_axis1. rewrite length_map, length_seq.
          shapes. apply bcompat_refl. }
    assert (Hlen : length (Ny.sum_axis1 (Ny.map_elems fexp out0)) = Ny.nrows out0).
    { unfold Ny.sum_axis1. now rewrite length_map, length_seq. }
    assert (Hbd : Ny.bdim (Ny.ncols out0) 1 = Ny.ncols out0).
    { unfold Ny.bdim. destruct (Ny.ncols out0 =? 1) eqn:E; [| reflexivity].
      apply Nat.eqb_eq in E. now rewrite E. }
    eexists. split; [reflexivity |]. split.
    { shapes. unfold Ny.sum_axis1. rewrite length_map, length_seq.
      cbn [Ny.nrows Ny.ncols]. rewrite bdim_refl, Hbd. reflexivity. }
    intros i j Hi Hj.
    split; [intros E; discriminate E |].
    split; [intros E; discriminate E |]. intros _.
    unfold Ny.transpose at 1.
    rewrite mget_mbuild
      by (shapes; unfold Ny.sum_axis1; rewrite ?length_map, ?length_seq;
          cbn [Ny.nrows Ny.ncols]; rewrite ?bdim_refl, ?Hbd; lia).
    rewrite mget_mbuild
      by (shapes; unfold Ny.sum_axis1; rewrite ?length_map, ?length_seq;
          cbn [Ny.nrows Ny.ncols]; rewrite ?bdim_refl, ?Hbd; lia).
    f_equal.
    + rewrite bget_inrange by (shapes; lia).
      unfold Ny.transpose. rewrite mget_mbuild by (shapes; lia).
      now rewrite mget_map_elems.
    + unfold Ny.bget.
      change (Ny.nrows (Ny.mbuild ?r ?c ?f)) with r.
      change (Ny.ncols (Ny.mbuild ?r ?c ?f)) with c.
      change (Ny.nrows (Ny.as_row ?v)) with 1.
      change (Ny.ncols (Ny.as_row ?v)) with (length v).
      cbn [Nat.eqb]. rewrite Hlen.
      replace (if Ny.nrows out0 =? 1 then 0 else i) with i
        by (destruct (Ny.nrows out0 =? 1) eqn:E1; [apply Nat.eqb_eq in E1; lia
                                                  | reflexivity]).
      rewrite mget_mbuild by lia.
      unfold Ny.ones. rewrite mget_mbuild by lia. f_equal.
      unfold Ny.as_row, Ny.mget at 1. cbn [Ny.cells nth].
      unfold Ny.sum_axis1.
      change (Ny.ncols (Ny.map_elems fexp out0)) with (Ny.ncols out0).
      change (Ny.nrows (Ny.map_elems fexp out0)) with (Ny.nrows out0).
      rewrite (nth_map_seq
                 (fun i0 => Ny.fsum (map (fun j0 => Ny.mget (Ny.map_elems fexp out0) i0 j0)
                                       (seq 0 (Ny.ncols out0)))) _ _ Hi).
      f_equal. apply map_ext_in. intros k Hk. apply in_seq in Hk.
      now rewrite mget_map_elems by lia.
Qed.

(** On a well-shaped network [_forward] records the hidden activations
    whatever [outtype] is, even when it then raises: one row per input row,
    the logistic function of the layer-1 products in the first columns and
    the bias -1 in the last one. *)
Theorem forward_hidden_layer (X : matrix) (w : World F) (W1 W2 : matrix) :
  weights_at w W1 W2 ->
  Ny.ncols X = Ny.nrows W1 ->
  Ny.nrows W2 = S (Ny.ncols W1) ->
  exists Hd,
    hidden (self (fst (_forward X w))) = Some Hd /\
    shape Hd = (Ny.nrows X, S (Ny.ncols W1)) /\
    forall i, i < Ny.nrows X ->
      (forall j, j < Ny.ncols W1 ->
         Ny.mget Hd i j = sigmoid (beta (self w)) (inner X W1 i j)) /\
      Ny.mget Hd i (Ny.ncols W1) = fneg Ny.fone.
Proof.
  intros Hw HX HW.
  destruct (forward_layers X w W1 W2 Hw HX HW)
    as (Hd & out0 & HHd & _ & Hent & _ & ->).
  exists Hd. split; [| split; assumption].
  unfold bind, getattr. cbn.
  destruct (outtype (self w)) as [ot |]; [| reflexivity].
  pose proof (output_activation_world ot out0 (upd_self (with_hidden Hd) w)) as E.
  destruct (output_activation ot out0 _) as [w' r]. cbn in E. subst w'.
  now destruct r.
Qed.

(** The outputs of [_forward] on a well-shaped network, entry by entry: with
    z the product of the hidden activations and the layer-2 weights, the
    output is z for "linear", the logistic function of z for "logistic",
    and exp(z) over the sum of the exponentials of its row (times 1.0) for
    "softmax".  There is a row per input row and a column per output. *)
Theorem forward_outputs (X : matrix) (w : World F) (W1 W2 : matrix)
    (ot : string) :
  weights_at w W1 W2 ->
  Ny.ncols X = Ny.nrows W1 ->
  Ny.nrows W2 = S (Ny.ncols W1) ->
  outtype (self w) = Some ot ->
  recognized ot ->
  exists Hd out,
    _forward X w = (upd_self (with_hidden Hd) w, Ok out) /\
    shape out = (Ny.nrows X, Ny.ncols W2) /\
    forall i j, i < Ny.nrows X -> j < Ny.ncols W2 ->
      (ot = "linear" -> Ny.mget out i j = inner Hd W2 i j) /\
      (ot = "logistic" ->
       Ny.mget out i j = sigmoid (beta (self w)) (inner Hd W2 i j)) /\
      (ot = "softmax" ->
       Ny.mget out i j =
         fdiv (fexp (inner Hd W2 i j))
           (fmul (Ny.fsum (map (fun k => fexp (inner Hd W2 i k))
                             (seq 0 (Ny.ncols W2))))
                 Ny.fone)).
Proof.
  intros Hw HX HW Hot Hrec.
  destruct (forward_layers X w W1 W2 Hw HX HW)
    as (Hd & out0 & _ & Hsh0 & _ & Hz & ->).
  destruct (output_activation_entries ot out0 (upd_self (with_hidden Hd) w) Hrec)
    as (out & Hact & Hsh & Hent).
  unfold shape in Hsh0. injection Hsh0 as Hr0 Hc0.
  exists Hd, out. split; [| split].
  - unfold bind, getattr. cbn. rewrite Hot. exact Hact.
  - rewrite Hsh. unfold shape. congruence.
  - intros i j Hi Hj.
    destruct (Hent i j) as (E1 & E2 & E3); [lia | lia |].
    split; [| split]; intros Eot.
    + rewrite (E1 Eot). now apply Hz.
    + rewrite (E2 Eot). cbn. now rewrite Hz.
    + rewrite (E3 Eot), Hc0, Hz by assumption. do 3 f_equal.
      apply map_ext_in. intros k Hk. apply in_seq in Hk.
      rewrite Hz by lia. reflexivity.
Qed.

#[local] Instance hidden_only_refl : Reflexive (hidden_only (F:=F)).
Proof. intros w. unfold hidden_only. repeat split. Qed.
#[local] Instance hidden_only_trans : Transitive (hidden_only (F:=F)).
Proof.
  unfold hidden_only. intros a b c Hab Hbc.
  repeat match goal with
         | Hx : _ /\ _ |- _ => destruct Hx
         end.
  repeat split; congruence.
Qed.

Lemma forward_hidden_only (X : matrix) : preserves hidden_only (_forward X).
Proof.
  unfold _forward.
  repeat first
    [ keep_step
    | match goal with
      | |- preserves _ (set_self _) =>
          intros ?w; unfold hidden_only; cbn; repeat split; reflexivity
      | |- preserves _ (output_activation _ _) =>
          apply preserves_pure; [typeclasses eauto |];
          apply output_activation_world
      end ].
Qed.

(** Whatever its arguments and however it ends, [_forward] writes nothing
    but the attribute [hidden]: the object store, the console, the random
    source and every other attribute are as before.  In particular the
    message of its [else] branch is never printed. *)
Theorem forward_only_records_hidden (X : matrix) (w : World F) :
  hidden_only w (fst (_forward X w)).
Proof. apply forward_hidden_only. Qed.

(** ** The backward pass *)

(** [_compute_errors] changes nothing at all, whether it returns or
    raises. *)
Theorem backward_pass_changes_nothing (w : World F) :
  fst (_compute_errors w) = w.
Proof. apply compute_errors_pure. Qed.

(** The hidden error of a backward pass on a well-shaped network, entry by
    entry: hidden . (1 - hidden) times the output error propagated back
    through the layer-2 weights, bias column included. *)
Theorem hidden_error_backpropagation (w : World F) (T O Hd W2 : matrix)
    (ot : string) :
  targets (self w) = Ny.Arr2 T ->
  outputs (self w) = Some O ->
  shape T = shape O ->
  hidden (self w) = Some Hd ->
  Ny.nrows Hd = Ny.nrows O ->
  heap w !! weights_layer2 (self w) = Some (Ny.Arr2 W2) ->
  shape W2 = (Ny.ncols Hd, Ny.ncols O) ->
  outtype (self w) = Some ot ->
  recognized ot ->
  exists deltao deltah,
    _compute_errors w = (w, Ok (deltao, deltah)) /\
    shape deltah = shape Hd /\
    forall i j, i < Ny.nrows Hd -> j < Ny.ncols Hd ->
      Ny.mget deltah i j =
        fmul (fmul (Ny.mget Hd i j) (fsub Ny.fone (Ny.mget Hd i j)))
          (Ny.fsum (map (fun k => fmul (Ny.mget deltao i k) (Ny.mget W2 j k))
                      (seq 0 (Ny.ncols O)))).
Proof.
  intros Htg Hout HT Hhid HHd H2 HW2 Hot Hrec.
  unfold shape in HT, HW2. injection HT as HTr HTc. injection HW2 as HWr HWc.
  assert (Htail : forall D : matrix,
    shape D = (Ny.nrows O, Ny.ncols O) ->
    exists deltah,
      bind (getattr "hidden" hidden)
        (fun h => bind (getattr "hidden" hidden)
           (fun h' => bind (lift (Ny.binop fmul h (Ny.map_elems (fsub Ny.fone) h')))
              (fun deltah0 => bind (load_weights weights_layer2)
                 (fun w2 => bind (lift (Ny.dot D (Ny.transpose w2)))
                    (fun p => bind (lift (Ny.iop fmul deltah0 p))
                       (fun deltah1 => ret (D, deltah1))))))) w
      = (w, Ok (D, deltah)) /\
      shape deltah = shape Hd /\
      forall i j, i < Ny.nrows Hd -> j < Ny.ncols Hd ->
        Ny.mget deltah i j =
          fmul (fmul (Ny.mget Hd i j) (fsub Ny.fone (Ny.mget Hd i j)))
            (Ny.fsum (map (fun k => fmul (Ny.mget D i k) (Ny.mget W2 j k))
                        (seq 0 (Ny.ncols O))))).
  { intros D HD. unfold shape in HD. injection HD as HDr HDc.
    munfold. cbn. repeat (rewrite ?Hhid; cbn).
    rewrite binop_same_shape by reflexivity. rewrite H2. cbn.
    rewrite dot_inner by (shapes; congruence).
    rewrite iop_same_shape by (shapes; congruence).
    eexists. split; [reflexivity |]. split; [reflexivity |].
    intros i j Hi Hj.
    repeat rewrite mget_mbuild by (shapes; lia).
    rewrite mget_map_elems by lia.
    f_equal. rewrite HDc. f_equal.
    apply map_ext_in. intros k Hk. apply in_seq in Hk.
    unfold Ny.transpose. rewrite mget_mbuild by lia. reflexivity. }
  unfold _compute_errors.
  unfold bind at 1. unfold attr at 1.
  unfold bind at 1. unfold getattr at 1. rewrite Hout.
  unfold bind at 1. unfold lift at 1. rewrite Htg. cbn [sub_nd].
  rewrite binop_same_shape by (shapes; congruence).
  unfold bind at 1. unfold getattr at 1. rewrite Hot.
  destruct Hrec as [-> | [-> | ->]]; eqb_lits.
  - unfold bind at 1. unfold bind at 1. unfold attr at 1. unfold ret at 1.
    match goal with
    | |- context [bind _ _ w] =>
        destruct (Htail (Ny.map_elems
                           (fun x => fdiv x (Ny.of_nat (data_amount (self w))))
                           (Ny.mbuild (Ny.nrows T) (Ny.ncols T)
                              (fun i j => fsub (Ny.mget T i j) (Ny.mget O i j)))))
          as (deltah & Hrun & Hsh & Hform); [shapes; congruence |]
    end.
    eexists _, deltah. split; [exact Hrun |]. split; assumption.
  - unfold bind at 1. unfold bind at 1. unfold getattr at 1. rewrite Hout.
    unfold bind at 1. unfold getattr at 1. rewrite Hout.
    unfold bind at 1. unfold lift at 1.
    rewrite binop_same_shape by reflexivity.
    unfold lift at 1. rewrite iop_same_shape by (shapes; congruence).
    match goal with
    | |- context [bind _ _ w] =>
        destruct (Htail (Ny.mbuild (Ny.nrows T) (Ny.ncols T)
                           (fun i j =>
                              fmul (Ny.mget (Ny.mbuild (Ny.nrows T) (Ny.ncols T)
                                               (fun i0 j0 => fsub (Ny.mget T i0 j0)
                                                               (Ny.mget O i0 j0))) i j)
                                   (Ny.mget (Ny.mbuild (Ny.nrows O) (Ny.ncols O)
                                               (fun i0 j0 => fmul (Ny.mget O i0 j0)
                                                               (Ny.mget (Ny.map_elems (fsub Ny.fone) O) i0 j0))) i j))))
          as (deltah & Hrun & Hsh & Hform); [shapes; congruence |]
    end.
    eexists _, deltah. split; [exact Hrun |]. split; assumption.
  - unfold bind at 1. unfold bind at 1. unfold attr at 1. unfold ret at 1.
    match goal with
    | |- context [bind _ _ w] =>
        destruct (Htail (Ny.map_elems
                           (fun x => fdiv x (Ny.of_nat (data_amount (self w))))
                           (Ny.mbuild (Ny.nrows T) (Ny.ncols T)
                              (fun i j => fsub (Ny.mget T i j) (Ny.mget O i j)))))
          as (deltah & Hrun & Hsh & Hform); [shapes; congruence |]
    end.
    eexists _, deltah. split; [exact Hrun |]. split; assumption.
Qed.

(** ** Inference *)

Lemma load_weights_ok (f : MLP F -> loc) (w : World F) (W : matrix) :
  heap w !! f (self w) = Some (Ny.Arr2 W) ->
  load_weights f w = (w, Ok W).
Proof. intros E. unfold load_weights. munfold. cbn. now rewrite E. Qed.

Lemma use_run (x : list F) (w : World F) (W1 W2 : matrix) :
  weights_at w W1 W2 ->
  length x + 1 = Ny.nrows W1 ->
  Ny.nrows W2 = S (Ny.ncols W1) ->
  exists Hd out,
    use x w = (w, Ok out) /\
    shape out = (1, Ny.ncols W2) /\
    shape Hd = (1, S (Ny.ncols W1)) /\
    (forall j, j < Ny.ncols W1 ->
       Ny.mget Hd 0 j = sigmoid (beta (self w)) (inner (augmented x) W1 0 j)) /\
    Ny.mget Hd 0 (Ny.ncols W1) = fneg Ny.fone /\
    (forall j, j < Ny.ncols W2 ->
       Ny.mget out 0 j = sigmoid (beta (self w)) (inner Hd W2 0 j)).
Proof.
  intros (H1 & H2 & Hne) Hx HW.
  unfold use, Ny.array, Ny.rectangular. cbn [forallb length].
  rewrite Nat.eqb_refl. cbn [andb].
  unfold bind at 1. unfold lift at 1. rewrite concatenate1_bias.
  fold (augmented x). cbv beta iota.
  unfold bind at 1. rewrite (load_weights_ok _ _ _ H1). cbv beta iota.
  unfold bind at 1. unfold lift at 1. rewrite dot_inner by exact Hx.
  cbv beta iota.
  unfold bind at 1. unfold attr at 1. cbv beta iota.
  unfold bind at 1. unfold lift at 1.
  rewrite concatenate1_rows by reflexivity. cbv beta iota.
  unfold bind at 1. rewrite (load_weights_ok _ _ _ H2). cbv beta iota.
  match goal with
  | |- context [Ny.dot ?h W2] => set (Hd := h)
  end.
  assert (HHd : shape Hd = (1, S (Ny.ncols W1)))
    by (subst Hd; shapes; f_equal; lia).
  assert (HHdr : Ny.nrows Hd = 1) by (now apply (f_equal fst) in HHd).
  assert (HHdc : Ny.ncols Hd = S (Ny.ncols W1)) by (now apply (f_equal snd) in HHd).
  unfold bind at 1. unfold lift at 1. rewrite dot_inner by congruence.
  cbv beta iota. unfold bind at 1. unfold attr at 1. cbv beta iota.
  unfold ret.
  exists Hd. eexists. split; [reflexivity |].
  split; [shapes; now rewrite HHdr |].
  split; [unfold shape; congruence |].
  split; [| split].
  - intros j Hj. subst Hd. rewrite mget_mbuild by (unfold augmented; shapes; lia).
    match goal with
    | |- context [?a <? ?b] =>
        replace (a <? b) with true by (symmetry; apply Nat.ltb_lt; unfold augmented; shapes; lia)
    end.
    rewrite mget_logistic by (unfold augmented; shapes; lia).
    rewrite mget_mbuild by (unfold augmented; shapes; lia). reflexivity.
  - subst Hd. rewrite mget_mbuild by (unfold augmented; shapes; lia).
    match goal with
    | |- context [?a <? ?b] =>
        replace (a <? b) with false by (symmetry; apply Nat.ltb_ge; unfold augmented; shapes; lia)
    end.
    unfold Ny.neg_ones. rewrite mget_mbuild by (unfold augmented; shapes; lia). reflexivity.
  - intros j Hj. rewrite mget_logistic by (unfold augmented; shapes; lia).
    rewrite mget_mbuild by lia. reflexivity.
Qed.

(** On a network whose layer-1 weights have one row more than the raw input
    vector has features, [use] returns a single row with one entry per
    output: the logistic function of the layer-2 products of the hidden
    row, which is the logistic function of the layer-1 products of the
    vector followed by the bias -1.  The world is unchanged. *)
Theorem use_on_right_width (x : list F) (w : World F) (W1 W2 : matrix) :
  weights_at w W1 W2 ->
  length x + 1 = Ny.nrows W1 ->
  Ny.nrows W2 = S (Ny.ncols W1) ->
  exists Hd out,
    use x w = (w, Ok out) /\
    shape out = (1, Ny.ncols W2) /\
    shape Hd = (1, S (Ny.ncols W1)) /\
    (forall j, j < Ny.ncols W1 ->
       Ny.mget Hd 0 j = sigmoid (beta (self w)) (inner (augmented x) W1 0 j)) /\
    Ny.mget Hd 0 (Ny.ncols W1) = fneg Ny.fone /\
    (forall j, j < Ny.ncols W2 ->
       Ny.mget out 0 j = sigmoid (beta (self w)) (inner Hd W2 0 j)).
Proof. apply use_run. Qed.

(** A raw input vector of any other length makes [use] raise ValueError,
    and changes nothing. *)
Theorem use_on_wrong_width (x : list F) (w : World F) (W1 W2 : matrix) :
  weights_at w W1 W2 ->
  length x + 1 <> Ny.nrows W1 ->
  use x w = (w, Raise ValueError).
Proof.
  intros (H1 & H2 & Hne) Hx.
  unfold use, Ny.array, Ny.rectangular. cbn [forallb length].
  rewrite Nat.eqb_refl. cbn [andb].
  unfold bind at 1. unfold lift at 1. rewrite concatenate1_bias.
  munfold. cbn. rewrite H1. cbn. unfold Ny.dot. cbn [Ny.ncols].
  apply Nat.eqb_neq in Hx. rewrite Hx. reflexivity.
Qed.

(** ** Training without iterations *)

(** With [iterations] zero or negative, [train] runs no pass: it records the
    learning rate and the activation name (even an unknown one), resets the
    accumulators, and returns None; the weights, the dataset, the console
    and the random source are as before. *)
Theorem train_no_iterations (eta0 : F) (iterations : Z) (outtype0 : string)
    (w : World F) (W1 W2 : matrix) :
  weights_at w W1 W2 ->
  (iterations <= 0)%Z ->
  exists w',
    train RS eta0 iterations outtype0 w = (w', Ok PyNone) /\
    heap w' = heap w /\ stdout w' = stdout w /\ rng w' = rng w /\
    inputs (self w') = inputs (self w) /\
    targets (self w') = targets (self w) /\
    eta (self w') = Some eta0 /\
    outtype (self w') = Some outtype0 /\
    update_w1 (self w') = Some (Ny.zeros (Ny.nrows W1) (Ny.ncols W1)) /\
    update_w2 (self w') = Some (Ny.zeros (Ny.nrows W2) (Ny.ncols W2)).
Proof.
  intros Hw Hit. unfold train. unfold bind at 1.
  rewrite (train_entry_run eta0 outtype0 w W1 W2 Hw).
  replace (Z.to_nat iterations) with 0 by lia. cbn [train_loop].
  eexists. split; [reflexivity |]. repeat split.
Qed.

(** ** A whole training run *)

Lemma row_rows_of (A : matrix) (idx : list nat) (j : nat) :
  j < length idx -> row (rows_of A idx) j = row A (nth j idx 0).
Proof.
  intros Hj. unfold row, rows_of. cbn [Ny.ncols Ny.mbuild].
  apply map_ext_in. intros c Hc. apply in_seq in Hc.
  now rewrite mget_mbuild by lia.
Qed.

Lemma nth_perm_range (s : list nat) (n j : nat) :
  s ≡ₚ seq 0 n -> j < n -> nth j s 0 < n.
Proof.
  intros Hp Hj.
  assert (Hlen : length s = n) by (rewrite Hp; apply length_seq).
  assert (Hall : forall v, In v s -> v < n).
  { intros v Hv. apply list_elem_of_In in Hv. rewrite Hp in Hv.
    apply list_elem_of_In, in_seq in Hv. lia. }
  apply Hall, nth_In. lia.
Qed.

Lemma nth_map_default (f : nat -> nat) (s : list nat) (j : nat) :
  j < length s -> nth j (map f s) 0 = f (nth j s 0).
Proof.
  intros Hj. rewrite (nth_indep _ 0 (f 0)) by (now rewrite length_map).
  apply map_nth.
Qed.

(** The reshuffle, on a dataset with a target row for every input row. *)
Lemma reshuffle_run (shuffle : list nat) (w : World F) (T : matrix) :
  shuffle ≡ₚ seq 0 (Ny.nrows (inputs (self w))) ->
  targets (self w) = Ny.Arr2 T ->
  Ny.nrows T = Ny.nrows (inputs (self w)) ->
  reshuffle RS shuffle w =
    ({| heap := heap w; stdout := stdout w; rng := S (rng w);
        self := with_targets
                  (Ny.Arr2 (rows_of T (shuffled RS (rng w) shuffle)))
                  (with_inputs
                     (rows_of (inputs (self w)) (shuffled RS (rng w) shuffle))
                     (self w)) |},
     Ok (shuffled RS (rng w) shuffle)).
Proof.
  intros Hperm Htg HT.
  assert (Hall : forall n, n = Ny.nrows (inputs (self w)) ->
            forallb (fun i => i <? n) (shuffled RS (rng w) shuffle) = true).
  { intros n ->. apply forallb_forall. intros i Hi.
    apply list_elem_of_In in Hi. rewrite shuffled_perm, Hperm in Hi.
    apply list_elem_of_In, in_seq in Hi. apply Nat.ltb_lt. lia. }
  unfold reshuffle. munfold. cbn. unfold Ny.take_rows at 1.
  rewrite (Hall _ eq_refl). cbn. rewrite Htg. cbn.
  unfold Ny.take_rows at 1. rewrite (Hall (Ny.nrows T) HT). cbn.
  reflexivity.
Qed.

(** Reordering composes. *)
Lemma reordered_step (w w1 w2 : World F) (T1 : matrix) (s : list nat) :
  reordered w w1 ->
  targets (self w1) = Ny.Arr2 T1 ->
  targets (self w2) = Ny.Arr2 (rows_of T1 s) ->
  inputs (self w2) = rows_of (inputs (self w1)) s ->
  s ≡ₚ seq 0 (Ny.nrows (inputs (self w1))) ->
  reordered w w2.
Proof.
  intros (T & T1' & idx1 & HT & HT1 & Hp1 & Hn1 & HnT1 & Hrows1) Htg1 Htg2 Hin2 Hs.
  rewrite Htg1 in HT1. injection HT1 as <-.
  rewrite Hn1 in Hs.
  assert (Hls : length s = Ny.nrows (inputs (self w)))
    by (rewrite Hs; apply length_seq).
  assert (Hl1 : length idx1 = Ny.nrows (inputs (self w)))
    by (rewrite Hp1; apply length_seq).
  exists T, (rows_of T1 s), (map (fun k => nth k idx1 0) s).
  split; [exact HT |]. split; [exact Htg2 |].
  split; [| split; [| split]].
  - rewrite Hs. rewrite <- Hl1. rewrite (map_nth_seq idx1 0).
    now rewrite Hl1.
  - rewrite Hin2. exact Hls.
  - exact Hls.
  - intros j Hj.
    pose proof (nth_perm_range s _ j Hs Hj) as Hr.
    destruct (Hrows1 _ Hr) as [R1 R2].
    rewrite nth_map_default by lia.
    rewrite Hin2, !row_rows_of by lia. now split.
Qed.

Lemma reordered_refl (w : World F) (T : matrix) :
  targets (self w) = Ny.Arr2 T ->
  Ny.nrows T = Ny.nrows (inputs (self w)) ->
  reordered w w.
Proof.
  intros HT Hn. exists T, T, (seq 0 (Ny.nrows (inputs (self w)))).
  repeat split; try assumption; try reflexivity;
    now rewrite seq_nth by assumption.
Qed.

(** One iteration of [train] on a trainable network. *)
Lemma train_iteration_run (ot : string) (shuffle : list nat) (w : World F)
    (T : matrix) :
  in_training ot w ->
  recognized ot ->
  targets (self w) = Ny.Arr2 T ->
  shuffle ≡ₚ seq 0 (Ny.nrows (inputs (self w))) ->
  exists w',
    train_iteration RS shuffle w = (w', Ok (shuffled RS (rng w) shuffle)) /\
    in_training ot w' /\
    targets (self w') = Ny.Arr2 (rows_of T (shuffled RS (rng w) shuffle)) /\
    inputs (self w') = rows_of (inputs (self w)) (shuffled RS (rng w) shuffle) /\
    weight_shapes w' = weight_shapes w /\
    frame w w' /\
    length (heap w') = length (heap w) /\
    stdout w' = stdout w /\
    rng w' = S (rng w) /\
    eta (self w') = eta (self w).
Proof.
  intros (W1 & W2 & T0 & U1 & U2 & e & Hw & HW1 & HW2 & Htg & HT & Hot & He
          & Hu1 & Hu2 & HU1 & HU2 & Hda) Hrec HtgT Hperm.
  rewrite HtgT in Htg. injection Htg as <-.
  destruct (train_pass_run w W1 W2 T U1 U2 ot e)
    as (Hd & out & deltao & deltah & U1' & U2' & W1' & W2'
        & _ & _ & Hpass & S1 & S2 & S3 & S4 & _ & _); try assumption.
  pose proof Hw as (H1 & H2 & Hne).
  pose proof (lookup_lt_Some _ _ _ H1) as L1.
  pose proof (lookup_lt_Some _ _ _ H2) as L2.
  unfold shape in HT, S1, S2, S3, S4, HU1, HU2.
  injection HT as HTr HTc. injection S1 as S1r S1c. injection S2 as S2r S2c.
  injection S3 as S3r S3c. injection S4 as S4r S4c.
  injection HU1 as HU1r HU1c. injection HU2 as HU2r HU2c.
  unfold train_iteration. unfold bind at 1. rewrite Hpass.
  rewrite (reshuffle_run shuffle _ T); [| exact Hperm | exact HtgT | exact HTr].
  cbn [rng inputs self with_update_w1 with_update_w2 with_outputs with_hidden].
  assert (Hls : length (shuffled RS (rng w) shuffle)
                = Ny.nrows (inputs (self w)))
    by (rewrite shuffled_perm, Hperm; apply length_seq).
  eexists. split; [reflexivity |].
  assert (Hl1 : forall h : list (Ny.ndarray (F:=F)),
            h = <[weights_layer2 (self w) := Ny.Arr2 W2']>
                  (<[weights_layer1 (self w) := Ny.Arr2 W1']> (heap w)) ->
            h !! weights_layer1 (self w) = Some (Ny.Arr2 W1') /\
            h !! weights_layer2 (self w) = Some (Ny.Arr2 W2')).
  { intros h ->. split.
    - rewrite list_lookup_insert_ne by congruence.
      now apply list_lookup_insert_eq.
    - apply list_lookup_insert_eq. now rewrite length_insert. }
  destruct (Hl1 _ eq_refl) as [L1' L2'].
  split; [| split; [reflexivity | split; [reflexivity | split; [| split; [| split]]]]].
  - exists W1', W2', (rows_of T (shuffled RS (rng w) shuffle)), U1', U2', e.
    unfold weights_at. cbn.
    repeat split; try assumption; try congruence;
      unfold rows_of; shapes; try (f_equal; congruence); congruence.
  - unfold weight_shapes. cbn. rewrite L1', L2', H1, H2.
    unfold shape. do 2 f_equal; f_equal; congruence.
  - unfold frame. cbn. repeat split.
    intros l Hl1' Hl2'. now rewrite !list_lookup_insert_ne by congruence.
  - cbn. now rewrite !length_insert.
  - repeat split; reflexivity.
Qed.

(** The loop of [train] on a trainable network. *)
Lemma train_loop_run (ot : string) (n : nat) :
  recognized ot ->
  forall (shuffle : list nat) (w : World F),
    in_training ot w ->
    shuffle ≡ₚ seq 0 (Ny.nrows (inputs (self w))) ->
    exists w',
      train_loop RS n shuffle w = (w', Ok tt) /\
      in_training ot w' /\
      reordered w w' /\
      weight_shapes w' = weight_shapes w /\
      frame w w' /\
      length (heap w') = length (heap w) /\
      stdout w' = stdout w /\
      rng w' = rng w + n /\
      eta (self w') = eta (self w).
Proof.
  intros Hrec. induction n as [| n IH]; intros shuffle w Hin Hperm.
  - exists w. cbn [train_loop].
    pose proof Hin as (W1 & W2 & T & U1 & U2 & e & _ & _ & _ & Htg & HT & _).
    unfold shape in HT. injection HT as HTr HTc.
    split; [reflexivity |]. split; [exact Hin |].
    split; [now apply (reordered_refl w T) |].
    split; [reflexivity |]. split; [reflexivity |].
    split; [reflexivity |]. split; [reflexivity |]. split; [lia | reflexivity].
  - pose proof Hin as (W1 & W2 & T & U1 & U2 & e & _ & _ & _ & Htg & HT & _).
    unfold shape in HT. injection HT as HTr HTc.
    destruct (train_iteration_run ot shuffle w T Hin Hrec Htg Hperm)
      as (w1 & Hit & Hin1 & Htg1 & Hx1 & Hsh1 & Hfr1 & Hlen1 & Hout1 & Hrng1
          & Heta1).
    assert (Hls : length (shuffled RS (rng w) shuffle)
                  = Ny.nrows (inputs (self w)))
      by (rewrite shuffled_perm, Hperm; apply length_seq).
    assert (Hperm1 : shuffled RS (rng w) shuffle
                     ≡ₚ seq 0 (Ny.nrows (inputs (self w1)))).
    { rewrite Hx1. unfold rows_of. cbn [Ny.nrows Ny.mbuild]. rewrite Hls.
      now rewrite shuffled_perm. }
    destruct (IH _ w1 Hin1 Hperm1)
      as (w' & Hloop & Hin' & Hre & Hsh & Hfr & Hlen & Hout & Hrng & Heta).
    exists w'. cbn [train_loop]. unfold bind at 1. rewrite Hit.
    split; [exact Hloop |]. split; [exact Hin' |].
    split; [| split; [congruence | split; [| split; [congruence |
      split; [congruence | split; [lia | congruence]]]]]].
    + destruct Hre as (T1 & T' & idx & HT1 & HT' & Hp & Hn & HnT & Hrows).
      rewrite Htg1 in HT1. injection HT1 as <-.
      assert (Hn1 : Ny.nrows (inputs (self w1)) = Ny.nrows (inputs (self w))).
      { rewrite Hx1. unfold rows_of. cbn [Ny.nrows Ny.mbuild]. exact Hls. }
      rewrite Hn1 in Hp, Hn, HnT, Hrows.
      assert (R1 : reordered w w1).
      { apply (reordered_step w w w1 T (shuffled RS (rng w) shuffle)).
        - now apply (reordered_refl w T).
        - exact Htg.
        - exact Htg1.
        - exact Hx1.
        - now rewrite shuffled_perm. }
      destruct R1 as (T0 & T1 & idx1 & HT0 & HT1 & Hp1 & Hn1' & HnT1 & Hrows1).
      rewrite Htg in HT0. injection HT0 as <-.
      rewrite Htg1 in HT1. injection HT1 as <-.
      exists T, T', (map (fun k => nth k idx1 0) idx).
      assert (Hli : length idx = Ny.nrows (inputs (self w)))
        by (rewrite Hp; apply length_seq).
      assert (Hl1 : length idx1 = Ny.nrows (inputs (self w)))
        by (rewrite Hp1; apply length_seq).
      split; [exact Htg |]. split; [exact HT' |].
      split; [| split; [exact Hn | split; [exact HnT |]]].
      * rewrite Hp. rewrite <- Hl1. rewrite (map_nth_seq idx1 0).
        now rewrite Hl1.
      * intros j Hj.
        pose proof (nth_perm_range idx _ j Hp Hj) as Hr.
        destruct (Hrows j Hj) as [Ra Rb].
        destruct (Hrows1 _ Hr) as [Rc Rd].
        rewrite nth_map_default by lia.
        split; congruence.
    + now transitivity w1.
Qed.

Lemma in_training_trainable (ot : string) (w : World F) :
  in_training ot w -> trainable w.
Proof.
  intros (W1 & W2 & T & U1 & U2 & e & Hw & HW1 & HW2 & Htg & HT & _ & _ & _
          & _ & _ & _ & Hda).
  now exists W1, W2, T.
Qed.

(** [train] on a trainable network with a recognized activation. *)
Lemma train_run (eta0 : F) (iterations : Z) (ot : string) (w : World F) :
  trainable w ->
  recognized ot ->
  exists w',
    train RS eta0 iterations ot w = (w', Ok PyNone) /\
    in_training ot w' /\
    eta (self w') = Some eta0 /\
    reordered w w' /\
    weight_shapes w' = weight_shapes w /\
    frame w w' /\
    length (heap w') = length (heap w) /\
    stdout w' = stdout w /\
    rng w' = rng w + Z.to_nat iterations.
Proof.
  intros (W1 & W2 & T & Hw & HW1 & HW2 & Htg & HT & Hda) Hrec.
  unfold train. unfold bind at 1. rewrite (train_entry_run eta0 ot w W1 W2 Hw).
  set (w1 := upd_self _ w).
  assert (Hin : in_training ot w1).
  { exists W1, W2, T, (Ny.zeros (Ny.nrows W1) (Ny.ncols W1)),
      (Ny.zeros (Ny.nrows W2) (Ny.ncols W2)), eta0.
    repeat split; try assumption; apply Hw. }
  assert (Hperm : seq 0 (data_amount (self w))
                  ≡ₚ seq 0 (Ny.nrows (inputs (self w1))))
    by (now rewrite Hda).
  destruct (train_loop_run ot (Z.to_nat iterations) Hrec _ w1 Hin Hperm)
    as (w' & Hloop & Hin' & Hre & Hsh & Hfr & Hlen & Hout & Hrng & Heta).
  exists w'. unfold bind at 1. rewrite Hloop.
  split; [reflexivity |]. split; [exact Hin' |].
  split; [exact Heta | split; [exact Hre | split; [exact Hsh | split; [exact Hfr |
    split; [exact Hlen | split; [exact Hout | exact Hrng]]]]]].
Qed.

Lemma init_trainable (inputs0 targets0 : list (list F))
    (hidden_nodes : nat) (beta0 momentum0 : F)
    (heap0 : list (Ny.ndarray (F:=F))) (stdout0 : list (line F)) (rng0 : nat)
    (w : World F) :
  __init__ RS inputs0 targets0 hidden_nodes beta0 momentum0 heap0 stdout0 rng0
    = Ok w ->
  Ny.rectangular targets0 = true ->
  length targets0 = length inputs0 ->
  trainable w.
Proof.
  unfold __init__.
  destruct inputs0 as [| in0 ins]; [discriminate |].
  destruct targets0 as [| tg0 tgs]; [discriminate |].
  unfold Ny.array at 1.
  destruct (Ny.rectangular (in0 :: ins)) eqn:Erect; [| discriminate].
  rewrite concatenate1_rows by (shapes; reflexivity).
  intros [= <-] Htrect Hlen.
  exists (rand RS rng0 (length in0 + 1) hidden_nodes),
    (rand RS (rng0 + (length in0 + 1) * hidden_nodes) (hidden_nodes + 1)
       (length tg0)),
    (Ny.Mat (length (tg0 :: tgs)) (length tg0) (tg0 :: tgs)).
  unfold weights_at. cbn [self heap inputs targets weights_layer1
                           weights_layer2 data_amount].
  split; [split; [| split] |].
  - rewrite lookup_app_r by lia. now rewrite Nat.sub_diag.
  - rewrite lookup_app_r by lia.
    now replace (S (length heap0) - length heap0) with 1 by lia.
  - lia.
  - split; [unfold rand; shapes; lia |].
    split; [unfold rand; shapes; lia |].
    split; [now apply array_rectangular |].
    split; [unfold rand; shapes; now rewrite Hlen | reflexivity].
Qed.

(** A network built on rectangular targets with a row for every input row
    can be trained. *)
Theorem init_gives_trainable (inputs0 targets0 : list (list F))
    (hidden_nodes : nat) (beta0 momentum0 : F)
    (heap0 : list (Ny.ndarray (F:=F))) (stdout0 : list (line F)) (rng0 : nat)
    (w : World F) :
  __init__ RS inputs0 targets0 hidden_nodes beta0 momentum0 heap0 stdout0 rng0
    = Ok w ->
  Ny.rectangular targets0 = true ->
  length targets0 = length inputs0 ->
  trainable w.
Proof. apply init_trainable. Qed.

(** Training a trainable network under a recognized activation never
    raises, for any number of iterations: [train] returns None, the network
    is trainable again, its weight arrays have kept their shapes, and the
    learning rate and the activation of the call are recorded. *)
Theorem train_never_raises (eta0 : F) (iterations : Z) (ot : string)
    (w : World F) :
  trainable w ->
  recognized ot ->
  exists w',
    train RS eta0 iterations ot w = (w', Ok PyNone) /\
    trainable w' /\
    weight_shapes w' = weight_shapes w /\
    eta (self w') = Some eta0 /\
    outtype (self w') = Some ot.
Proof.
  intros Htr Hrec.
  destruct (train_run eta0 iterations ot w Htr Hrec)
    as (w' & Hrun & Hin & Heta & _ & Hsh & _).
  exists w'. split; [exact Hrun |].
  split; [now apply (in_training_trainable ot) |].
  split; [exact Hsh |]. split; [exact Heta |].
  now destruct Hin as (? & ? & ? & ? & ? & ? & _ & _ & _ & _ & _ & Hot & _).
Qed.

(** After a training run the stored dataset is the one before with its rows
    in another order: there is one permutation of the row indices that takes
    each stored input row and its target row to where they were. *)
Theorem train_reorders_dataset (eta0 : F) (iterations : Z) (ot : string)
    (w : World F) :
  trainable w ->
  recognized ot ->
  reordered w (fst (train RS eta0 iterations ot w)).
Proof.
  intros Htr Hrec.
  destruct (train_run eta0 iterations ot w Htr Hrec)
    as (w' & Hrun & _ & _ & Hre & _).
  now rewrite Hrun.
Qed.

(** What a training run consumes and touches: one call of the shuffle for
    each iteration, no console output, no object of the store but the two
    weight arrays, and no new object. *)
Theorem train_effects (eta0 : F) (iterations : Z) (ot : string) (w : World F) :
  trainable w ->
  recognized ot ->
  let w' := fst (train RS eta0 iterations ot w) in
  rng w' = rng w + Z.to_nat iterations /\
  stdout w' = stdout w /\
  length (heap w') = length (heap w) /\
  forall l, l <> weights_layer1 (self w) -> l <> weights_layer2 (self w) ->
            heap w' !! l = heap w !! l.
Proof.
  intros Htr Hrec.
  destruct (train_run eta0 iterations ot w Htr Hrec)
    as (w' & Hrun & _ & _ & _ & _ & Hfr & Hlen & Hout & Hrng).
  rewrite Hrun. cbn [fst].
  split; [exact Hrng |]. split; [exact Hout |]. split; [exact Hlen |].
  apply Hfr.
Qed.

(** ** Early stopping *)

#[local] Instance same_stdout_refl : Reflexive (same_stdout (F:=F)).
Proof. intros w. reflexivity. Qed.
#[local] Instance same_stdout_trans : Transitive (same_stdout (F:=F)).
Proof. unfold same_stdout. intros a b c Hab Hbc. congruence. Qed.

Ltac quiet :=
  repeat first
    [ keep_step
    | match goal with
      | |- preserves _ (set_self _) => intros ?w; reflexivity
      | |- preserves _ (store_weights _ _) => intros ?w; reflexivity
      | |- preserves _ (random_shuffle _ _) => intros ?w; reflexivity
      end ].

Lemma forward_quiet (X : matrix) : preserves same_stdout (_forward X).
Proof. intros w. apply (forward_hidden_only X w). Qed.

Lemma train_quiet (eta0 : F) (iterations : Z) (ot : string) :
  preserves same_stdout (train RS eta0 iterations ot).
Proof.
  assert (Hpass : preserves same_stdout train_pass).
  { unfold train_pass. quiet.
    - apply forward_quiet.
    - intros w. rewrite compute_errors_pure. reflexivity.
    - unfold _update_weights. quiet. }
  assert (Hloop : forall n shuffle, preserves same_stdout (train_loop RS n shuffle)).
  { induction n as [| n IH]; intros shuffle; cbn [train_loop].
    - quiet.
    - unfold train_iteration, reshuffle. quiet; [apply Hpass | apply IH]. }
  unfold train, train_entry. quiet. apply Hloop.
Qed.

(** What a round of [early_stopping] does to its variables and to the
    console. *)
Lemma es_round_vars (valid : matrix) (validtargets : loc) (eta0 : F)
    (iterations : Z) (outtype0 : string) (v v' : es_vars) (w w' : World F) :
  es_round RS valid validtargets eta0 iterations outtype0 v w = (w', Ok v') ->
  old_val_err1 v' = new_val_err v /\
  old_val_err2 v' = old_val_err1 v /\
  count v' = S (count v) /\
  stdout w' =
    (stdout w ++
     if S (count v) mod 10 =? 0
     then [ProgressLine (S (count v)) (new_val_err v)] else [])%list.
Proof.
  unfold es_round. intros Hr.
  apply bind_ok in Hr as ([] & w1 & Hprint & Hr).
  apply bind_ok in Hr as (r & w2 & Htrain & Hr).
  apply bind_ok in Hr as (vo & w3 & Hfw & Hr).
  apply bind_ok in Hr as (vt & w4 & Hload & Hr).
  apply bind_ok in Hr as (d & w5 & Hsub & Hr).
  unfold ret in Hr. injection Hr as <- <-.
  unfold lift in Hsub. injection Hsub as <- _.
  unfold load in Hload. injection Hload as <- _.
  pose proof (forward_quiet valid w2) as Q3. rewrite Hfw in Q3.
  pose proof (train_quiet eta0 iterations outtype0 w1) as Q2.
  rewrite Htrain in Q2. unfold same_stdout in Q2, Q3. cbn in Q2, Q3.
  split; [reflexivity |]. split; [reflexivity |]. split; [reflexivity |].
  rewrite Q3, Q2.
  destruct (S (count v) mod 10 =? 0).
  - unfold print in Hprint. now injection Hprint as <-.
  - unfold ret in Hprint. injection Hprint as <-. now rewrite app_nil_r.
Qed.

(** The console after [n] rounds: a progress line for every tenth round. *)
Lemma es_rounds_stdout (n : nat) (valid : matrix) (validtargets : loc)
    (eta0 : F) (iterations : Z) (outtype0 : string) :
  forall (v v' : es_vars) (w w' : World F),
    es_rounds RS n valid validtargets eta0 iterations outtype0 v w = (w', Ok v') ->
    exists progress,
      stdout w' = (stdout w ++ progress)%list /\
      map line_count progress
        = List.filter (fun j => j mod 10 =? 0) (seq (S (count v)) n) /\
      forallb is_progress progress = true.
Proof.
  induction n as [| n IH]; intros v v' w w'; cbn [es_rounds].
  - intros [= <- <-]. exists []. split; [now rewrite app_nil_r |].
    split; reflexivity.
  - intros Hr. apply bind_ok in Hr as (v1 & w1 & Hround & Hrest).
    apply es_round_vars in Hround as (_ & _ & Hc & Hout).
    destruct (IH _ _ _ _ Hrest) as (progress & Hout' & Hcounts & Hall).
    rewrite Hc in Hcounts.
    cbn [seq List.filter].
    destruct (S (count v) mod 10 =? 0) eqn:E.
    + exists (ProgressLine (S (count v)) (new_val_err v) :: progress).
      split; [rewrite Hout', Hout; now rewrite <- app_assoc |].
      split; [cbn [map line_count]; now rewrite Hcounts | exact Hall].
    + exists progress.
      split; [rewrite Hout', Hout; now rewrite app_nil_r |].
      split; assumption.
Qed.

(** The console of a call of [early_stopping] that terminates: what was
    there, then one progress line for each round whose number is a multiple
    of 10, in order, then the end line with the number of rounds. *)
Theorem early_stopping_console (fuel : nat) (valid validtargets : loc)
    (eta0 : F) (iterations : Z) (outtype0 : string) (w w' : World F)
    (r : pyval F) :
  early_stopping RS fuel valid validtargets eta0 iterations outtype0 w
    = (w', Ok (Some r)) ->
  exists (progress : list (line F)) (n : nat) (e : F),
    stdout w' = (stdout w ++ progress ++ [EndLine n e])%list /\
    map line_count progress = List.filter (fun j => j mod 10 =? 0) (seq 1 n) /\
    forallb is_progress progress = true.
Proof.
  unfold early_stopping. intros Hr.
  apply bind_ok in Hr as (a & w0 & Hload & Hr).
  unfold load in Hload. injection Hload as <- <-.
  apply bind_ok in Hr as (valid' & w0 & Hcat & Hr).
  unfold lift in Hcat. injection Hcat as <- Hcat.
  apply bind_ok in Hr as (res & w1 & Hloop & Hr).
  destruct res as [v |]; [| discriminate].
  apply bind_ok in Hr as ([] & w2 & Hprint & Hr).
  unfold print in Hprint. injection Hprint as <-.
  unfold ret in Hr. injection Hr as <- <-.
  apply es_loop_rounds in Hloop as (n & Hn & Hcount & _).
  apply es_rounds_stdout in Hn as (progress & Hout & Hcounts & Hall).
  cbn in Hcount. subst n.
  exists progress, (count v), (new_val_err v). cbn [stdout].
  split; [rewrite Hout; now rewrite app_assoc |].
  split; [exact Hcounts | exact Hall].
Qed.

(** The sentinels make the loop of [early_stopping] run twice before any
    validation error can stop it. *)
Lemma es_loop_two_rounds (fuel : nat) (valid : matrix) (validtargets : loc)
    (eta0 : F) (iterations : Z) (outtype0 : string) (v : es_vars)
    (w w' : World F) :
  fgtb (fsub (flit 100002) (flit 100000)) (flit (1 # 1000)) = true ->
  es_loop RS fuel valid validtargets eta0 iterations outtype0 es_init w
    = (w', Ok (Some v)) ->
  2 <= count v.
Proof.
  intros Hs. destruct fuel as [| fuel]; cbn [es_loop]; [discriminate |].
  assert (H0 : es_continue es_init = true).
  { unfold es_continue, es_init. cbn [old_val_err1 old_val_err2 new_val_err].
    now rewrite Hs. }
  rewrite H0. intros Hr.
  apply bind_ok in Hr as (v1 & w1 & Hround & Hr).
  apply es_round_vars in Hround as (Ho1 & Ho2 & Hc1 & _).
  cbn in Ho1, Ho2, Hc1.
  destruct fuel as [| fuel]; cbn [es_loop] in Hr; [discriminate |].
  assert (H1 : es_continue v1 = true).
  { unfold es_continue. rewrite Ho1, Ho2, Hs. apply orb_true_r. }
  rewrite H1 in Hr.
  apply bind_ok in Hr as (v2 & w2 & Hround & Hr).
  apply es_round_vars in Hround as (_ & _ & Hc2 & _).
  apply es_loop_rounds in Hr as (n & _ & Hcount & _). lia.
Qed.

(** In an arithmetic where 100002 - 100000 > 0.001, a call of
    [early_stopping] that terminates has run at least two rounds, that is
    two training bursts, whatever the validation errors were. *)
Theorem early_stopping_two_rounds (fuel : nat) (valid validtargets : loc)
    (eta0 : F) (iterations : Z) (outtype0 : string) (w w' : World F)
    (r : pyval F) :
  fgtb (fsub (flit 100002) (flit 100000)) (flit (1 # 1000)) = true ->
  early_stopping RS fuel valid validtargets eta0 iterations outtype0 w
    = (w', Ok (Some r)) ->
  exists (before : list (line F)) (n : nat) (e : F),
    stdout w' = (before ++ [EndLine n e])%list /\ 2 <= n.
Proof.
  intros Hs. unfold early_stopping. intros Hr.
  apply bind_ok in Hr as (a & w0 & Hload & Hr).
  unfold load in Hload. injection Hload as <- <-.
  apply bind_ok in Hr as (valid' & w0 & Hcat & Hr).
  unfold lift in Hcat. injection Hcat as <- Hcat.
  apply bind_ok in Hr as (res & w1 & Hloop & Hr).
  destruct res as [v |]; [| discriminate].
  apply bind_ok in Hr as ([] & w2 & Hprint & Hr).
  unfold print in Hprint. injection Hprint as <-.
  unfold ret in Hr. injection Hr as <- <-.
  apply es_loop_two_rounds in Hloop; [| exact Hs].
  exists (stdout w1), (count v), (new_val_err v). now split.
Qed.

(** Validation inputs whose width is not the width of the training inputs
    are found out late: [early_stopping] first runs a whole training burst,
    whose weight updates stay, and only then raises ValueError, from the
    validation Forward Pass. *)
Theorem early_stopping_width_mismatch (fuel : nat) (valid validtargets : loc)
    (eta0 : F) (iterations : Z) (ot : string) (w : World F) (V : matrix) :
  trainable w ->
  recognized ot ->
  fgtb (fsub (flit 100002) (flit 100000)) (flit (1 # 1000)) = true ->
  heap w !! valid = Some (Ny.Arr2 V) ->
  Ny.ncols V + 1 <> Ny.ncols (inputs (self w)) ->
  exists w1 w',
    train RS eta0 iterations ot w = (w1, Ok PyNone) /\
    early_stopping RS (S fuel) valid validtargets eta0 iterations ot w
      = (w', Raise ValueError) /\
    heap w' = heap w1 /\
    rng w' = rng w + Z.to_nat iterations /\
    stdout w' = stdout w.
Proof.
  intros Htr Hrec Hs Hv Hwidth.
  destruct (train_run eta0 iterations ot w Htr Hrec)
    as (w1 & Hrun & Hin & _ & _ & Hsh & _ & _ & Hout & Hrng).
  destruct Htr as (W1 & W2 & T & (H1 & H2 & Hne) & HW1 & _).
  destruct Hin as (W1' & W2' & T' & U1 & U2 & e & Hw1 & _).
  assert (HW1' : Ny.nrows W1' = Ny.nrows W1).
  { pose proof Hw1 as (H1' & H2' & _).
    unfold weight_shapes in Hsh. rewrite H1, H2, H1', H2' in Hsh.
    unfold shape in Hsh. congruence. }
  exists w1. eexists. split; [exact Hrun |].
  unfold early_stopping.
  unfold bind at 1. unfold load at 1. rewrite Hv.
  cbn [from_option id]. cbv beta iota.
  unfold bind at 1. unfold lift at 1.
  rewrite concatenate1_rows by reflexivity. cbv beta iota.
  unfold bind at 1. cbn [es_loop].
  assert (H0 : es_continue es_init = true).
  { unfold es_continue, es_init. cbn [old_val_err1 old_val_err2 new_val_err].
    now rewrite Hs. }
  rewrite H0. unfold bind at 1. unfold es_round.
  cbn [count es_init]. change (1 mod 10 =? 0) with false. cbv beta iota.
  unfold bind at 1. unfold ret at 1. cbv beta iota.
  unfold bind at 1. rewrite Hrun. cbv beta iota.
  unfold bind at 1.
  rewrite (forward_mismatch _ w1 W1' W2' Hw1) by (shapes; lia).
  split; [reflexivity |]. split; [reflexivity |].
  split; [exact Hrng | exact Hout].
Qed.

(** ** A dataset with a single target row *)

(** An array of one row broadcasts against an array of as many columns. *)
Lemma binop_row_broadcast (op : F -> F -> F) (A B : matrix) :
  Ny.nrows A = 1 ->
  Ny.ncols A = Ny.ncols B ->
  Ny.binop op A B =
    Ok (Ny.mbuild (Ny.nrows B) (Ny.ncols B)
          (fun i j => op (Ny.mget A 0 j) (Ny.mget B i j))).
Proof.
  intros Hr Hc. unfold Ny.binop. rewrite Hr, Hc.
  rewrite bcompat_refl, bdim_refl.
  replace (Ny.bcompat 1 (Ny.nrows B)) with true
    by (unfold Ny.bcompat; cbn; now rewrite orb_true_r).
  cbn [andb]. change (Ny.bdim 1 (Ny.nrows B)) with (Ny.nrows B).
  f_equal. apply mbuild_ext. intros i j Hi Hj.
  rewrite (bget_inrange B) by assumption.
  unfold Ny.bget. rewrite Hr. cbn [Nat.eqb]. f_equal.
  destruct (Ny.ncols A =? 1) eqn:E; [| reflexivity].
  apply Nat.eqb_eq in E. f_equal. lia.
Qed.

Lemma compute_errors_broadcast (w : World F) (T O Hd W2 : matrix) (ot : string) :
  targets (self w) = Ny.Arr2 T ->
  outputs (self w) = Some O ->
  Ny.nrows T = 1 ->
  Ny.ncols T = Ny.ncols O ->
  hidden (self w) = Some Hd ->
  Ny.nrows Hd = Ny.nrows O ->
  heap w !! weights_layer2 (self w) = Some (Ny.Arr2 W2) ->
  shape W2 = (Ny.ncols Hd, Ny.ncols O) ->
  outtype (self w) = Some ot ->
  recognized ot ->
  exists deltao deltah,
    _compute_errors w = (w, Ok (deltao, deltah)) /\
    shape deltao = shape O /\
    shape deltah = shape Hd /\
    forall i j, i < Ny.nrows O -> j < Ny.ncols O ->
      Ny.mget deltao i j =
        if String.eqb ot "logistic" then
          fmul (fsub (Ny.mget T 0 j) (Ny.mget O i j))
            (fmul (Ny.mget O i j) (fsub Ny.fone (Ny.mget O i j)))
        else
          fdiv (fsub (Ny.mget T 0 j) (Ny.mget O i j))
            (Ny.of_nat (data_amount (self w))).
Proof.
  intros Htg Hout HTr HTc Hhid HHd H2 HW2 Hot Hrec.
  unfold shape in HW2. injection HW2 as HWr HWc.
  unfold _compute_errors. munfold. cbn.
  rewrite Htg, Hout. cbn.
  rewrite binop_row_broadcast by assumption.
  rewrite Hot.
  destruct Hrec as [-> | [-> | ->]]; eqb_lits; cbn.
  - repeat (rewrite ?Hhid; cbn).
    rewrite binop_same_shape by reflexivity. rewrite H2. cbn.
    rewrite dot_inner by (shapes; congruence).
    rewrite iop_same_shape by (shapes; congruence).
    eexists _, _. split; [reflexivity |]. split; [reflexivity |].
    split; [reflexivity |]. intros i j Hi Hj.
    unfold Ny.map_elems. rewrite !mget_mbuild by (shapes; lia). reflexivity.
  - repeat (rewrite ?Hout; cbn).
    rewrite binop_same_shape by reflexivity.
    rewrite iop_same_shape by reflexivity.
    repeat (rewrite ?Hhid; cbn).
    rewrite binop_same_shape by reflexivity. rewrite H2. cbn.
    rewrite dot_inner by (shapes; congruence).
    rewrite iop_same_shape by (shapes; congruence).
    eexists _, _. split; [reflexivity |]. split; [reflexivity |].
    split; [reflexivity |]. intros i j Hi Hj.
    unfold Ny.map_elems. rewrite !mget_mbuild by (shapes; lia). reflexivity.
  - repeat (rewrite ?Hhid; cbn).
    rewrite binop_same_shape by reflexivity. rewrite H2. cbn.
    rewrite dot_inner by (shapes; congruence).
    rewrite iop_same_shape by (shapes; congruence).
    eexists _, _. split; [reflexivity |]. split; [reflexivity |].
    split; [reflexivity |]. intros i j Hi Hj.
    unfold Ny.map_elems. rewrite !mget_mbuild by (shapes; lia). reflexivity.
Qed.

(** A list that permutes 0, 1, ... has an index beyond the first row. *)
Lemma shuffled_beyond_first (s : list nat) (n : nat) :
  s ≡ₚ seq 0 n -> 2 <= n -> forallb (fun i => i <? 1) s = false.
Proof.
  intros Hp Hn. apply not_true_is_false. intros Hall.
  rewrite forallb_forall in Hall.
  assert (Hin : In 1 s).
  { apply list_elem_of_In. rewrite Hp. apply list_elem_of_In, in_seq. lia. }
  apply Hall in Hin. discriminate Hin.
Qed.

(** The constructor accepts targets of a single row for inputs of several
    rows, and so does the first pass of [train]: numpy broadcasts the one
    target row against every output row, and the weights receive their
    first update.  Only the reshuffle at the end of that iteration fails,
    with IndexError, when it indexes the targets; by then the stored inputs
    have already been reordered and the targets have not. *)
Theorem train_single_target_row (eta0 : F) (iterations : Z) (ot : string)
    (w : World F) (W1 W2 T : matrix) :
  weights_at w W1 W2 ->
  Ny.nrows W1 = Ny.ncols (inputs (self w)) ->
  Ny.nrows W2 = S (Ny.ncols W1) ->
  targets (self w) = Ny.Arr2 T ->
  Ny.nrows T = 1 ->
  Ny.ncols T = Ny.ncols W2 ->
  2 <= Ny.nrows (inputs (self w)) ->
  data_amount (self w) = Ny.nrows (inputs (self w)) ->
  recognized ot ->
  (0 < iterations)%Z ->
  exists w' W1' W2' U1' U2',
    train RS eta0 iterations ot w = (w', Raise IndexError) /\
    heap w' = <[weights_layer2 (self w) := Ny.Arr2 W2']>
                (<[weights_layer1 (self w) := Ny.Arr2 W1']> (heap w)) /\
    update_w1 (self w') = Some U1' /\
    update_w2 (self w') = Some U2' /\
    (forall i j, i < Ny.nrows W1 -> j < Ny.ncols W1 ->
       Ny.mget W1' i j = fadd (Ny.mget W1 i j) (Ny.mget U1' i j)) /\
    (forall i j, i < Ny.nrows W2 -> j < Ny.ncols W2 ->
       Ny.mget W2' i j = fadd (Ny.mget W2 i j) (Ny.mget U2' i j)) /\
    inputs (self w') =
      rows_of (inputs (self w))
        (shuffled RS (rng w) (seq 0 (data_amount (self w)))) /\
    targets (self w') = Ny.Arr2 T /\
    rng w' = S (rng w).
Proof.
  intros Hw HW1 HW2 Htg HTr HTc Hn Hda Hrec Hpos.
  pose proof Hw as (H1 & H2 & Hne).
  unfold train. unfold bind at 1. rewrite (train_entry_run eta0 ot w W1 W2 Hw).
  destruct (Z.to_nat iterations) as [| n] eqn:En; [lia |].
  cbn [train_loop]. unfold train_iteration, train_pass.
  set (w1 := upd_self _ w).
  assert (Hw1 : weights_at w1 W1 W2) by exact Hw.
  destruct (forward_total (inputs (self w1)) w1 W1 W2 ot Hw1)
    as (Hd & out & Hfw & HHd & Hout);
    try assumption; try reflexivity; try (subst w1; cbn; congruence).
  unfold shape in HHd, Hout. injection HHd as HHdr HHdc.
  injection Hout as Houtr Houtc.
  set (w2 := upd_self (with_outputs out) (upd_self (with_hidden Hd) w1)).
  destruct (compute_errors_broadcast w2 T out Hd W2 ot)
    as (deltao & deltah & Hce & Hdo & Hdh & _);
    try assumption; try reflexivity; try congruence;
    try (unfold shape; f_equal; congruence).
  unfold shape in Hdo, Hdh. injection Hdo as Hdor Hdoc. injection Hdh as Hdhr Hdhc.
  destruct (update_weights_run w2 deltao deltah Hd
              (Ny.zeros (Ny.nrows W1) (Ny.ncols W1))
              (Ny.zeros (Ny.nrows W2) (Ny.ncols W2)) W1 W2 eta0)
    as (U1' & U2' & W1' & W2' & Hup & _ & _ & _ & _ & F1 & F2);
    try assumption; try reflexivity;
    try (unfold shape; cbn; f_equal; lia);
    try (subst w2 w1; cbn; congruence);
    try (shapes; subst w2 w1; cbn; f_equal; lia).
  exists
    {| heap := <[weights_layer2 (self w) := Ny.Arr2 W2']>
                 (<[weights_layer1 (self w) := Ny.Arr2 W1']> (heap w));
       stdout := stdout w; rng := S (rng w);
       self := with_inputs
                 (rows_of (inputs (self w))
                    (shuffled RS (rng w) (seq 0 (data_amount (self w)))))
                 (with_update_w2 U2'
                    (with_update_w1 U1' (self w2))) |},
    W1', W2', U1', U2'.
  split.
  - unfold bind at 1. unfold bind at 1. unfold bind at 1. unfold bind at 1.
    unfold attr at 1. unfold bind at 1. rewrite Hfw.
    unfold bind at 1. unfold set_self at 1.
    unfold bind at 1. fold w2. rewrite Hce. cbn [fst snd].
    rewrite Hup. unfold reshuffle. munfold. cbn.
    unfold Ny.take_rows at 1.
    replace (forallb _ _) with true.
    2:{ symmetry. apply forallb_forall. intros i Hi.
        apply list_elem_of_In in Hi. rewrite shuffled_perm in Hi.
        apply list_elem_of_In, in_seq in Hi. apply Nat.ltb_lt. lia. }
    cbn. rewrite Htg. cbn. unfold Ny.take_rows at 1. rewrite HTr.
    rewrite (shuffled_beyond_first _ (data_amount (self w)))
      by (first [apply shuffled_perm | lia]).
    reflexivity.
  - cbn. split; [reflexivity |]. split; [reflexivity |]. split; [reflexivity |].
    split; [intros i j Hi Hj; now apply F1 |].
    split; [intros i j Hi Hj; now apply F2 |].
    split; [reflexivity |]. split; [exact Htg | reflexivity].
Qed.

(** ** Construction, training and inference together *)

(** The shapes of the weights of a built network. *)
Lemma init_weight_shapes (inputs0 targets0 : list (list F))
    (hidden_nodes : nat) (beta0 momentum0 : F)
    (heap0 : list (Ny.ndarray (F:=F))) (stdout0 : list (line F)) (rng0 : nat)
    (w : World F) :
  __init__ RS inputs0 targets0 hidden_nodes beta0 momentum0 heap0 stdout0 rng0
    = Ok w ->
  weight_shapes w =
    Some ((length (hd [] inputs0) + 1, hidden_nodes),
          (hidden_nodes + 1, length (hd [] targets0))).
Proof.
  unfold __init__.
  destruct inputs0 as [| in0 ins]; [discriminate |].
  destruct targets0 as [| tg0 tgs]; [discriminate |].
  unfold Ny.array at 1.
  destruct (Ny.rectangular (in0 :: ins)) eqn:Erect; [| discriminate].
  rewrite concatenate1_rows by (shapes; reflexivity).
  intros [= <-]. unfold weight_shapes.
  cbn [self heap weights_layer1 weights_layer2 hd].
  rewrite !lookup_app_r by lia. rewrite Nat.sub_diag.
  replace (S (length heap0) - length heap0) with 1 by lia.
  reflexivity.
Qed.

(** The calls of the demonstration compose, for any dataset of rectangular
    inputs and targets with as many rows: the network is built, [train]
    under a recognized activation returns None for any number of
    iterations, and [use] on a vector of as many features as an input row
    then returns one row with an entry for each output. *)
Theorem construct_train_use (inputs0 targets0 : list (list F))
    (hidden_nodes : nat) (beta0 momentum0 : F)
    (heap0 : list (Ny.ndarray (F:=F))) (stdout0 : list (line F)) (rng0 : nat)
    (eta0 : F) (iterations : Z) (ot : string) (x : list F) :
  Ny.rectangular inputs0 = true ->
  Ny.rectangular targets0 = true ->
  length targets0 = length inputs0 ->
  recognized ot ->
  length x = length (hd [] inputs0) ->
  exists w w' out,
    __init__ RS inputs0 targets0 hidden_nodes beta0 momentum0 heap0 stdout0 rng0
      = Ok w /\
    train RS eta0 iterations ot w = (w', Ok PyNone) /\
    use x w' = (w', Ok out) /\
    shape out = (1, length (hd [] targets0)).
Proof.
  intros Hrect Htrect Hlen Hrec Hx.
  destruct inputs0 as [| in0 ins]; [discriminate |].
  destruct targets0 as [| tg0 tgs]; [discriminate |].
  destruct (init_ignores_targets in0 ins tg0 tgs hidden_nodes beta0 momentum0
              heap0 stdout0 rng0 Hrect) as (w & Hinit & _).
  pose proof (init_trainable _ _ _ _ _ _ _ _ _ Hinit Htrect Hlen) as Htr.
  pose proof (init_weight_shapes _ _ _ _ _ _ _ _ _ Hinit) as Hsh0.
  destruct (train_run eta0 iterations ot w Htr Hrec)
    as (w' & Hrun & Hin & _ & _ & Hsh & _).
  destruct Hin as (W1 & W2 & T & U1 & U2 & e & Hw' & _ & HW2 & _).
  pose proof Hw' as (H1 & H2 & _).
  rewrite Hsh0 in Hsh. unfold weight_shapes in Hsh. rewrite H1, H2 in Hsh.
  unfold shape in Hsh. injection Hsh as Hr1 Hc1 Hr2 Hc2. cbn [hd] in *.
  destruct (use_run x w' W1 W2 Hw') as (Hd & out & Huse & Hshape & _);
    [lia | exact HW2 |].
  exists w, w', out. split; [exact Hinit |]. split; [exact Hrun |].
  split; [exact Huse |]. rewrite Hshape. now rewrite Hc2.
Qed.

(** ** The backward computation outside the recognized activations *)

(** [_compute_errors] has no [else] branch: under an activation name that
    is none of the three, it returns all the same, and the output error is
    the plain difference targets - outputs. *)
Theorem backward_unknown_outtype_unscaled (w : World F) (T O Hd W2 : matrix)
    (ot : string) :
  targets (self w) = Ny.Arr2 T ->
  outputs (self w) = Some O ->
  shape T = shape O ->
  hidden (self w) = Some Hd ->
  Ny.nrows Hd = Ny.nrows O ->
  heap w !! weights_layer2 (self w) = Some (Ny.Arr2 W2) ->
  shape W2 = (Ny.ncols Hd, Ny.ncols O) ->
  outtype (self w) = Some ot ->
  ~ recognized ot ->
  exists deltao deltah,
    _compute_errors w = (w, Ok (deltao, deltah)) /\
    shape deltao = shape O /\
    shape deltah = shape Hd /\
    forall i j, i < Ny.nrows O -> j < Ny.ncols O ->
      Ny.mget deltao i j = fsub (Ny.mget T i j) (Ny.mget O i j).
Proof.
  intros Htg Hout HT Hhid HHd H2 HW2 Hot Hrec.
  unfold shape in HT, HW2. injection HT as HTr HTc. injection HW2 as HWr HWc.
  assert (E1 : String.eqb ot "linear" = false).
  { apply String.eqb_neq. intros ->. apply Hrec. left. reflexivity. }
  assert (E2 : String.eqb ot "logistic" = false).
  { apply String.eqb_neq. intros ->. apply Hrec. right. left. reflexivity. }
  assert (E3 : String.eqb ot "softmax" = false).
  { apply String.eqb_neq. intros ->. apply Hrec. right. right. reflexivity. }
  unfold _compute_errors. munfold. cbn.
  rewrite Htg, Hout. cbn.
  rewrite binop_same_shape by (shapes; congruence).
  rewrite Hot. cbv beta iota. rewrite E1, E2, E3. cbv beta iota.
  repeat (rewrite ?Hhid; cbn).
  rewrite binop_same_shape by reflexivity. rewrite H2. cbn.
  rewrite dot_inner by (shapes; congruence).
  rewrite iop_same_shape by (shapes; congruence).
  eexists _, _. split; [reflexivity |]. split; [shapes; congruence |].
  split; [reflexivity |]. intros i j Hi Hj.
  rewrite !mget_mbuild by (shapes; lia). reflexivity.
Qed.

(** ** Targets with another number of rows *)

(** Arrays whose row counts differ, neither being 1, do not broadcast. *)
Lemma binop_rows_incompatible (op : F -> F -> F) (A B : matrix) :
  Ny.nrows A <> Ny.nrows B -> Ny.nrows A <> 1 -> Ny.nrows B <> 1 ->
  Ny.binop op A B = Raise ValueError.
Proof.
  intros Hne HA HB. unfold Ny.binop, Ny.bcompat.
  apply Nat.eqb_neq in Hne, HA, HB. rewrite Hne, HA, HB. reflexivity.
Qed.

(** The constructor does not compare the row counts of inputs and targets;
    the first pass of [train] does.  When the targets have neither one row
    nor as many rows as the inputs, the Forward Pass of the first iteration
    goes through, the subtraction targets - outputs of the backward
    computation raises ValueError, and the weights, the dataset and the
    random source are as before the call. *)
Theorem train_target_rows_mismatch (eta0 : F) (iterations : Z) (ot : string)
    (w : World F) (W1 W2 T : matrix) :
  weights_at w W1 W2 ->
  Ny.nrows W1 = Ny.ncols (inputs (self w)) ->
  Ny.nrows W2 = S (Ny.ncols W1) ->
  targets (self w) = Ny.Arr2 T ->
  Ny.nrows T <> Ny.nrows (inputs (self w)) ->
  Ny.nrows T <> 1 ->
  Ny.nrows (inputs (self w)) <> 1 ->
  recognized ot ->
  (0 < iterations)%Z ->
  exists w',
    train RS eta0 iterations ot w = (w', Raise ValueError) /\
    heap w' = heap w /\ rng w' = rng w /\ stdout w' = stdout w /\
    inputs (self w') = inputs (self w) /\
    targets (self w') = targets (self w).
Proof.
  intros Hw HW1 HW2 Htg HTn HT1 Hn1 Hrec Hpos.
  unfold train. unfold bind at 1. rewrite (train_entry_run eta0 ot w W1 W2 Hw).
  destruct (Z.to_nat iterations) as [| n] eqn:En; [lia |].
  cbn [train_loop]. unfold train_iteration, train_pass.
  set (w1 := upd_self _ w).
  assert (Hw1 : weights_at w1 W1 W2) by exact Hw.
  destruct (forward_total (inputs (self w1)) w1 W1 W2 ot Hw1)
    as (Hd & out & Hfw & _ & Hout);
    try assumption; try reflexivity; try (subst w1; cbn; congruence).
  unfold shape in Hout. injection Hout as Houtr Houtc.
  exists (upd_self (with_outputs out) (upd_self (with_hidden Hd) w1)).
  split; [| repeat split].
  unfold bind at 1. unfold bind at 1. unfold bind at 1. unfold bind at 1.
  unfold attr at 1. unfold bind at 1. rewrite Hfw.
  unfold bind at 1. unfold set_self at 1.
  unfold bind at 1. unfold _compute_errors. munfold. cbn.
  rewrite Htg. cbn.
  rewrite binop_rows_incompatible by (subst w1; cbn in *; congruence).
  reflexivity.
Qed.

(** ** Early stopping without training *)

(** On a well-shaped network the Forward Pass does not read the hidden
    activations an earlier call recorded. *)
Lemma forward_ignores_hidden (X H0 : matrix) (w : World F) (W1 W2 : matrix) :
  weights_at w W1 W2 ->
  Ny.ncols X = Ny.nrows W1 ->
  Ny.nrows W2 = S (Ny.ncols W1) ->
  _forward X (upd_self (with_hidden H0) w) = _forward X w.
Proof.
  intros (H1 & H2 & Hne) HX HW.
  unfold _forward. munfold. cbn.
  rewrite H1. cbn. rewrite (dot_inner X W1 HX).
  rewrite concatenate1_rows by reflexivity. cbn.
  rewrite H2. cbn. rewrite dot_inner by (shapes; lia).
  reflexivity.
Qed.

(** With [iterations] zero or negative the rounds of [early_stopping] train
    nothing, so every round finds the same validation error: provided a
    scalar minus itself is not above 0.001, the loop stops after two or
    three rounds, the call returns None, the console gains the closing line
    only, and the store and the random source are untouched. *)
Theorem early_stopping_without_training (fuel : nat) (valid validtargets : loc)
    (eta0 : F) (iterations : Z) (ot : string) (w : World F)
    (W1 W2 V VT : matrix) :
  weights_at w W1 W2 ->
  Ny.nrows W2 = S (Ny.ncols W1) ->
  heap w !! valid = Some (Ny.Arr2 V) ->
  Ny.ncols V + 1 = Ny.nrows W1 ->
  heap w !! validtargets = Some (Ny.Arr2 VT) ->
  shape VT = (Ny.nrows V, Ny.ncols W2) ->
  recognized ot ->
  (iterations <= 0)%Z ->
  fgtb (fsub (flit 100002) (flit 100000)) (flit (1 # 1000)) = true ->
  (forall x, fgtb (fsub x x) (flit (1 # 1000)) = false) ->
  exists w' n e,
    early_stopping RS (4 + fuel) valid validtargets eta0 iterations ot w
      = (w', Ok (Some PyNone)) /\
    (n = 2 \/ n = 3) /\
    (n = 3 <-> fgtb (fsub (flit 100000) e) (flit (1 # 1000)) = true) /\
    stdout w' = (stdout w ++ [EndLine n e])%list /\
    heap w' = heap w /\ rng w' = rng w /\
    inputs (self w') = inputs (self w) /\
    targets (self w') = targets (self w).
Proof.
  intros Hw HW2 Hv HV Hvt HVT Hrec Hit Hs Hself.
  set (entry := fun s : MLP F =>
         with_update_w2 (Ny.zeros (Ny.nrows W2) (Ny.ncols W2))
           (with_update_w1 (Ny.zeros (Ny.nrows W1) (Ny.ncols W1))
              (with_outtype ot (with_eta eta0 s)))).
  assert (Htr : forall u, weights_at u W1 W2 ->
            train RS eta0 iterations ot u = (upd_self entry u, Ok PyNone)).
  { intros u Hu. unfold train. unfold bind at 1.
    rewrite (train_entry_run eta0 ot u W1 W2 Hu).
    replace (Z.to_nat iterations) with 0 by lia. reflexivity. }
  set (valid' := Ny.mbuild (Ny.nrows V) (Ny.ncols V + 1)
         (fun i j => if j <? Ny.ncols V then Ny.mget V i j
                     else Ny.mget (Ny.neg_ones (Ny.nrows V) 1) i (j - Ny.ncols V))).
  set (w1 := upd_self entry w).
  assert (Hw1 : weights_at w1 W1 W2) by exact Hw.
  destruct (forward_total valid' w1 W1 W2 ot Hw1)
    as (Hd & out & Hfw & _ & Hout);
    [subst valid'; shapes; lia | exact HW2 | reflexivity | exact Hrec |].
  set (w2 := upd_self (with_hidden Hd) w1).
  assert (Hw2 : weights_at w2 W1 W2) by exact Hw.
  set (e := fmul (flit (1 # 2))
              (Ny.sum_all
                 (Ny.map_elems (fun x => fmul x x)
                    (Ny.mbuild (Ny.nrows VT) (Ny.ncols VT)
                       (fun i j => fsub (Ny.mget VT i j) (Ny.mget out i j)))))).
  assert (Hround : forall u v,
            u = w \/ u = w2 ->
            (S (count v) mod 10 =? 0) = false ->
            es_round RS valid' validtargets eta0 iterations ot v u =
              (w2, Ok {| old_val_err1 := new_val_err v;
                         old_val_err2 := old_val_err1 v;
                         new_val_err := e;
                         count := S (count v) |})).
  { intros u v Hu Hmod. unfold es_round. rewrite Hmod.
    unfold bind at 1. unfold ret at 1. cbv beta iota.
    unfold bind at 1.
    assert (Hfu : _forward valid' (upd_self entry u) = (w2, Ok out)).
    { destruct Hu as [-> | ->]; [exact Hfw |].
      change (upd_self entry w2) with (upd_self (with_hidden Hd) w1).
      rewrite (forward_ignores_hidden valid' Hd w1 W1 W2 Hw1);
        [exact Hfw | subst valid'; shapes; lia | exact HW2]. }
    rewrite Htr by (destruct Hu as [-> | ->]; assumption).
    cbv beta iota. unfold bind at 1. rewrite Hfu. cbv beta iota.
    unfold bind at 1. unfold load at 1.
    change (heap w2) with (heap w). rewrite Hvt.
    cbn [from_option id]. cbv beta iota.
    unfold bind at 1. unfold lift at 1. unfold sub_nd.
    rewrite binop_same_shape by (rewrite Hout, HVT; reflexivity).
    reflexivity. }
  assert (H0 : es_continue es_init = true).
  { unfold es_continue, es_init. cbn [old_val_err1 old_val_err2 new_val_err].
    now rewrite Hs. }
  unfold early_stopping.
  unfold bind at 1. unfold load at 1. rewrite Hv.
  cbn [from_option id]. cbv beta iota.
  unfold bind at 1. unfold lift at 1.
  rewrite concatenate1_rows by reflexivity. cbv beta iota.
  fold valid'.
  unfold bind at 1. cbn [Nat.add es_loop].
  rewrite H0. unfold bind at 1.
  rewrite (Hround w es_init) by (first [now left | reflexivity]).
  cbv beta iota. cbn [es_loop].
  match goal with |- context [es_continue ?v] =>
    replace (es_continue v) with true
      by (unfold es_continue; cbn [old_val_err1 old_val_err2 new_val_err es_init];
          now rewrite Hs, orb_true_r)
  end.
  unfold bind at 1.
  rewrite Hround by (first [now right | reflexivity]).
  cbv beta iota. cbn [es_loop].
  match goal with |- context [es_continue ?v] =>
    replace (es_continue v)
      with (fgtb (fsub (flit 100000) e) (flit (1 # 1000)))
      by (unfold es_continue;
          cbn [old_val_err1 old_val_err2 new_val_err es_init count];
          now rewrite Hself)
  end.
  destruct (fgtb (fsub (flit 100000) e) (flit (1 # 1000))) eqn:E3.
  - unfold bind at 1.
    rewrite Hround by (first [now right | reflexivity]).
    cbv beta iota. cbn [es_loop].
    match goal with |- context [es_continue ?v] =>
      replace (es_continue v) with false
        by (unfold es_continue;
            cbn [old_val_err1 old_val_err2 new_val_err es_init count];
            now rewrite Hself)
    end.
    eexists _, 3, e. split; [reflexivity |].
    split; [now right |]. split; [tauto |].
    repeat split.
  - eexists _, 2, e. split; [reflexivity |].
    split; [now left |]. split; [split; [lia | rewrite E3; discriminate] |].
    repeat split.
Qed.

(** ** Inference *)

(** The bias-augmented row of a raw vector: its features, then -1. *)
Lemma augmented_entries (x : list F) :
  (forall j, j < length x ->
     Ny.mget (augmented x) 0 j = nth j x Ny.fzero) /\
  Ny.mget (augmented x) 0 (length x) = fneg Ny.fone.
Proof.
  unfold augmented, Ny.mget. cbn [Ny.cells nth]. split.
  - intros j Hj. now rewrite app_nth1.
  - rewrite app_nth2 by lia. now rewrite Nat.sub_diag.
Qed.

(** C9.  For a raw input vector of as many features as the network has
    inputs, [use] appends the bias feature -1, takes the logistic function
    of the layer-1 products for the hidden row, appends -1 to it, and
    returns the logistic function of the layer-2 products, entry by entry:
    the outputs of the Forward Pass on the augmented row under "logistic".
    It returns the same whatever [outtype] the network holds, and changes
    nothing. *)
Theorem use_is_logistic_forward (x : list F) (w : World F) (W1 W2 : matrix) :
  weights_at w W1 W2 ->
  length x + 1 = Ny.nrows W1 ->
  Ny.nrows W2 = S (Ny.ncols W1) ->
  exists Hd out,
    use x w = (w, Ok out) /\
    (forall ot : string,
       use x (upd_self (with_outtype ot) w)
         = (upd_self (with_outtype ot) w, Ok out)) /\
    snd (_forward (augmented x) (upd_self (with_outtype "logistic") w))
      = Ok out /\
    (forall j, j < length x ->
       Ny.mget (augmented x) 0 j = nth j x Ny.fzero) /\
    Ny.mget (augmented x) 0 (length x) = fneg Ny.fone /\
    shape Hd = (1, S (Ny.ncols W1)) /\
    (forall j, j < Ny.ncols W1 ->
       Ny.mget Hd 0 j = sigmoid (beta (self w)) (inner (augmented x) W1 0 j)) /\
    Ny.mget Hd 0 (Ny.ncols W1) = fneg Ny.fone /\
    shape out = (1, Ny.ncols W2) /\
    (forall j, j < Ny.ncols W2 ->
       Ny.mget out 0 j = sigmoid (beta (self w)) (inner Hd W2 0 j)).
Proof.
  intros Hw Hx HW.
  destruct (use_run x w W1 W2 Hw Hx HW)
    as (Hd & out & Huse & Hsout & HsHd & Hhid & Hbias & Hout).
  destruct (use_as_forward x w) as [Efw _].
  assert (Hfw : snd (_forward (augmented x)
                       (upd_self (with_outtype "logistic") w)) = Ok out)
    by congruence.
  destruct (augmented_entries x) as [Ha1 Ha2].
  exists Hd, out. split; [exact Huse |]. split.
  { intros ot.
    destruct (use_as_forward x (upd_self (with_outtype ot) w)) as [E _].
    rewrite E. f_equal. exact Hfw. }
  split; [exact Hfw |]. split; [exact Ha1 |]. split; [exact Ha2 |].
  split; [exact HsHd |]. split; [exact Hhid |]. split; [exact Hbias |].
  split; [exact Hsout | exact Hout].
Qed.

End MethodFacts.

(** * The properties on concrete networks *)

Section Concrete.
Import Exact.
Import Cases.

Lemma foo_not_recognized : ~ recognized "foo".
Proof. intros [E | [E | E]]; discriminate E. Defined.

Lemma linear_recognized : recognized "linear".
Proof. left; reflexivity. Defined.

Lemma logistic_recognized : recognized "logistic".
Proof. right; left; reflexivity. Defined.

Lemma softmax_recognized : recognized "softmax".
Proof. right; right; reflexivity. Defined.

Lemma xor_net_built :
  __init__ source xor_inputs xor_targets 2 (q 1) (Q2Qc (9 # 10)) [] [] 0
  = Ok xor_net.
Proof. reflexivity. Qed.

Lemma xor_net_ok : network_ok xor_net.
Proof.
  eexists _, _. split; [split; [reflexivity | split; [reflexivity | ]] |].
  - cbn. lia.
  - split; reflexivity.
Defined.

(** C1 on the XOR network: one iteration with the unknown activation "foo"
    ends in the NameError of the message of [_forward]. *)
Lemma unknown_outtype_raises_witness :
  network_ok xor_net /\ ~ recognized "foo" /\
  exists w',
    train source (Q2Qc (1 # 5)) 1 "foo" xor_net
      = (w', Raise (NameError "outtype")) /\
    heap w' = heap xor_net /\ stdout w' = stdout xor_net.
Proof.
  split; [exact xor_net_ok |]. split; [exact foo_not_recognized |].
  apply (unknown_outtype_raises source xor_net "foo" xor_net_ok
           foo_not_recognized).
  reflexivity.
Defined.

(** C2 on inputs whose second row is shorter than the first. *)
Lemma ragged_inputs_rejected_witness :
  exists e,
    __init__ source [[q 0; q 0]; [q 1]] [[q 0]; [q 1]] 2 (q 1) (Q2Qc (9 # 10))
      [] [] 0 = Raise e /\
    (e = ValueError \/ e = IndexError).
Proof.
  apply (ragged_inputs_rejected source [[q 0; q 0]; [q 1]] [[q 0]; [q 1]] 2
           (q 1) (Q2Qc (9 # 10)) [] [] 0 [q 1]).
  - apply list_elem_of_In. cbn. auto.
  - cbn. lia.
Defined.

(** C2 as stated fails: two input rows against a single target row build
    a network. *)
Lemma mismatched_targets_accepted :
  length [[q 0; q 0]; [q 0; q 1]] <> length [[q 0]] /\
  is_raise (__init__ source [[q 0; q 0]; [q 0; q 1]] [[q 0]] 2 (q 1)
              (Q2Qc (9 # 10)) [] [] 0) = false.
Proof.
  split; [cbn; lia | vm_compute; reflexivity].
Qed.

(** C3 on the XOR network: the first pass of a training run with the
    unknown activation "foo" raises and leaves the weights alone. *)
Lemma failed_pass_keeps_weights_witness :
  heap (fst (train_pass (xor_entered "foo"))) = heap (xor_entered "foo") /\
  weights_layer1 (self (fst (train_pass (xor_entered "foo"))))
    = weights_layer1 (self (xor_entered "foo")) /\
  weights_layer2 (self (fst (train_pass (xor_entered "foo"))))
    = weights_layer2 (self (xor_entered "foo")).
Proof.
  apply (failed_pass_keeps_weights (xor_entered "foo")
           (fst (train_pass (xor_entered "foo"))) (NameError "outtype")).
  - exists (at_loc (xor_entered "foo") 0), (at_loc (xor_entered "foo") 1),
      (the (update_w1 (self (xor_entered "foo")))),
      (the (update_w2 (self (xor_entered "foo")))).
    split; [split; [reflexivity | split; [reflexivity | cbn; lia]] |].
    split; [reflexivity |]. split; [reflexivity |].
    split; reflexivity.
  - vm_compute. reflexivity.
Defined.

(** C4 on the one-weight network: after three rounds the loop stops, the
    call returns None and the last console line reports 3 rounds. *)
Lemma early_stopping_reports_witness :
  PyNone = PyNone (F:=Qc) /\
  exists (V valid' : Ny.matrix (F:=Qc)) (n : nat) (v : es_vars) (w1 : World Qc),
    heap tiny_net !! 0 = Some (Ny.Arr2 V) /\
    Ny.concatenate1 V (Ny.neg_ones (Ny.nrows V) 1) = Ok valid' /\
    es_rounds source n valid' 1 (q 1) 1 "linear" es_init tiny_net = (w1, Ok v) /\
    count v = n /\
    es_continue v = false /\
    heap (fst (early_stopping source 6 0 1 (q 1) 1 "linear" tiny_net)) = heap w1 /\
    self (fst (early_stopping source 6 0 1 (q 1) 1 "linear" tiny_net)) = self w1 /\
    stdout (fst (early_stopping source 6 0 1 (q 1) 1 "linear" tiny_net))
      = (stdout w1 ++ [EndLine n (new_val_err v)])%list.
Proof.
  apply (early_stopping_reports source 6 0 1 (q 1) 1 "linear" tiny_net
           (fst (early_stopping source 6 0 1 (q 1) 1 "linear" tiny_net)) PyNone).
  vm_compute. reflexivity.
Defined.

(** C4 as stated fails: the call terminates and returns None, not a pair of
    the round count and the validation error. *)
Lemma early_stopping_returns_none :
  snd (early_stopping source 6 0 1 (q 1) 1 "linear" tiny_net) = Ok (Some PyNone) /\
  forall (rounds : Z) (err : Qc),
    snd (early_stopping source 6 0 1 (q 1) 1 "linear" tiny_net)
      <> Ok (Some (PyPair (PyInt rounds) (PyFloat err))).
Proof.
  assert (E : snd (early_stopping source 6 0 1 (q 1) 1 "linear" tiny_net)
              = Ok (Some PyNone)) by (vm_compute; reflexivity).
  split; [exact E |]. intros rounds err. rewrite E. discriminate.
Qed.

(** C5 on the XOR network: the weight update of the first pass of a
    "logistic" training run. *)
Lemma weight_update_rule_witness :
  is_raise (snd (_update_weights (fst (xor_deltas "logistic"))
                   (snd (xor_deltas "logistic")) (xor_forwarded "logistic")))
  = false.
Proof.
  destruct (weight_update_rule (xor_forwarded "logistic")
              (fst (xor_deltas "logistic")) (snd (xor_deltas "logistic"))
              (the (hidden (self (xor_forwarded "logistic"))))
              (the (update_w1 (self (xor_forwarded "logistic"))))
              (the (update_w2 (self (xor_forwarded "logistic"))))
              (at_loc (xor_forwarded "logistic") 0)
              (at_loc (xor_forwarded "logistic") 1)
              (Q2Qc (1 # 5)))
    as (w' & U1' & U2' & W1' & W2' & Hrun & _).
  - vm_compute. reflexivity.
  - vm_compute. reflexivity.
  - vm_compute. reflexivity.
  - vm_compute. reflexivity.
  - split; [vm_compute; reflexivity | split; [vm_compute; reflexivity | cbn; lia]].
  - vm_compute. reflexivity.
  - vm_compute. reflexivity.
  - vm_compute. reflexivity.
  - vm_compute. reflexivity.
  - vm_compute. reflexivity.
  - vm_compute. reflexivity.
  - rewrite Hrun. reflexivity.
Defined.

(** C6 on the XOR network: the backward computation of the first pass of a
    "logistic" training run. *)
Lemma output_error_scaling_witness :
  is_raise (snd (_compute_errors (xor_forwarded "logistic"))) = false.
Proof.
  destruct (output_error_scaling (xor_forwarded "logistic")
              (Ny.Mat 4 1 xor_targets)
              (the (outputs (self (xor_forwarded "logistic"))))
              (the (hidden (self (xor_forwarded "logistic"))))
              (at_loc (xor_forwarded "logistic") 1) "logistic")
    as (deltao & deltah & Hrun & _).
  - vm_compute. reflexivity.
  - vm_compute. reflexivity.
  - vm_compute. reflexivity.
  - vm_compute. reflexivity.
  - vm_compute. reflexivity.
  - vm_compute. reflexivity.
  - vm_compute. reflexivity.
  - vm_compute. reflexivity.
  - right. left. reflexivity.
  - rewrite Hrun. reflexivity.
Defined.

(** C7 on the XOR network after one "logistic" training call, which has
    left non-zero accumulators: a second call starts from zero accumulators,
    and after its first iteration the first entry of the layer-1 accumulator
    is eta times the gradient term. *)
Lemma train_resets_momentum_witness :
  Ny.mget (the (update_w1 (self trained_once))) 0 0 <> Ny.fzero /\
  exists (w0 w1 : World Qc) (deltah U1' : Ny.matrix (F:=Qc)),
    train source (Q2Qc (1 # 5)) 1000 "logistic" trained_once =
      bind (train_loop source (Z.to_nat 1000)
              (seq 0 (data_amount (self trained_once))))
           (fun _ => ret PyNone) w0 /\
    update_w1 (self w0) = Some (Ny.zeros 3 2) /\
    update_w2 (self w0) = Some (Ny.zeros 3 1) /\
    train_pass w0 = (w1, Ok tt) /\
    update_w1 (self w1) = Some U1' /\
    Ny.mget U1' 0 0 =
      fmul (Q2Qc (1 # 5)) (gradient (inputs (self trained_once)) deltah 0 0).
Proof.
  split.
  { vm_compute. intros H. apply (f_equal this) in H. discriminate H. }
  destruct (train_resets_momentum source trained_once (Q2Qc (1 # 5)) 1000
              "logistic" (at_loc trained_once 0) (at_loc trained_once 1))
    as (w0 & Hrun & Hu1 & Hu2 & _ & _ & _ & Hfirst).
  { split; [vm_compute; reflexivity
           | split; [vm_compute; reflexivity | vm_compute; lia]]. }
  destruct (Hfirst (arr (targets (self trained_once))))
    as (Hd & out & deltao & deltah & U1' & U2' & W1' & W2' & w1
        & _ & _ & Hpass & _ & HU1' & _ & _ & _ & F1 & _).
  - vm_compute. reflexivity.
  - vm_compute. reflexivity.
  - vm_compute. reflexivity.
  - vm_compute. reflexivity.
  - exact logistic_recognized.
  - lia.
  - exists w0, w1, deltah, U1'.
    split; [exact Hrun |].
    split; [rewrite Hu1; vm_compute; reflexivity |].
    split; [rewrite Hu2; vm_compute; reflexivity |].
    split; [exact Hpass |]. split; [exact HU1' |].
    destruct (F1 0 0) as (_ & _ & Hplain).
    + vm_compute. lia.
    + vm_compute. lia.
    + apply Hplain; [apply Qcmult_0_r | apply Qcplus_0_l].
Defined.

(** C8 on the XOR network: the first iteration of a "linear" training run
    with the reversing shuffle; the pair at row 0 is found again. *)
Lemma shuffle_keeps_pairs_witness :
  rev (seq 0 4) ≡ₚ seq 0 4 /\
  exists (T' : Ny.matrix (F:=Qc)) (j : nat),
    targets (self (fst (train_iteration source (seq 0 4) (xor_entered "linear"))))
      = Ny.Arr2 T' /\
    row (inputs (self (fst (train_iteration source (seq 0 4)
                              (xor_entered "linear"))))) j
      = row (inputs (self (xor_entered "linear"))) 0 /\
    row T' j = row (Ny.Mat 4 1 xor_targets) 0.
Proof.
  destruct (shuffle_keeps_pairs source (seq 0 4) (rev (seq 0 4))
              (xor_entered "linear")
              (fst (train_iteration source (seq 0 4) (xor_entered "linear")))
              (Ny.Mat 4 1 xor_targets))
    as (Hperm & T' & HT' & _ & _ & Hpairs).
  - reflexivity.
  - vm_compute. reflexivity.
  - vm_compute. reflexivity.
  - split; [exact Hperm |].
    destruct (Hpairs 0) as (j & _ & R1 & R2); [cbn; lia |].
    exists T', j. split; [exact HT' |]. split; [exact R1 | exact R2].
Defined.



(** C9 on the XOR network holding the activation "linear": [use] returns
    the logistic outputs all the same. *)
Lemma use_is_logistic_forward_witness :
  exists (Hd out : Ny.matrix (F:=Qc)),
    use [q 0; q 1] (upd_self (with_outtype "linear") xor_net)
      = (upd_self (with_outtype "linear") xor_net, Ok out) /\
    snd (_forward (augmented [q 0; q 1])
           (upd_self (with_outtype "logistic") xor_net)) = Ok out /\
    Ny.mget out 0 0 = sigmoid (q 1) (inner Hd (at_loc xor_net 1) 0 0).
Proof.
  destruct (use_is_logistic_forward [q 0; q 1] xor_net (at_loc xor_net 0)
              (at_loc xor_net 1))
    as (Hd & out & _ & Hany & Hfw & _ & _ & _ & _ & _ & _ & Hout).
  - split; [reflexivity | split; [reflexivity | cbn; lia]].
  - reflexivity.
  - reflexivity.
  - exists Hd, out. split; [exact (Hany "linear") |]. split; [exact Hfw |].
    apply (Hout 0). vm_compute. lia.
Defined.

(** ** The further properties on concrete networks *)
Lemma xor_net_weights : weights_at xor_net (at_loc xor_net 0) (at_loc xor_net 1).
Proof. split; [reflexivity | split; [reflexivity | cbn; lia]]. Defined.

Lemma xor_net_trainable : trainable xor_net.
Proof.
  exists (at_loc xor_net 0), (at_loc xor_net 1), (arr (targets (self xor_net))).
  split; [exact xor_net_weights |].
  split; [reflexivity |]. split; [reflexivity |]. split; [reflexivity |].
  split; reflexivity.
Defined.

Lemma exact_threshold :
  fgtb (fsub (flit 100002) (flit 100000)) (flit (1 # 1000)) = true.
Proof. vm_compute. reflexivity. Defined.

(** The XOR dataset builds a network. *)
Lemma init_succeeds_iff_witness :
  exists w,
    __init__ source xor_inputs xor_targets 2 (q 1) (Q2Qc (9 # 10)) [] [] 0
      = Ok w.
Proof.
  apply (proj2 (init_succeeds_iff source xor_inputs xor_targets 2 (q 1)
                  (Q2Qc (9 # 10)) [] [] 0)).
  split; [reflexivity | discriminate].
Defined.

(** The XOR network stores four rows of three columns, the last one -1. *)
Lemma init_stores_dataset_witness :
  shape (inputs (self xor_net)) = (4, 3) /\
  (forall i, i < 4 -> Ny.mget (inputs (self xor_net)) i 2 = fneg Ny.fone) /\
  targets (self xor_net) = Ny.array xor_targets /\
  outtype (self xor_net) = None.
Proof.
  destruct (init_stores_dataset source xor_inputs xor_targets 2 (q 1)
              (Q2Qc (9 # 10)) [] [] 0 xor_net xor_net_built)
    as (_ & _ & _ & _ & _ & _ & Hs & He & Ht & _ & Ho & _).
  split; [exact Hs |]. split; [intros i Hi; exact (proj2 (He i Hi)) |].
  split; [exact Ht | exact Ho].
Defined.

(** The weights of the one-weight network come after the caller's two
    arrays in the store. *)
Lemma init_allocates_weights_witness :
  exists W1 W2,
    heap tiny_net = (caller_heap ++ [Ny.Arr2 W1; Ny.Arr2 W2])%list /\
    weights_layer1 (self tiny_net) = 2 /\
    weights_layer2 (self tiny_net) = 3 /\
    shape W1 = (2, 0) /\ shape W2 = (1, 1) /\
    Ny.mget W2 0 0 = uniform source 0 /\
    rng tiny_net = 1.
Proof.
  pose proof (init_allocates_weights source [[q 1]] [[q 2]] 0 (q 1)
                (Q2Qc (9 # 10)) caller_heap [] 0 tiny_net eq_refl) as H.
  cbv zeta in H.
  destruct H as (W1 & W2 & Hh & Hl1 & Hl2 & _ & Hs1 & Hs2 & _ & Hu & Hr & _).
  exists W1, W2. split; [exact Hh |]. split; [exact Hl1 |].
  split; [exact Hl2 |]. split; [exact Hs1 |]. split; [exact Hs2 |].
  split; [| exact Hr]. apply (Hu 0 0); cbn; lia.
Defined.

(** The one-weight network is trainable as built. *)
Lemma init_gives_trainable_witness : trainable tiny_net.
Proof.
  apply (init_gives_trainable source [[q 1]] [[q 2]] 0 (q 1) (Q2Qc (9 # 10))
           caller_heap [] 0 tiny_net); reflexivity.
Defined.

(** A batch of two columns against the three rows of the XOR network's
    layer-1 weights. *)
Lemma forward_width_mismatch_witness :
  _forward (Ny.Mat 1 2 [[q 0; q 1]]) xor_net = (xor_net, Raise ValueError).
Proof.
  apply (forward_width_mismatch (Ny.Mat 1 2 [[q 0; q 1]]) xor_net
           (at_loc xor_net 0) (at_loc xor_net 1) xor_net_weights).
  vm_compute. lia.
Defined.

(** The XOR network before any call of [train]: the Forward Pass on its
    inputs records the hidden activations although no activation is set. *)
Lemma forward_hidden_layer_witness :
  exists Hd,
    hidden (self (fst (_forward (inputs (self xor_net)) xor_net))) = Some Hd /\
    shape Hd = (4, 3) /\
    forall i, i < 4 -> Ny.mget Hd i 2 = fneg Ny.fone.
Proof.
  destruct (forward_hidden_layer (inputs (self xor_net)) xor_net
              (at_loc xor_net 0) (at_loc xor_net 1) xor_net_weights
              eq_refl eq_refl) as (Hd & Hh & Hs & He).
  exists Hd. split; [exact Hh |]. split; [exact Hs |].
  intros i Hi. exact (proj2 (He i Hi)).
Defined.

(** The Forward Pass of the XOR network under "softmax". *)
Lemma forward_outputs_witness :
  exists Hd out,
    _forward (inputs (self (xor_entered "softmax"))) (xor_entered "softmax")
      = (upd_self (with_hidden Hd) (xor_entered "softmax"), Ok out) /\
    shape out = (4, 1).
Proof.
  destruct (forward_outputs (inputs (self (xor_entered "softmax")))
              (xor_entered "softmax")
              (at_loc (xor_entered "softmax") 0)
              (at_loc (xor_entered "softmax") 1) "softmax")
    as (Hd & out & Hrun & Hs & _).
  - split; [reflexivity | split; [reflexivity | cbn; lia]].
  - reflexivity.
  - reflexivity.
  - reflexivity.
  - exact softmax_recognized.
  - exists Hd, out. split; [exact Hrun | exact Hs].
Defined.

(** The backward computation of the first "logistic" pass on the XOR
    network. *)
Lemma hidden_error_backpropagation_witness :
  exists deltao deltah,
    _compute_errors (xor_forwarded "logistic")
      = (xor_forwarded "logistic", Ok (deltao, deltah)) /\
    shape deltah = (4, 3).
Proof.
  destruct (hidden_error_backpropagation (xor_forwarded "logistic")
              (arr (targets (self (xor_forwarded "logistic"))))
              (the (outputs (self (xor_forwarded "logistic"))))
              (the (hidden (self (xor_forwarded "logistic"))))
              (at_loc (xor_forwarded "logistic") 1) "logistic")
    as (deltao & deltah & Hrun & Hs & _).
  - vm_compute. reflexivity.
  - vm_compute. reflexivity.
  - vm_compute. reflexivity.
  - vm_compute. reflexivity.
  - vm_compute. reflexivity.
  - vm_compute. reflexivity.
  - vm_compute. reflexivity.
  - vm_compute. reflexivity.
  - exact logistic_recognized.
  - exists deltao, deltah. split; [exact Hrun |]. rewrite Hs.
    vm_compute. reflexivity.
Defined.

(** The XOR network on a vector of two features. *)
Lemma use_on_right_width_witness :
  exists out,
    use [q 0; q 1] xor_net = (xor_net, Ok out) /\ shape out = (1, 1).
Proof.
  destruct (use_on_right_width [q 0; q 1] xor_net (at_loc xor_net 0)
              (at_loc xor_net 1) xor_net_weights eq_refl eq_refl)
    as (Hd & out & Hrun & Hs & _).
  exists out. split; [exact Hrun | exact Hs].
Defined.

(** The XOR network on a vector of one feature. *)
Lemma use_on_wrong_width_witness :
  use [q 0] xor_net = (xor_net, Raise ValueError).
Proof.
  apply (use_on_wrong_width [q 0] xor_net (at_loc xor_net 0)
           (at_loc xor_net 1) xor_net_weights).
  vm_compute. lia.
Defined.

(** A negative number of iterations on the XOR network. *)
Lemma train_no_iterations_witness :
  exists w',
    train source (Q2Qc (1 # 5)) (-3) "logistic" xor_net = (w', Ok PyNone) /\
    heap w' = heap xor_net /\
    rng w' = rng xor_net /\
    update_w1 (self w') = Some (Ny.zeros 3 2) /\
    update_w2 (self w') = Some (Ny.zeros 3 1).
Proof.
  destruct (train_no_iterations source (Q2Qc (1 # 5)) (-3) "logistic" xor_net
              (at_loc xor_net 0) (at_loc xor_net 1) xor_net_weights)
    as (w' & Hrun & Hh & _ & Hr & _ & _ & _ & _ & H1 & H2).
  - lia.
  - exists w'. split; [exact Hrun |]. split; [exact Hh |].
    split; [exact Hr |]. split; [exact H1 | exact H2].
Defined.

(** The training call of the demonstration: a thousand "logistic"
    iterations on the XOR network. *)
Lemma train_never_raises_witness :
  exists w',
    train source (Q2Qc (1 # 5)) 1000 "logistic" xor_net = (w', Ok PyNone) /\
    trainable w' /\
    weight_shapes w' = weight_shapes xor_net /\
    eta (self w') = Some (Q2Qc (1 # 5)) /\
    outtype (self w') = Some "logistic".
Proof.
  exact (train_never_raises source (Q2Qc (1 # 5)) 1000 "logistic" xor_net
           xor_net_trainable logistic_recognized).
Defined.

Lemma train_reorders_dataset_witness :
  reordered xor_net
    (fst (train source (Q2Qc (1 # 5)) 1000 "logistic" xor_net)).
Proof.
  exact (train_reorders_dataset source (Q2Qc (1 # 5)) 1000 "logistic" xor_net
           xor_net_trainable logistic_recognized).
Defined.

Lemma train_effects_witness :
  rng (fst (train source (Q2Qc (1 # 5)) 1000 "logistic" xor_net))
    = rng xor_net + 1000 /\
  stdout (fst (train source (Q2Qc (1 # 5)) 1000 "logistic" xor_net)) = [].
Proof.
  destruct (train_effects source (Q2Qc (1 # 5)) 1000 "logistic" xor_net
              xor_net_trainable logistic_recognized) as (Hr & Hs & _).
  split; [exact Hr | exact Hs].
Defined.

(** Four input rows against one target row: the first pass goes through,
    the reshuffle raises. *)
Lemma train_single_target_row_witness :
  exists w',
    train source (Q2Qc (1 # 5)) 5 "logistic" lone_target_net
      = (w', Raise IndexError) /\
    targets (self w') = targets (self lone_target_net) /\
    rng w' = S (rng lone_target_net).
Proof.
  destruct (train_single_target_row source (Q2Qc (1 # 5)) 5 "logistic"
              lone_target_net (at_loc lone_target_net 0)
              (at_loc lone_target_net 1)
              (arr (targets (self lone_target_net))))
    as (w' & W1' & W2' & U1' & U2' & Hrun & _ & _ & _ & _ & _ & _ & Ht & Hr).
  - split; [reflexivity | split; [reflexivity | cbn; lia]].
  - reflexivity.
  - reflexivity.
  - reflexivity.
  - reflexivity.
  - reflexivity.
  - vm_compute. lia.
  - reflexivity.
  - exact logistic_recognized.
  - lia.
  - exists w'. split; [exact Hrun |]. split; [exact Ht | exact Hr].
Defined.

(** A run of 31 rounds on the one-weight network: three progress lines, for
    the rounds 10, 20 and 30, then the closing line. *)
Lemma early_stopping_console_witness :
  exists (progress : list (line Qc)) (n : nat) (e : Qc),
    stdout (fst slow_run) = (stdout tiny_net ++ progress ++ [EndLine n e])%list /\
    map line_count progress = List.filter (fun j => j mod 10 =? 0) (seq 1 n) /\
    forallb is_progress progress = true.
Proof.
  apply (early_stopping_console source 40 0 1 (Q2Qc (1 # 10)) 1 "linear"
           tiny_net (fst slow_run) PyNone).
  vm_compute. reflexivity.
Defined.

Lemma early_stopping_two_rounds_witness :
  exists (before : list (line Qc)) (n : nat) (e : Qc),
    stdout (fst (early_stopping source 6 0 1 (q 1) 1 "linear" tiny_net))
      = (before ++ [EndLine n e])%list /\ 2 <= n.
Proof.
  apply (early_stopping_two_rounds source 6 0 1 (q 1) 1 "linear" tiny_net
           (fst (early_stopping source 6 0 1 (q 1) 1 "linear" tiny_net)) PyNone
           exact_threshold).
  vm_compute. reflexivity.
Defined.

(** Validation inputs of two features for a network of one: the first
    burst of training runs, the validation Forward Pass raises. *)
Lemma early_stopping_width_mismatch_witness :
  exists w1 w',
    train source (q 1) 1 "linear" wide_net = (w1, Ok PyNone) /\
    early_stopping source 1 0 1 (q 1) 1 "linear" wide_net
      = (w', Raise ValueError) /\
    heap w' = heap w1 /\
    rng w' = rng wide_net + Z.to_nat 1 /\
    stdout w' = stdout wide_net.
Proof.
  apply (early_stopping_width_mismatch source 0 0 1 (q 1) 1 "linear" wide_net
           (arr (Ny.array [[q 1; q 2]]))).
  - apply (init_trainable source [[q 1]] [[q 2]] 0 (q 1) (Q2Qc (9 # 10))
             wide_heap [] 0 wide_net); reflexivity.
  - exact linear_recognized.
  - exact exact_threshold.
  - reflexivity.
  - vm_compute. lia.
Defined.

(** The calls of the demonstration on the XOR dataset. *)
Lemma construct_train_use_witness :
  exists w w' out,
    __init__ source xor_inputs xor_targets 2 (q 1) (Q2Qc (9 # 10)) [] [] 0
      = Ok w /\
    train source (Q2Qc (1 # 5)) 1000 "logistic" w = (w', Ok PyNone) /\
    use [q 0; q 1] w' = (w', Ok out) /\
    shape out = (1, length (hd [] xor_targets)).
Proof.
  apply (construct_train_use source xor_inputs xor_targets 2 (q 1)
           (Q2Qc (9 # 10)) [] [] 0 (Q2Qc (1 # 5)) 1000 "logistic" [q 0; q 1]).
  - reflexivity.
  - reflexivity.
  - reflexivity.
  - exact logistic_recognized.
  - reflexivity.
Defined.

(** The backward computation on the XOR network under the name "foo". *)
Lemma backward_unknown_outtype_unscaled_witness :
  exists deltao deltah,
    _compute_errors xor_renamed = (xor_renamed, Ok (deltao, deltah)) /\
    forall i j, i < 4 -> j < 1 ->
      Ny.mget deltao i j =
        fsub (Ny.mget (arr (targets (self xor_renamed))) i j)
             (Ny.mget (the (outputs (self xor_renamed))) i j).
Proof.
  destruct (backward_unknown_outtype_unscaled xor_renamed
              (arr (targets (self xor_renamed)))
              (the (outputs (self xor_renamed)))
              (the (hidden (self xor_renamed)))
              (at_loc xor_renamed 1) "foo")
    as (deltao & deltah & Hrun & _ & _ & He).
  - vm_compute. reflexivity.
  - vm_compute. reflexivity.
  - vm_compute. reflexivity.
  - vm_compute. reflexivity.
  - vm_compute. reflexivity.
  - vm_compute. reflexivity.
  - vm_compute. reflexivity.
  - vm_compute. reflexivity.
  - exact foo_not_recognized.
  - exists deltao, deltah. split; [exact Hrun |]. exact He.
Defined.

(** Four input rows against two target rows. *)
Lemma train_target_rows_mismatch_witness :
  exists w',
    train source (Q2Qc (1 # 5)) 1000 "logistic" short_target_net
      = (w', Raise ValueError) /\
    heap w' = heap short_target_net /\ rng w' = rng short_target_net.
Proof.
  destruct (train_target_rows_mismatch source (Q2Qc (1 # 5)) 1000 "logistic"
              short_target_net (at_loc short_target_net 0)
              (at_loc short_target_net 1)
              (arr (targets (self short_target_net))))
    as (w' & Hrun & Hh & Hr & _).
  - split; [reflexivity | split; [reflexivity | cbn; lia]].
  - reflexivity.
  - reflexivity.
  - reflexivity.
  - vm_compute. lia.
  - vm_compute. lia.
  - vm_compute. lia.
  - exact logistic_recognized.
  - lia.
  - exists w'. split; [exact Hrun |]. split; [exact Hh | exact Hr].
Defined.

Lemma exact_self_difference (x : Qc) :
  fgtb (fsub x x) (flit (1 # 1000)) = false.
Proof.
  cbn [fgtb fsub flit scalar].
  replace (x - x)%Qc with (Q2Qc 0) by ring.
  reflexivity.
Defined.

(** The one-weight network, validated on the caller's pair without any
    training. *)
Lemma early_stopping_without_training_witness :
  exists w' n e,
    early_stopping source 4 0 1 (q 1) 0 "linear" tiny_net
      = (w', Ok (Some PyNone)) /\
    (n = 2 \/ n = 3) /\
    stdout w' = (stdout tiny_net ++ [EndLine n e])%list /\
    heap w' = heap tiny_net.
Proof.
  destruct (early_stopping_without_training source 0 0 1 (q 1) 0 "linear"
              tiny_net (at_loc tiny_net 2) (at_loc tiny_net 3)
              (at_loc tiny_net 0) (at_loc tiny_net 1))
    as (w' & n & e & Hrun & Hn & _ & Hout & Hh & _).
  - split; [reflexivity | split; [reflexivity | cbn; lia]].
  - reflexivity.
  - reflexivity.
  - reflexivity.
  - reflexivity.
  - reflexivity.
  - exact linear_recognized.
  - lia.
  - exact exact_threshold.
  - exact exact_self_difference.
  - exists w', n, e. split; [exact Hrun |]. split; [exact Hn |].
    split; [exact Hout | exact Hh].
Defined.

End Concrete.
